(** * Retail ETL pipeline: cleaning, aggregation and insight derivation

    A shallow embedding of [python_pipeline/etl_pipeline.py]
    (class [RetailETLPipeline]) together with the properties of its
    cleaning, aggregation and insight rules, of the methods around them
    ([load_data], [export_data], [run_pipeline]), and of the customers and
    products tables [python_pipeline/generate_data.py] writes.

    Modelling conventions.
    - A DataFrame is the list of its rows, in row order; a row is a record
      with one field per column.  Row labels (the pandas index) are not
      modelled: no operation of the pipeline reads them.
    - A [float64] column is a column of exact rationals ([Q]); a missing
      cell (NaN / None) is [None].  Comparisons with a missing cell are
      false, reductions skip missing cells, as pandas does.
    - The id columns ([id], [customer_id], [product_id]) are integer
      columns without missing cells.
    - What the interpreter and the pandas/numpy runtime decide (the date
      parser, the calendar, the default sorting algorithm) is a parameter
      of the model, see [Runtime].  The clock ([datetime.now()]) is an
      argument of the method that reads it. *)

From Stdlib Require Import ZArith QArith Qround Qabs Lqa Lia Ascii String.
From stdpp Require Import base decidable option list gmap sets strings sorting.
From stdpp Require Import pretty.

Local Open Scope string_scope.

(** ** Cells *)

(** Elementwise comparisons of a numeric column with a scalar; a missing
    cell compares false. *)
Definition Qgtb (x y : Q) : bool := negb (Qle_bool x y).
Definition Qgeb (x y : Q) : bool := Qle_bool y x.
Definition Qleb (x y : Q) : bool := Qle_bool x y.
Definition Qltb (x y : Q) : bool := negb (Qle_bool y x).

Definition cell_cmp (op : Q → Q → bool) (x : option Q) (k : Q) : bool :=
  match x with
  | Some v => op v k
  | None => false
  end.

Definition cell_cmp2 (op : Q → Q → bool) (x y : option Q) : bool :=
  match x, y with
  | Some v, Some w => op v w
  | _, _ => false
  end.

(** [Series.fillna(value)]: a missing cell takes [value] (which may itself
    be missing, as the median of an all-missing column is). *)
Definition fillna {A} (value : option A) (cell : option A) : option A :=
  match cell with
  | Some _ => cell
  | None => value
  end.

(** [Series.clip(lower=k)]. *)
Definition clip_lower (k : Q) (cell : option Q) : option Q :=
  match cell with
  | Some v => Some (if Qltb v k then k else v)
  | None => None
  end.

(** [numpy.rint]: round to the nearest integer, halves to the even one. *)
Definition rint (x : Q) : Z :=
  let f := Qfloor x in
  match (x - inject_Z f ?= 1 # 2)%Q with
  | Lt => f
  | Gt => (f + 1)%Z
  | Eq => if Z.even f then f else (f + 1)%Z
  end.

(** [.round(2)] on one cell. *)
Definition round2 (x : Q) : Q := (inject_Z (rint (x * 100)) / 100)%Q.

(** ** Reductions over a column *)

Definition dropna {A} (col : list (option A)) : list A := omap id col.

Definition Qsum (xs : list Q) : Q := foldr Qplus 0%Q xs.

Definition col_sum (col : list (option Q)) : Q := Qsum (dropna col).
Definition col_count {A} (col : list (option A)) : nat := length (dropna col).

Definition Qmean (xs : list Q) : option Q :=
  match xs with
  | [] => None
  | _ => Some (Qsum xs / inject_Z (Z.of_nat (length xs)))%Q
  end.

Definition col_mean (col : list (option Q)) : option Q := Qmean (dropna col).

Definition Qmin_list (xs : list Q) : option Q :=
  match xs with
  | [] => None
  | x :: xs' => Some (foldl (λ m y, if Qltb y m then y else m) x xs')
  end.

Definition Qmax_list (xs : list Q) : option Q :=
  match xs with
  | [] => None
  | x :: xs' => Some (foldl (λ m y, if Qltb m y then y else m) x xs')
  end.

Definition Zmin_list (xs : list Z) : option Z :=
  match xs with
  | [] => None
  | x :: xs' => Some (foldl Z.min x xs')
  end.

Definition Zmax_list (xs : list Z) : option Z :=
  match xs with
  | [] => None
  | x :: xs' => Some (foldl Z.max x xs')
  end.

#[global] Instance Qle_decision (x y : Q) : Decision (x <= y)%Q :=
  decide (Qnum x * QDen y ≤ Qnum y * QDen x)%Z.

(** [Series.median()]: the middle of the sorted present values, the mean of
    the two middle ones when their number is even, missing when there is
    none. *)
Definition median (col : list (option Q)) : option Q :=
  let xs := merge_sort Qle (dropna col) in
  let n := length xs in
  if Nat.even n then
    match xs !! (n / 2 - 1)%nat, xs !! (n / 2)%nat with
    | Some a, Some b => Some ((a + b) / 2)%Q
    | _, _ => None
    end
  else xs !! (n / 2)%nat.

(** ** Frames *)

(** [DataFrame.drop_duplicates(subset=['id'])]: the first row of every id
    is kept. *)
Fixpoint drop_duplicates_seen {A} (key : A → Z) (seen : gset Z) (df : list A)
  : list A :=
  match df with
  | [] => []
  | r :: df' =>
      if decide (key r ∈ seen) then drop_duplicates_seen key seen df'
      else r :: drop_duplicates_seen key ({[key r]} ∪ seen) df'
  end.

Definition drop_duplicates {A} (key : A → Z) (df : list A) : list A :=
  drop_duplicates_seen key ∅ df.

(** [Series.isin(values)] on one cell. *)
Definition isin (x : Z) (values : gset Z) : bool := bool_decide (x ∈ values).

(** [left.merge(right, left_on=.., right_on=..)], the default inner join:
    the rows of [left] in order, each paired with its matches in [right],
    in order. *)
Definition merge {A B} (left_on : A → Z) (right_on : B → Z)
    (left : list A) (right : list B) : list (A * B) :=
  l ← left; (λ r, (l, r)) <$> List.filter (λ r, bool_decide (right_on r = left_on l)) right.

(** Group keys: [groupby] presents the groups in increasing key order. *)
Class GroupKey (K : Type) := {
  key_eq_dec :: EqDecision K;
  key_leb : K → K → bool
}.

#[global] Instance Z_GroupKey : GroupKey Z := {| key_leb := Z.leb |}.
#[global] Instance string_GroupKey : GroupKey string := {| key_leb := String.leb |}.
#[global] Instance prod_GroupKey `{GroupKey K1, GroupKey K2} : GroupKey (K1 * K2) :=
  {| key_leb a b :=
       if decide (a.1 = b.1) then key_leb a.2 b.2 else key_leb a.1 b.1 |}.

Definition sort_keys `{GroupKey K} (ks : list K) : list K :=
  merge_sort (λ a b, Is_true (key_leb a b)) ks.

(** [df.groupby(key)]: one group per key present in the frame, in increasing
    key order; rows whose key is missing belong to no group; each group keeps
    the frame's row order. *)
Definition groupby `{GroupKey K} {A} (key : A → option K) (df : list A)
  : list (K * list A) :=
  (λ k, (k, List.filter (λ r, bool_decide (key r = Some k)) df))
    <$> sort_keys (remove_dups (omap key df)).

(** ** Data model: the four input tables *)

(** customers.csv: id, name, age, region, created_at *)
Record Customer := {
  c_id : Z;
  c_name : option string;
  c_age : option Q;
  c_region : option string;
  c_created_at : string
}.

(** products.csv: id, name, category, price, supplier, created_at *)
Record Product := {
  p_id : Z;
  p_name : option string;
  p_category : option string;
  p_price : option Q;
  p_supplier : option string;
  p_created_at : string
}.

(** A cell of the [date] column: the text read from the csv file, or the
    timestamp (nanoseconds since the epoch) [pd.to_datetime] made of it. *)
Inductive DateCell :=
  | DateStr (s : string)
  | Timestamp (ns : Z).

(** sales.csv: id, customer_id, product_id, date, quantity, unit_price,
    total_amount; [year_month] is the column [generate_metrics] adds. *)
Record Sale := {
  s_id : Z;
  s_customer_id : Z;
  s_product_id : Z;
  s_date : DateCell;
  s_quantity : option Q;
  s_unit_price : option Q;
  s_total_amount : option Q;
  s_year_month : option Z
}.

(** inventory.csv: id, product_id, current_stock, reorder_level, max_stock,
    turnover_rate, last_updated *)
Record Inventory := {
  i_id : Z;
  i_product_id : Z;
  i_current_stock : option Q;
  i_reorder_level : option Q;
  i_max_stock : option Q;
  i_turnover_rate : option Q;
  i_last_updated : string
}.

#[global] Instance DateCell_eq_dec : EqDecision DateCell.
Proof. solve_decision. Defined.

(** ** What the runtime decides *)

Record Runtime := {
  (** [pd.to_datetime] on one text cell; [None] when the parser raises. *)
  to_datetime : string → option Z;
  (** [.dt.to_period('M')]: the calendar month of a timestamp. *)
  to_period_M : Z → Z;
  (** [sort_values(by, ascending=False)] with the default
      [kind='quicksort']: pandas documents only [mergesort] and [stable] as
      stable, so nothing but [sort_values_spec] below is known of it. *)
  sort_values_desc : ∀ A : Type, (A → Q) → list A → list A
}.

Arguments sort_values_desc _ {A} _ _.

(** The contract of [sort_values]: the rows are rearranged, and the sort
    column decreases. *)
Definition sort_values_spec (rt : Runtime) : Prop :=
  ∀ (A : Type) (by_ : A → Q) (df : list A),
    sort_values_desc rt by_ df ≡ₚ df ∧
    Sorted (λ r1 r2, (by_ r2 <= by_ r1)%Q) (sort_values_desc rt by_ df).

(** ** The metrics bundle *)

Record RegionRow := {
  rr_total_revenue : Q;
  rr_total_sales : nat;
  rr_avg_order_value : option Q
}.

Record TopProduct := {
  tp_product_id : Z;
  tp_name : string;
  tp_category : string;
  tp_total_quantity_sold : Q;
  tp_total_revenue : Q;
  tp_number_of_sales : nat
}.

Record CategoryRow := {
  cp_total_revenue : Q;
  cp_avg_order_value : option Q;
  cp_total_quantity : Q;
  cp_number_of_sales : nat
}.

Inductive AgeGroup := G18_25 | G26_35 | G36_50 | G51_65 | G65plus.

#[global] Instance AgeGroup_eq_dec : EqDecision AgeGroup.
Proof. solve_decision. Defined.

Definition AgeGroup_code (g : AgeGroup) : Z :=
  match g with
  | G18_25 => 0 | G26_35 => 1 | G36_50 => 2 | G51_65 => 3 | G65plus => 4
  end%Z.

Definition AgeGroup_label (g : AgeGroup) : string :=
  match g with
  | G18_25 => "18-25" | G26_35 => "26-35" | G36_50 => "36-50"
  | G51_65 => "51-65" | G65plus => "65+"
  end.

#[global] Instance AgeGroup_GroupKey : GroupKey AgeGroup :=
  {| key_leb a b := (AgeGroup_code a <=? AgeGroup_code b)%Z |}.

(** A row of the [customer_metrics] frame (indexed by customer id). *)
Record CustomerMetric := {
  cm_id : Z;
  cm_total_spent : Q;
  cm_avg_order_value : option Q;
  cm_number_of_orders : nat;
  cm_first_purchase : option Z;
  cm_last_purchase : option Z;
  cm_age : option Q;
  cm_region : option string;
  cm_days_since_last_purchase : option Z;
  cm_is_churned : bool;
  cm_age_group : option AgeGroup
}.

Record CustomerSummary := {
  total_customers : nat;
  active_customers : nat;
  churned_customers : nat;
  churn_rate : option Q;
  avg_customer_value : option Q;
  avg_order_value : option Q
}.

Record AgeGroupRow := {
  ag_avg_spent : option Q;
  ag_total_spent : Q;
  ag_avg_orders : option Q;
  ag_churn_rate : option Q
}.

Record LowStockRow := {
  ls_product_id : Z;
  ls_name : option string;
  ls_category : option string;
  ls_current_stock : option Q;
  ls_reorder_level : option Q;
  ls_turnover_rate : option Q
}.

Record TurnoverRow := {
  avg_turnover : option Q;
  min_turnover : option Q;
  max_turnover : option Q
}.

Record InventoryInsights := {
  low_stock_products : list LowStockRow;
  total_products_at_risk : nat;
  turnover_by_category : list (string * TurnoverRow)
}.

Record MonthRow := {
  mt_year_month : Z;
  mt_revenue : Q;
  mt_quantity_sold : Q;
  mt_number_of_sales : nat
}.

(** An insight.  The [description] and [recommendation] texts are f-string
    renderings of quantities of the bundle; they decide nothing and are not
    part of the model. *)
Record Insight := {
  title : string;
  impact : string;
  category : string
}.

#[global] Instance Insight_eq_dec : EqDecision Insight.
Proof. solve_decision. Defined.

Record MetricsBundle := {
  revenue_by_region : list (string * RegionRow);
  top_products : list TopProduct;
  category_performance : list (string * CategoryRow);
  customer_metrics_summary : CustomerSummary;
  age_group_analysis : list (AgeGroup * AgeGroupRow);
  inventory_insights : InventoryInsights;
  monthly_trends : list MonthRow;
  business_insights : list Insight
}.

(** ** The pipeline object and its methods' effects *)

Record RetailETLPipeline := {
  customers_df : option (list Customer);
  products_df : option (list Product);
  sales_df : option (list Sale);
  inventory_df : option (list Inventory);
  (** [None] is the empty dict [__init__] stores. *)
  processed_data : option MetricsBundle
}.

Inductive exn :=
  | ValueError (msg : string)
  | ParserError (cell : string)
  | AttributeError (msg : string).

(** A method either returns or raises, and leaves the object in the state it
    had reached. *)
Definition M (A : Type) : Type := RetailETLPipeline → (exn + A) * RetailETLPipeline.

#[global] Instance M_ret : MRet M := λ A x self, (inr x, self).
#[global] Instance M_bind : MBind M := λ A B f m self,
  match m self with
  | (inr x, self') => f x self'
  | (inl e, self') => (inl e, self')
  end.

Definition raise {A} (e : exn) : M A := λ self, (inl e, self).
Definition get_self : M RetailETLPipeline := λ self, (inr self, self).

Definition set_customers_df (df : list Customer) : M unit := λ self,
  (inr (), {| customers_df := Some df; products_df := products_df self;
              sales_df := sales_df self; inventory_df := inventory_df self;
              processed_data := processed_data self |}).
Definition set_products_df (df : list Product) : M unit := λ self,
  (inr (), {| customers_df := customers_df self; products_df := Some df;
              sales_df := sales_df self; inventory_df := inventory_df self;
              processed_data := processed_data self |}).
Definition set_sales_df (df : list Sale) : M unit := λ self,
  (inr (), {| customers_df := customers_df self; products_df := products_df self;
              sales_df := Some df; inventory_df := inventory_df self;
              processed_data := processed_data self |}).
Definition set_inventory_df (df : list Inventory) : M unit := λ self,
  (inr (), {| customers_df := customers_df self; products_df := products_df self;
              sales_df := sales_df self; inventory_df := Some df;
              processed_data := processed_data self |}).
Definition set_processed_data (d : MetricsBundle) : M unit := λ self,
  (inr (), {| customers_df := customers_df self; products_df := products_df self;
              sales_df := sales_df self; inventory_df := inventory_df self;
              processed_data := Some d |}).

(** Lift a partial library call: [None] raises. *)
Definition from_option {A} (e : exn) (x : option A) : M A :=
  match x with
  | Some v => mret v
  | None => raise e
  end.

(** ** Column assignment, one function per assigned column *)

Definition c_assign_name (f : option string → option string) (c : Customer) :=
  {| c_id := c_id c; c_name := f (c_name c); c_age := c_age c;
     c_region := c_region c; c_created_at := c_created_at c |}.
Definition c_assign_age (f : option Q → option Q) (c : Customer) :=
  {| c_id := c_id c; c_name := c_name c; c_age := f (c_age c);
     c_region := c_region c; c_created_at := c_created_at c |}.
Definition c_assign_region (f : option string → option string) (c : Customer) :=
  {| c_id := c_id c; c_name := c_name c; c_age := c_age c;
     c_region := f (c_region c); c_created_at := c_created_at c |}.

Definition p_assign_name (f : option string → option string) (p : Product) :=
  {| p_id := p_id p; p_name := f (p_name p); p_category := p_category p;
     p_price := p_price p; p_supplier := p_supplier p;
     p_created_at := p_created_at p |}.
Definition p_assign_category (f : option string → option string) (p : Product) :=
  {| p_id := p_id p; p_name := p_name p; p_category := f (p_category p);
     p_price := p_price p; p_supplier := p_supplier p;
     p_created_at := p_created_at p |}.
Definition p_assign_supplier (f : option string → option string) (p : Product) :=
  {| p_id := p_id p; p_name := p_name p; p_category := p_category p;
     p_price := p_price p; p_supplier := f (p_supplier p);
     p_created_at := p_created_at p |}.

Definition s_assign_quantity (f : option Q → option Q) (s : Sale) :=
  {| s_id := s_id s; s_customer_id := s_customer_id s;
     s_product_id := s_product_id s; s_date := s_date s;
     s_quantity := f (s_quantity s); s_unit_price := s_unit_price s;
     s_total_amount := s_total_amount s; s_year_month := s_year_month s |}.
Definition s_assign_date (d : DateCell) (s : Sale) :=
  {| s_id := s_id s; s_customer_id := s_customer_id s;
     s_product_id := s_product_id s; s_date := d;
     s_quantity := s_quantity s; s_unit_price := s_unit_price s;
     s_total_amount := s_total_amount s; s_year_month := s_year_month s |}.
Definition s_assign_year_month (m : option Z) (s : Sale) :=
  {| s_id := s_id s; s_customer_id := s_customer_id s;
     s_product_id := s_product_id s; s_date := s_date s;
     s_quantity := s_quantity s; s_unit_price := s_unit_price s;
     s_total_amount := s_total_amount s; s_year_month := m |}.

Definition i_assign_current_stock (f : option Q → option Q) (i : Inventory) :=
  {| i_id := i_id i; i_product_id := i_product_id i;
     i_current_stock := f (i_current_stock i);
     i_reorder_level := i_reorder_level i; i_max_stock := i_max_stock i;
     i_turnover_rate := i_turnover_rate i; i_last_updated := i_last_updated i |}.
Definition i_assign_turnover_rate (f : option Q → option Q) (i : Inventory) :=
  {| i_id := i_id i; i_product_id := i_product_id i;
     i_current_stock := i_current_stock i;
     i_reorder_level := i_reorder_level i; i_max_stock := i_max_stock i;
     i_turnover_rate := f (i_turnover_rate i); i_last_updated := i_last_updated i |}.

(** ** clean_data *)

(** Lines 51-64. *)
Definition clean_customers (df : list Customer) : list Customer :=
  let df := drop_duplicates c_id df in
  let df := c_assign_name (fillna (Some "Unknown Customer")) <$> df in
  let age_median := median (c_age <$> df) in
  let df := c_assign_age (fillna age_median) <$> df in
  let df := c_assign_region (fillna (Some "Unknown")) <$> df in
  List.filter (λ c, cell_cmp Qgeb (c_age c) 18 && cell_cmp Qleb (c_age c) 100) df.

(** Lines 68-80. *)
Definition clean_products (df : list Product) : list Product :=
  let df := drop_duplicates p_id df in
  let df := p_assign_name (fillna (Some "Unknown Product")) <$> df in
  let df := p_assign_category (fillna (Some "Other")) <$> df in
  let df := p_assign_supplier (fillna (Some "Unknown Supplier")) <$> df in
  List.filter (λ p, cell_cmp Qgtb (p_price p) 0 && cell_cmp Qleb (p_price p) 10000) df.

(** Lines 84-102, on the customers and products already cleaned. *)
Definition clean_sales (customers : list Customer) (products : list Product)
    (df : list Sale) : list Sale :=
  let df := drop_duplicates s_id df in
  let valid_customers : gset Z := list_to_set (c_id <$> customers) in
  let valid_products : gset Z := list_to_set (p_id <$> products) in
  let df := List.filter (λ s, isin (s_customer_id s) valid_customers
                              && isin (s_product_id s) valid_products) df in
  let df := s_assign_quantity (fillna (Some 1%Q)) <$> df in
  let df := List.filter (λ s, cell_cmp Qgtb (s_quantity s) 0) df in
  List.filter (λ s, cell_cmp Qgtb (s_total_amount s) 0) df.

(** Line 105 on one row: a timestamp is left as it is. *)
Definition to_datetime_row (rt : Runtime) (s : Sale) : option Sale :=
  match s_date s with
  | DateStr d => ns ← to_datetime rt d; Some (s_assign_date (Timestamp ns) s)
  | Timestamp _ => Some s
  end.

(** Lines 114-122. *)
Definition new_record (today : string) (product_id : Z) : Inventory :=
  {| i_id := product_id; i_product_id := product_id;
     i_current_stock := Some 0%Q; i_reorder_level := Some 10%Q;
     i_max_stock := Some 100%Q; i_turnover_rate := Some 1%Q;
     i_last_updated := today |}.

(** Lines 110-127.  The loop runs over a Python set: [elements] is its
    iteration order. *)
Definition clean_inventory (today : string) (products : list Product)
    (df : list Inventory) : list Inventory :=
  let missing_inventory : gset Z :=
    list_to_set (p_id <$> products) ∖ list_to_set (i_product_id <$> df) in
  let df := foldl (λ df product_id, (df ++ [new_record today product_id])%list)
                  df (elements missing_inventory) in
  let df := i_assign_current_stock (clip_lower 0) <$> df in
  i_assign_turnover_rate (fillna (Some 1%Q)) <$> df.

Definition not_loaded : string :=
  "Data must be loaded before cleaning. Call load_data() first.".

Definition clean_data (rt : Runtime) (today : string) : M unit :=
  self ← get_self;
  match customers_df self, products_df self, sales_df self, inventory_df self with
  | Some customers, Some products, Some sales, Some inventory =>
      let customers := clean_customers customers in
      set_customers_df customers;;
      let products := clean_products products in
      set_products_df products;;
      let sales := clean_sales customers products sales in
      set_sales_df sales;;
      sales ← from_option (ParserError "date") (mapM (to_datetime_row rt) sales);
      set_sales_df sales;;
      set_inventory_df (clean_inventory today products inventory)
  | _, _, _, _ => raise (ValueError not_loaded)
  end.

(** ** generate_metrics *)

Definition Qcount (n : nat) : Q := inject_Z (Z.of_nat n).
Definition Qbool (b : bool) : Q := if b then 1%Q else 0%Q.

(** Lines 140-142, before [.round(2)]. *)
Definition revenue_by_region_agg (sales : list Sale) (customers : list Customer)
  : list (string * RegionRow) :=
  let sales_with_customer := merge s_customer_id c_id sales customers in
  (λ '(region, g),
     let total_amount := (s_total_amount ∘ fst) <$> g in
     (region, {| rr_total_revenue := col_sum total_amount;
                 rr_total_sales := col_count total_amount;
                 rr_avg_order_value := col_mean total_amount |}))
    <$> groupby (c_region ∘ snd) sales_with_customer.

Definition round_region (r : RegionRow) : RegionRow :=
  {| rr_total_revenue := round2 (rr_total_revenue r);
     rr_total_sales := rr_total_sales r;
     rr_avg_order_value := round2 <$> rr_avg_order_value r |}.

Definition revenue_by_region_df (sales : list Sale) (customers : list Customer)
  : list (string * RegionRow) :=
  prod_map id round_region <$> revenue_by_region_agg sales customers.

(** Line 145. *)
Definition sales_with_product (sales : list Sale) (products : list Product)
  : list (Sale * Product) :=
  merge s_product_id p_id sales products.

(** The key of [groupby(['product_id', 'name', 'category'])]: missing when
    one of the three cells is. *)
Definition product_key (r : Sale * Product) : option (Z * string * string) :=
  name ← p_name r.2; category ← p_category r.2;
  Some (s_product_id r.1, name, category).

(** Lines 146-151: the groups, aggregated and rounded. *)
Definition top_products_agg (sales : list Sale) (products : list Product)
  : list TopProduct :=
  (λ '(k, g),
     {| tp_product_id := k.1.1; tp_name := k.1.2; tp_category := k.2;
        tp_total_quantity_sold := round2 (col_sum ((s_quantity ∘ fst) <$> g));
        tp_total_revenue := round2 (col_sum ((s_total_amount ∘ fst) <$> g));
        tp_number_of_sales := length g |})
    <$> groupby product_key (sales_with_product sales products).

(** Line 152. *)
Definition top_products_df (rt : Runtime) (sales : list Sale)
    (products : list Product) : list TopProduct :=
  take 20 (sort_values_desc rt tp_total_revenue (top_products_agg sales products)).

(** Lines 155-160: the groups, aggregated and rounded. *)
Definition category_performance_agg (sales : list Sale)
    (products : list Product) : list (string * CategoryRow) :=
  (λ '(category, g),
     let total_amount := (s_total_amount ∘ fst) <$> g in
     (category,
      {| cp_total_revenue := round2 (col_sum total_amount);
         cp_avg_order_value := round2 <$> col_mean total_amount;
         cp_total_quantity := round2 (col_sum ((s_quantity ∘ fst) <$> g));
         cp_number_of_sales := length g |}))
    <$> groupby (p_category ∘ snd) (sales_with_product sales products).

(** Line 161. *)
Definition category_performance_df (rt : Runtime) (sales : list Sale)
    (products : list Product) : list (string * CategoryRow) :=
  sort_values_desc rt (cp_total_revenue ∘ snd)
    (category_performance_agg sales products).

(** The timestamp in a cell of a [datetime64] column. *)
Definition is_timestamp (s : Sale) : bool :=
  match s_date s with Timestamp _ => true | DateStr _ => false end.
Definition date_ns (s : Sale) : Z :=
  match s_date s with Timestamp ns => ns | DateStr _ => 0 end.

Definition ns_per_day : Z := 86400000000000.

(** [pd.cut(age, bins=[0, 25, 35, 50, 65, 100], labels=...)]: intervals
    closed on the right; an age outside all of them has no group. *)
Definition cut_age (age : option Q) : option AgeGroup :=
  a ← age;
  if Qgtb a 0 && Qleb a 25 then Some G18_25
  else if Qgtb a 25 && Qleb a 35 then Some G26_35
  else if Qgtb a 35 && Qleb a 50 then Some G36_50
  else if Qgtb a 50 && Qleb a 65 then Some G51_65
  else if Qgtb a 65 && Qleb a 100 then Some G65plus
  else None.

(** Lines 164-187. *)
Definition customer_metrics_df (now : Z) (sales : list Sale)
    (customers : list Customer) : list CustomerMetric :=
  let grouped := groupby (Some ∘ s_customer_id) sales in
  (λ '((customer_id, g), c),
     let total_amount := s_total_amount <$> g in
     let last_purchase := Zmax_list (date_ns <$> g) in
     let days_since_last_purchase :=
       (λ last, (now - last) `div` ns_per_day)%Z <$> last_purchase in
     {| cm_id := c_id c;
        cm_total_spent := round2 (col_sum total_amount);
        cm_avg_order_value := round2 <$> col_mean total_amount;
        cm_number_of_orders := col_count total_amount;
        cm_first_purchase := Zmin_list (date_ns <$> g);
        cm_last_purchase := last_purchase;
        cm_age := c_age c;
        cm_region := c_region c;
        cm_days_since_last_purchase := days_since_last_purchase;
        cm_is_churned :=
          match days_since_last_purchase with
          | Some d => bool_decide (90 < d)%Z
          | None => false
          end;
        cm_age_group := cut_age (c_age c) |})
    <$> merge fst c_id grouped customers.

(** Lines 189-194. *)
Definition age_group_analysis_df (customer_metrics : list CustomerMetric)
  : list (AgeGroup * AgeGroupRow) :=
  (λ '(age_group, g),
     (age_group,
      {| ag_avg_spent := round2 <$> Qmean (cm_total_spent <$> g);
         ag_total_spent := round2 (Qsum (cm_total_spent <$> g));
         ag_avg_orders := round2 <$> Qmean ((Qcount ∘ cm_number_of_orders) <$> g);
         ag_churn_rate := round2 <$> Qmean ((Qbool ∘ cm_is_churned) <$> g) |}))
    <$> groupby cm_age_group customer_metrics.

(** Line 197. *)
Definition inventory_with_product (inventory : list Inventory)
    (products : list Product) : list (Inventory * Product) :=
  merge i_product_id p_id inventory products.

(** Lines 200-202. *)
Definition low_stock_products_df (inventory : list Inventory)
    (products : list Product) : list LowStockRow :=
  (λ '(i, p),
     {| ls_product_id := i_product_id i; ls_name := p_name p;
        ls_category := p_category p; ls_current_stock := i_current_stock i;
        ls_reorder_level := i_reorder_level i;
        ls_turnover_rate := i_turnover_rate i |})
    <$> List.filter (λ r, cell_cmp2 Qleb (i_current_stock r.1) (i_reorder_level r.1))
          (inventory_with_product inventory products).

(** Lines 205-206. *)
Definition turnover_analysis_df (inventory : list Inventory)
    (products : list Product) : list (string * TurnoverRow) :=
  (λ '(category, g),
     let turnover_rate := dropna ((i_turnover_rate ∘ fst) <$> g) in
     (category,
      {| avg_turnover := round2 <$> Qmean turnover_rate;
         min_turnover := round2 <$> Qmin_list turnover_rate;
         max_turnover := round2 <$> Qmax_list turnover_rate |}))
    <$> groupby (p_category ∘ snd) (inventory_with_product inventory products).

(** Lines 210-215, on the sales frame that has its [year_month] column. *)
Definition monthly_trends_df (sales : list Sale) : list MonthRow :=
  (λ '(year_month, g),
     {| mt_year_month := year_month;
        mt_revenue := round2 (col_sum (s_total_amount <$> g));
        mt_quantity_sold := round2 (col_sum (s_quantity <$> g));
        mt_number_of_sales := length g |})
    <$> groupby s_year_month sales.

(** [customer_metrics['is_churned'].mean()], lines 226 and 304. *)
Definition is_churned_mean (customer_metrics : list CustomerMetric) : option Q :=
  Qmean ((Qbool ∘ cm_is_churned) <$> customer_metrics).

(** Lines 222-229. *)
Definition customer_metrics_summary_of (customer_metrics : list CustomerMetric)
  : CustomerSummary :=
  {| total_customers := length customer_metrics;
     active_customers :=
       length (List.filter (negb ∘ cm_is_churned) customer_metrics);
     churned_customers := length (List.filter cm_is_churned customer_metrics);
     churn_rate := is_churned_mean customer_metrics;
     avg_customer_value := Qmean (cm_total_spent <$> customer_metrics);
     avg_order_value := col_mean (cm_avg_order_value <$> customer_metrics) |}.

(** ** generate_business_insights *)

(** [Series.idxmax()]: label and value of the first largest present value;
    [None] when there is none (pandas raises [ValueError]). *)
Fixpoint idxmax_present {K} (col : list (K * Q)) : option (K * Q) :=
  match col with
  | [] => None
  | (k, v) :: col' =>
      match idxmax_present col' with
      | Some (k', v') => if Qltb v v' then Some (k', v') else Some (k, v)
      | None => Some (k, v)
      end
  end.

Definition idxmax {K} (col : list (K * option Q)) : option (K * Q) :=
  idxmax_present (omap (λ kv, (λ v, (kv.1, v)) <$> kv.2) col).

Definition empty_argmax : exn :=
  ValueError "attempt to get argmax of an empty sequence".

Definition regional_performance_leader : Insight :=
  {| title := "Regional Performance Leader"; impact := "High";
     category := "Regional Analysis" |}.
Definition category_dominance : Insight :=
  {| title := "Category Dominance"; impact := "High";
     category := "Category Performance" |}.
Definition high_value_customer_segment : Insight :=
  {| title := "High-Value Customer Segment"; impact := "Medium";
     category := "Customer Segmentation" |}.
Definition inventory_risk_alert : Insight :=
  {| title := "Inventory Risk Alert"; impact := "Critical";
     category := "Inventory Management" |}.
Definition customer_retention_concern : Insight :=
  {| title := "Customer Retention Concern"; impact := "High";
     category := "Customer Retention" |}.

(** The five rules, lines 250-312.  Each returns the insights it appends. *)

Definition regional_insights (revenue_by_region : list (string * RegionRow))
  : exn + list Insight :=
  match idxmax (prod_map id (Some ∘ rr_total_revenue) <$> revenue_by_region) with
  | None => inl empty_argmax
  | Some (top_region, top_region_revenue) =>
      let avg_revenue := Qmean ((rr_total_revenue ∘ snd) <$> revenue_by_region) in
      if cell_cmp2 Qgtb (Some top_region_revenue)
           ((λ avg, avg * 1.2)%Q <$> avg_revenue)
      then inr [regional_performance_leader]
      else inr []
  end.

Definition category_insights (category_performance : list (string * CategoryRow))
  : exn + list Insight :=
  match idxmax (prod_map id (Some ∘ cp_total_revenue) <$> category_performance) with
  | None => inl empty_argmax
  | Some (top_category, top_category_revenue) => inr [category_dominance]
  end.

Definition age_group_insights (age_group_analysis : list (AgeGroup * AgeGroupRow))
  : exn + list Insight :=
  match age_group_analysis with
  | [] => inr []
  | _ =>
      match idxmax (prod_map id ag_avg_spent <$> age_group_analysis) with
      | None => inl empty_argmax
      | Some (highest_spending_group, highest_avg_spent) =>
          inr [high_value_customer_segment]
      end
  end.

Definition inventory_rule (low_stock_products : list LowStockRow) : list Insight :=
  if bool_decide (0 < length low_stock_products)%nat
  then [inventory_risk_alert] else [].

Definition churn_insights (customer_metrics : list CustomerMetric) : list Insight :=
  let churn_rate := is_churned_mean customer_metrics in
  if cell_cmp Qgtb churn_rate 0.3 then [customer_retention_concern] else [].

Definition generate_business_insights
    (revenue_by_region : list (string * RegionRow))
    (category_performance : list (string * CategoryRow))
    (age_group_analysis : list (AgeGroup * AgeGroupRow))
    (customer_metrics : list CustomerMetric)
    (low_stock_products : list LowStockRow) : exn + list Insight :=
  match regional_insights revenue_by_region with
  | inl e => inl e
  | inr regional =>
      match category_insights category_performance with
      | inl e => inl e
      | inr categorical =>
          match age_group_insights age_group_analysis with
          | inl e => inl e
          | inr segment =>
              inr (regional ++ categorical ++ segment
                   ++ inventory_rule low_stock_products
                   ++ churn_insights customer_metrics)%list
          end
      end
  end.

Definition not_cleaned : string :=
  "Data must be loaded and cleaned before generating metrics.".
Definition not_datetimelike : string :=
  "Can only use .dt accessor with datetimelike values".

(** Lines 131-243.  A [date] column that still holds text makes line 179
    or line 209 raise, before anything is stored; the model raises the
    error of line 209 for both.  [now] is the clock read at line 179. *)
Definition generate_metrics (rt : Runtime) (now : Z) : M unit :=
  self ← get_self;
  match customers_df self, products_df self, sales_df self, inventory_df self with
  | Some customers, Some products, Some sales, Some inventory =>
      if forallb is_timestamp sales then
        let revenue_by_region := revenue_by_region_df sales customers in
        let top_products := top_products_df rt sales products in
        let category_performance := category_performance_df rt sales products in
        let customer_metrics := customer_metrics_df now sales customers in
        let age_group_analysis := age_group_analysis_df customer_metrics in
        let low_stock_products := low_stock_products_df inventory products in
        let turnover_analysis := turnover_analysis_df inventory products in
        let sales :=
          (λ s, s_assign_year_month (Some (to_period_M rt (date_ns s))) s)
            <$> sales in
        set_sales_df sales;;
        let monthly_trends := monthly_trends_df sales in
        match generate_business_insights revenue_by_region category_performance
                age_group_analysis customer_metrics low_stock_products with
        | inl e => raise e
        | inr insights =>
            set_processed_data
              {| revenue_by_region := revenue_by_region;
                 top_products := top_products;
                 category_performance := category_performance;
                 customer_metrics_summary :=
                   customer_metrics_summary_of customer_metrics;
                 age_group_analysis := age_group_analysis;
                 inventory_insights :=
                   {| low_stock_products := low_stock_products;
                      total_products_at_risk := length low_stock_products;
                      turnover_by_category := turnover_analysis |};
                 monthly_trends := monthly_trends;
                 business_insights := insights |}
        end
      else raise (AttributeError not_datetimelike)
  | _, _, _, _ => raise (ValueError not_cleaned)
  end.

(** Lines 349-350 of [run_pipeline]: the two stages between loading and
    exporting. *)
Definition run_stages (rt : Runtime) (today : string) (now : Z) : M unit :=
  clean_data rt today;; generate_metrics rt now.

(** ** A concrete runtime

    ISO dates (YYYY-MM-DD), the proleptic Gregorian calendar, and two
    sorting algorithms that both meet [sort_values_spec]: an insertion sort
    that keeps rows of equal key in frame order, and one that does not. *)

Module Iso.

Definition digit (a : ascii) : option Z :=
  let n := Z.of_nat (nat_of_ascii a) in
  if bool_decide (48 ≤ n ≤ 57)%Z then Some (n - 48)%Z else None.

Fixpoint number_from (acc : Z) (s : string) : option Z :=
  match s with
  | EmptyString => Some acc
  | String a s' => d ← digit a; number_from (10 * acc + d) s'
  end.

Definition number (s : string) : option Z :=
  match s with
  | EmptyString => None
  | _ => number_from 0 s
  end.

Definition days_from_civil (y m d : Z) : Z :=
  let y := if (m <=? 2)%Z then (y - 1)%Z else y in
  let era := (y `div` 400)%Z in
  let yoe := (y - era * 400)%Z in
  let mp := if (2 <? m)%Z then (m - 3)%Z else (m + 9)%Z in
  let doy := ((153 * mp + 2) `div` 5 + d - 1)%Z in
  let doe := (yoe * 365 + yoe `div` 4 - yoe `div` 100 + doy)%Z in
  (era * 146097 + doe - 719468)%Z.

Definition civil_from_days (z : Z) : Z * Z * Z :=
  let z := (z + 719468)%Z in
  let era := (z `div` 146097)%Z in
  let doe := (z - era * 146097)%Z in
  let yoe := ((doe - doe `div` 1460 + doe `div` 36524 - doe `div` 146096) `div` 365)%Z in
  let y := (yoe + era * 400)%Z in
  let doy := (doe - (365 * yoe + yoe `div` 4 - yoe `div` 100))%Z in
  let mp := ((5 * doy + 2) `div` 153)%Z in
  let d := (doy - (153 * mp + 2) `div` 5 + 1)%Z in
  let m := if (mp <? 10)%Z then (mp + 3)%Z else (mp - 9)%Z in
  (if (m <=? 2)%Z then (y + 1)%Z else y, m, d).

Definition parse_date (s : string) : option Z :=
  if bool_decide (String.length s = 10%nat
                  ∧ String.get 4 s = Some "-"%char
                  ∧ String.get 7 s = Some "-"%char)
  then
    y ← number (String.substring 0 4 s);
    m ← number (String.substring 5 2 s);
    d ← number (String.substring 8 2 s);
    if bool_decide (1 ≤ m ≤ 12 ∧ 1 ≤ d ≤ 31)%Z
    then Some (days_from_civil y m d * ns_per_day)%Z
    else None
  else None.

Definition month_of (ns : Z) : Z :=
  let '(y, m, _) := civil_from_days (ns `div` ns_per_day) in
  ((y - 1970) * 12 + (m - 1))%Z.

(** Insert [r] into a frame sorted by decreasing [by_], before the rows of
    equal key ... *)
Fixpoint insert_before {A} (by_ : A → Q) (r : A) (df : list A) : list A :=
  match df with
  | [] => [r]
  | r' :: df' =>
      if Qltb (by_ r) (by_ r') then r' :: insert_before by_ r df'
      else r :: df
  end.


Definition sort_stable {A} (by_ : A → Q) (df : list A) : list A :=
  foldr (insert_before by_) [] df.


Definition runtime : Runtime :=
  {| to_datetime := parse_date; to_period_M := month_of;
     sort_values_desc := @sort_stable |}.


End Iso.

(** A pipeline object after [load_data]. *)
Definition loaded (customers : list Customer) (products : list Product)
    (sales : list Sale) (inventory : list Inventory) : RetailETLPipeline :=
  {| customers_df := Some customers; products_df := Some products;
     sales_df := Some sales; inventory_df := Some inventory;
     processed_data := None |}.

(** The object [__init__] builds. *)
Definition init : RetailETLPipeline :=
  {| customers_df := None; products_df := None; sales_df := None;
     inventory_df := None; processed_data := None |}.

(** ** What cleaned tables look like *)

Definition customer_ok (c : Customer) : Prop :=
  is_Some (c_name c) ∧ is_Some (c_region c) ∧
  ∃ age, c_age c = Some age ∧ (18 <= age)%Q ∧ (age <= 100)%Q.

Definition product_ok (p : Product) : Prop :=
  is_Some (p_name p) ∧ is_Some (p_category p) ∧ is_Some (p_supplier p) ∧
  ∃ price, p_price p = Some price ∧ (0 < price)%Q ∧ (price <= 10000)%Q.

Definition sale_ok (s : Sale) : Prop :=
  (∃ quantity, s_quantity s = Some quantity ∧ (0 < quantity)%Q) ∧
  (∃ total_amount, s_total_amount s = Some total_amount ∧ (0 < total_amount)%Q) ∧
  is_timestamp s = true.

Definition inventory_ok (i : Inventory) : Prop :=
  (∀ stock, i_current_stock i = Some stock → (0 <= stock)%Q) ∧
  is_Some (i_turnover_rate i).

Record cleaned (customers : list Customer) (products : list Product)
    (sales : list Sale) (inventory : list Inventory) : Prop := {
  customers_unique : NoDup (c_id <$> customers);
  customers_ok : Forall customer_ok customers;
  products_unique : NoDup (p_id <$> products);
  products_ok : Forall product_ok products;
  sales_unique : NoDup (s_id <$> sales);
  sales_ok : Forall sale_ok sales;
  sales_customer : ∀ s, s ∈ sales → s_customer_id s ∈ c_id <$> customers;
  sales_product : ∀ s, s ∈ sales → s_product_id s ∈ p_id <$> products;
  inventory_rows_ok : Forall inventory_ok inventory;
  inventory_covers : ∀ p, p ∈ products → p_id p ∈ i_product_id <$> inventory
}.

(** The tables a pipeline object holds. *)
Definition holds (self : RetailETLPipeline) (customers : list Customer)
    (products : list Product) (sales : list Sale) (inventory : list Inventory)
  : Prop :=
  customers_df self = Some customers ∧ products_df self = Some products ∧
  sales_df self = Some sales ∧ inventory_df self = Some inventory.

(** An insight of a given title is in the list. *)
Definition emits (insights : list Insight) (t : string) : Prop :=
  ∃ i, i ∈ insights ∧ title i = t.

(** The two repairs every inventory row goes through (lines 126-127). *)
Definition repair_inventory (i : Inventory) : Inventory :=
  i_assign_turnover_rate (fillna (Some 1%Q))
    (i_assign_current_stock (clip_lower 0) i).

(** ** A worked scenario

    Two customers (one under age), two products (one with a negative
    price), two sales (one referring to the dropped rows) and an empty
    inventory table. *)

Module Scenario.

Definition customers : list Customer :=
  [ {| c_id := 1; c_name := None; c_age := Some 17%Q; c_region := None;
       c_created_at := "2023-05-01" |};
    {| c_id := 2; c_name := None; c_age := Some 30%Q; c_region := Some "North";
       c_created_at := "2023-05-02" |} ].

Definition products : list Product :=
  [ {| p_id := 10; p_name := None; p_category := None; p_price := Some (-5)%Q;
       p_supplier := None; p_created_at := "2023-06-01" |};
    {| p_id := 11; p_name := None; p_category := Some "Books";
       p_price := Some 20%Q; p_supplier := None;
       p_created_at := "2023-06-02" |} ].

Definition sales : list Sale :=
  [ {| s_id := 100; s_customer_id := 2; s_product_id := 11;
       s_date := DateStr "2024-01-10"; s_quantity := Some 2%Q;
       s_unit_price := Some 20%Q; s_total_amount := Some 40%Q;
       s_year_month := None |};
    {| s_id := 101; s_customer_id := 1; s_product_id := 10;
       s_date := DateStr "2024-01-11"; s_quantity := Some 1%Q;
       s_unit_price := Some 5%Q; s_total_amount := Some 5%Q;
       s_year_month := None |} ].

Definition inventory : list Inventory := [].

Definition pipeline : RetailETLPipeline :=
  loaded customers products sales inventory.

Definition today : string := "2024-06-01".

(** 2024-06-01 12:00 *)
Definition now : Z := 1717243200000000000.

End Scenario.

(** ** Quantities the properties speak of *)

(** The customers with at least one sale. *)
Definition purchasing (sales : list Sale) (customers : list Customer)
  : list Customer :=
  List.filter (λ c, bool_decide (c_id c ∈ s_customer_id <$> sales)) customers.

(** Whole days from a customer's latest sale to [now]; the customer has
    lapsed when they exceed 90. *)
Definition days_since_last_purchase (now : Z) (sales : list Sale)
    (customer_id : Z) : option Z :=
  (λ last, (now - last) `div` ns_per_day)%Z <$>
    Zmax_list (date_ns <$> List.filter
                 (λ s, bool_decide (s_customer_id s = customer_id)) sales).

Definition lapsed (now : Z) (sales : list Sale) (c : Customer) : bool :=
  match days_since_last_purchase now sales (c_id c) with
  | Some d => bool_decide (90 < d)%Z
  | None => false
  end.

(** Decreasing order of the sort column. *)
Definition by_desc {A} (by_ : A → Q) : relation A :=
  λ r1 r2, (by_ r2 <= by_ r1)%Q.

(** The customer joined to each group of sales at lines 171-175. *)
Definition matched_customers (sales : list Sale) (customers : list Customer)
  : list Customer :=
  snd <$> merge fst c_id (groupby (Some ∘ s_customer_id) sales) customers.


(** ** Further scenarios *)

Module Examples.

Definition customer (id : Z) (age : Q) (region : string) : Customer :=
  {| c_id := id; c_name := Some "Ada"; c_age := Some age;
     c_region := Some region; c_created_at := "2023-05-01" |}.

Definition product (id : Z) (name category : string) (price : Q) : Product :=
  {| p_id := id; p_name := Some name; p_category := Some category;
     p_price := Some price; p_supplier := Some "BookLand";
     p_created_at := "2023-06-01" |}.

Definition sale (id customer_id product_id : Z) (date : string)
    (quantity total_amount : Q) : Sale :=
  {| s_id := id; s_customer_id := customer_id; s_product_id := product_id;
     s_date := DateStr date; s_quantity := Some quantity;
     s_unit_price := None; s_total_amount := Some total_amount;
     s_year_month := None |}.

(** Two customers, only one of whom has bought anything, and that long
    ago. *)
Definition one_buyer : RetailETLPipeline :=
  loaded [customer 1 30 "North"; customer 2 40 "South"]
         [product 11 "Atlas" "Books" 20]
         [sale 100 2 11 "2024-01-10" 2 40]
         [].

(** The tables of [one_buyer] after cleaning. *)
Definition one_buyer_cleaned : RetailETLPipeline :=
  (clean_data Iso.runtime Scenario.today one_buyer).2.
Definition one_buyer_customers : list Customer :=
  default [] (customers_df one_buyer_cleaned).
Definition one_buyer_sales : list Sale :=
  default [] (sales_df one_buyer_cleaned).

(** Two products that have sold for the same amount. *)
Definition tie : RetailETLPipeline :=
  loaded [customer 1 30 "North"]
         [product 11 "Atlas" "Books" 20; product 12 "Bible" "Books" 20]
         [sale 100 1 11 "2024-05-10" 1 20; sale 101 1 12 "2024-05-11" 1 20]
         [].


(** No sale survives: the only one refers to an unknown customer. *)
Definition no_sales : RetailETLPipeline :=
  loaded [customer 1 30 "North"]
         [product 11 "Atlas" "Books" 20]
         [sale 100 7 11 "2024-05-10" 1 20]
         [].

(** An inventory row whose product is dropped by cleaning, with a negative
    stock and no turnover rate. *)
Definition orphan : RetailETLPipeline :=
  loaded Scenario.customers Scenario.products Scenario.sales
    [ {| i_id := 1; i_product_id := 10; i_current_stock := Some (-3)%Q;
         i_reorder_level := Some 5%Q; i_max_stock := Some 50%Q;
         i_turnover_rate := None; i_last_updated := "2024-05-20" |} ].

Definition region_row (total_revenue : Q) : RegionRow :=
  {| rr_total_revenue := total_revenue; rr_total_sales := 1;
     rr_avg_order_value := Some total_revenue |}.

Definition category_row (total_revenue : Q) : CategoryRow :=
  {| cp_total_revenue := total_revenue; cp_avg_order_value := Some total_revenue;
     cp_total_quantity := 1; cp_number_of_sales := 1 |}.

Definition metric (id : Z) (is_churned : bool) : CustomerMetric :=
  {| cm_id := id; cm_total_spent := 10; cm_avg_order_value := Some 10%Q;
     cm_number_of_orders := 1; cm_first_purchase := Some 0%Z;
     cm_last_purchase := Some 0%Z; cm_age := Some 30%Q;
     cm_region := Some "North"; cm_days_since_last_purchase := Some 0%Z;
     cm_is_churned := is_churned; cm_age_group := Some G26_35 |}.

(** Ten customers, three of them lapsed: a churn rate of exactly 30%. *)
Definition three_in_ten : list CustomerMetric :=
  [metric 1 true; metric 2 true; metric 3 true; metric 4 false;
   metric 5 false; metric 6 false; metric 7 false; metric 8 false;
   metric 9 false; metric 10 false].


Definition one_category : list (string * CategoryRow) :=
  [("Books", category_row 300)].

End Examples.

(** ** load_data, export_data and run_pipeline

    The methods around the two stages.  What is on disk under [data_dir] is
    an argument; what [export_data] writes under [output_dir] is a result,
    file by file in the order of writing.  Failures of the disk while
    writing are outside the model. *)

(** The exceptions of the whole run: those of the two stages, and the two
    the other methods can meet. *)
Inductive io_exn :=
  | Raised (e : exn)
  | FileNotFoundError (path : string)
  | KeyError (key : string).

(** [pd.read_csv] on each of the four files: the table, or the exception
    it raises. *)
Record DataDir := {
  customers_csv : io_exn + list Customer;
  products_csv : io_exn + list Product;
  sales_csv : io_exn + list Sale;
  inventory_csv : io_exn + list Inventory
}.

(** Lines 27-30: each table is assigned as soon as it is read; the [except]
    clause of lines 37-39 reports and re-raises. *)
Definition load_data (dir : DataDir) (self : RetailETLPipeline)
  : (io_exn + unit) * RetailETLPipeline :=
  match customers_csv dir with
  | inl e => (inl e, self)
  | inr customers =>
      let self := (set_customers_df customers self).2 in
      match products_csv dir with
      | inl e => (inl e, self)
      | inr products =>
          let self := (set_products_df products self).2 in
          match sales_csv dir with
          | inl e => (inl e, self)
          | inr sales =>
              let self := (set_sales_df sales self).2 in
              match inventory_csv dir with
              | inl e => (inl e, self)
              | inr inventory => (inr (), (set_inventory_df inventory self).2)
              end
          end
      end
  end.

(** What a written file holds: the whole of [processed_data] (an empty dict
    when no bundle is stored), or one of its entries. *)
Inductive Payload :=
  | Metrics (d : option MetricsBundle)
  | RevenueByRegion (v : list (string * RegionRow))
  | TopProducts (v : list TopProduct)
  | CategoryPerformance (v : list (string * CategoryRow))
  | CustomerSummaryOf (v : CustomerSummary)
  | AgeGroups (v : list (AgeGroup * AgeGroupRow))
  | InventoryRisks (v : InventoryInsights)
  | MonthlyTrends (v : list MonthRow)
  | BusinessInsights (v : list Insight).

(** A file written under [output_dir]: its name and what it holds. *)
Definition File : Type := string * Payload.

(** Lines 327-336: the endpoints, in the order of the dict. *)
Definition endpoints_data (d : MetricsBundle) : list File :=
  [ ("revenue_by_region.json", RevenueByRegion (revenue_by_region d));
    ("top_products.json", TopProducts (top_products d));
    ("category_performance.json", CategoryPerformance (category_performance d));
    ("customer_summary.json", CustomerSummaryOf (customer_metrics_summary d));
    ("age_groups.json", AgeGroups (age_group_analysis d));
    ("inventory_risks.json", InventoryRisks (inventory_insights d));
    ("monthly_trends.json", MonthlyTrends (monthly_trends d));
    ("business_insights.json", BusinessInsights (business_insights d)) ].

(** Lines 316-342.  metrics.json is written first; the dict of line 327
    then looks the entries up, and raises [KeyError] on the first one when
    [processed_data] is still the empty dict. *)
Definition export_data (self : RetailETLPipeline) : (io_exn + unit) * list File :=
  let metrics : File := ("metrics.json", Metrics (processed_data self)) in
  match processed_data self with
  | None => (inl (KeyError "revenue_by_region"), [metrics])
  | Some d => (inr (), metrics :: endpoints_data d)
  end.

(** The five lines of the summary, lines 357-361. *)
Record Summary := {
  summary_total_revenue : Q;
  summary_total_customers : nat;
  summary_products_at_risk : nat;
  summary_churn_rate : option Q;
  summary_insights : nat
}.

Definition summary_of (d : MetricsBundle) : Summary :=
  {| summary_total_revenue :=
       foldl Qplus 0%Q ((rr_total_revenue ∘ snd) <$> revenue_by_region d);
     summary_total_customers := total_customers (customer_metrics_summary d);
     summary_products_at_risk := total_products_at_risk (inventory_insights d);
     summary_churn_rate := churn_rate (customer_metrics_summary d);
     summary_insights := length (business_insights d) |}.

(** Lines 344-361: the four methods in sequence, then the summary.  The
    result is what is printed, the object as it is left, and the files
    written. *)
Definition run_pipeline (dir : DataDir) (rt : Runtime) (today : string) (now : Z)
    (self : RetailETLPipeline)
  : (io_exn + Summary) * RetailETLPipeline * list File :=
  match load_data dir self with
  | (inl e, self) => (inl e, self, [])
  | (inr _, self) =>
      match clean_data rt today self with
      | (inl e, self) => (inl (Raised e), self, [])
      | (inr _, self) =>
          match generate_metrics rt now self with
          | (inl e, self) => (inl (Raised e), self, [])
          | (inr _, self) =>
              match export_data self with
              | (inl e, files) => (inl e, self, files)
              | (inr _, files) =>
                  match processed_data self with
                  | Some d => (inr (summary_of d), self, files)
                  | None => (inl (KeyError "revenue_by_region"), self, files)
                  end
              end
          end
      end
  end.


(** ** More quantities the properties speak of *)

(** [r] is the first row of [df] with its key. *)
Definition first_of {A} (key : A → Z) (df : list A) (r : A) : Prop :=
  ∃ i, df !! i = Some r ∧
       ∀ j r', (j < i)%nat → df !! j = Some r' → key r' ≠ key r.

(** The bounds of the bins of [pd.cut], line 185. *)
Definition band_lower (g : AgeGroup) : Q :=
  match g with
  | G18_25 => 0 | G26_35 => 25 | G36_50 => 35 | G51_65 => 50 | G65plus => 65
  end.
Definition band_upper (g : AgeGroup) : Q :=
  match g with
  | G18_25 => 25 | G26_35 => 35 | G36_50 => 50 | G51_65 => 65 | G65plus => 100
  end.

(** The five insights in the order of the rules. *)
Definition rule_order : list Insight :=
  [ regional_performance_leader; category_dominance;
    high_value_customer_segment; inventory_risk_alert;
    customer_retention_concern ].

(** The sales frame with the [year_month] column of line 209. *)
Definition with_year_month (rt : Runtime) (sales : list Sale) : list Sale :=
  (λ s, s_assign_year_month (Some (to_period_M rt (date_ns s))) s) <$> sales.

(** ** Cases for the further properties *)

Module Cases.

(** Customer 1 comes twice, under age first; customer 3 has no age. *)
Definition repeated : RetailETLPipeline :=
  loaded [Examples.customer 1 17 "North"; Examples.customer 1 30 "North";
          Examples.customer 2 40 "South";
          {| c_id := 3; c_name := Some "Bea"; c_age := None;
             c_region := Some "South"; c_created_at := "2023-05-03" |}]
         [Examples.product 11 "Atlas" "Books" 20]
         [Examples.sale 100 1 11 "2024-05-10" 1 20;
          Examples.sale 101 2 11 "2024-05-11" 1 20]
         [].

(** No customer has an age. *)
Definition ageless : RetailETLPipeline :=
  loaded [ {| c_id := 1; c_name := Some "Ada"; c_age := None;
              c_region := Some "North"; c_created_at := "2023-05-01" |} ]
         [Examples.product 11 "Atlas" "Books" 20]
         [Examples.sale 100 1 11 "2024-05-10" 1 20]
         [].

(** The first sale has a date the parser refuses; the second one too, but
    it refers to no customer. *)
Definition undated : RetailETLPipeline :=
  loaded [Examples.customer 1 30 "North"]
         [Examples.product 11 "Atlas" "Books" 20]
         [Examples.sale 100 1 11 "yesterday" 1 20;
          Examples.sale 101 7 11 "tomorrow" 1 20]
         [].

(** As [undated], without the first sale. *)
Definition undated_orphan : RetailETLPipeline :=
  loaded [Examples.customer 1 30 "North"]
         [Examples.product 11 "Atlas" "Books" 20]
         [Examples.sale 101 7 11 "tomorrow" 1 20;
          Examples.sale 102 1 11 "2024-05-12" 1 20]
         [].

(** Three customers, the third without an age. *)
Definition gap : list Customer :=
  [Examples.customer 1 30 "North"; Examples.customer 2 40 "South";
   {| c_id := 3; c_name := Some "Bea"; c_age := None;
      c_region := Some "South"; c_created_at := "2023-05-03" |}].

(** A data directory with the tables of [Examples.tie]. *)
Definition tie_dir : DataDir :=
  {| customers_csv := inr [Examples.customer 1 30 "North"];
     products_csv :=
       inr [Examples.product 11 "Atlas" "Books" 20;
            Examples.product 12 "Bible" "Books" 20];
     sales_csv :=
       inr [Examples.sale 100 1 11 "2024-05-10" 1 20;
            Examples.sale 101 1 12 "2024-05-11" 1 20];
     inventory_csv := inr [] |}.

(** The same directory without sales.csv. *)
Definition no_sales_file : DataDir :=
  {| customers_csv := customers_csv tie_dir;
     products_csv := products_csv tie_dir;
     sales_csv := inl (FileNotFoundError "../data/sales.csv");
     inventory_csv := inventory_csv tie_dir |}.


End Cases.

(** ** generate_data.py: the customers and products tables

    The script that writes the csv files the pipeline loads.  What its
    random sources ([numpy.random], [Faker]) return at an iteration of a
    loop is an argument, the iteration number its index. *)

Module Generate.
Local Open Scope string_scope.

Definition NUM_CUSTOMERS : nat := 1000.
Definition NUM_PRODUCTS : nat := 200.

Definition REGIONS : list string :=
  ["North"; "South"; "East"; "West"; "Central"].
Definition CATEGORIES : list string :=
  ["Electronics"; "Fashion"; "Home & Garden"; "Sports"; "Beauty"; "Books";
   "Automotive"].
Definition SUPPLIERS : list string :=
  ["TechCorp"; "FashionPlus"; "HomeBase"; "SportZone"; "BeautyWorld";
   "BookLand"; "AutoParts"].

(** [int(x)] on a float: towards zero. *)
Definition int (x : Q) : Z := if Qle_bool 0 x then Qfloor x else Qceiling x.

(** The draws of one iteration of [generate_customers], lines 35-38. *)
Record CustomerDraw := {
  fake_name : string;
  normal_40_15 : Q;
  choice_REGIONS : string;
  customer_created_at : string
}.

(** Lines 28-44. *)
Definition generate_customers (draw : nat → CustomerDraw) : list Customer :=
  (λ i,
     let age := normal_40_15 (draw i) in
     let age := Z.max 18 (Z.min 80 (int age)) in
     {| c_id := Z.of_nat i; c_name := Some (fake_name (draw i));
        c_age := Some (inject_Z age);
        c_region := Some (choice_REGIONS (draw i));
        c_created_at := customer_created_at (draw i) |})
    <$> seq 1 NUM_CUSTOMERS.

(** Lines 54-62. *)
Definition price_ranges : gmap string (Q * Q) :=
  list_to_map
    [ ("Electronics", (50, 2000)%Q); ("Fashion", (20, 500)%Q);
      ("Home & Garden", (15, 800)%Q); ("Sports", (25, 600)%Q);
      ("Beauty", (10, 200)%Q); ("Books", (8, 50)%Q);
      ("Automotive", (30, 1500)%Q) ].

(** The draws of one iteration of [generate_products], lines 51-72;
    [uniform] is applied to the bounds the code passes. *)
Record ProductDraw := {
  choice_CATEGORIES : string;
  uniform : Q → Q → Q;
  choice_SUPPLIERS : string;
  product_created_at : string
}.

(** Lines 51-74: one product; [None] is the [KeyError] of line 64. *)
Definition generate_product (i : nat) (d : ProductDraw) : option Product :=
  let category := choice_CATEGORIES d in
  '(min_price, max_price) ← price_ranges !! category;
  Some {| p_id := Z.of_nat i;
          p_name := Some (category +:+ " Product " +:+ pretty i);
          p_category := Some category;
          p_price := Some (round2 (uniform d min_price max_price));
          p_supplier := Some (choice_SUPPLIERS d);
          p_created_at := product_created_at d |}.

(** Lines 46-76. *)
Definition generate_products (draw : nat → ProductDraw) : option (list Product) :=
  mapM (λ i, generate_product i (draw i)) (seq 1 NUM_PRODUCTS).

(** What the code may expect of its random sources: [choice] returns an
    element of the list, [uniform] a number between its bounds. *)
Definition product_draw_ok (d : ProductDraw) : Prop :=
  choice_CATEGORIES d ∈ CATEGORIES ∧
  ∀ low high : Q, (low <= high)%Q →
    (low <= uniform d low high)%Q ∧ (uniform d low high <= high)%Q.

End Generate.

Module GenerateCases.
Local Open Scope string_scope.

(** Draws that sit on the lower bound. *)
Definition cheapest (i : nat) : Generate.ProductDraw :=
  {| Generate.choice_CATEGORIES := "Books";
     Generate.uniform := λ low _, low;
     Generate.choice_SUPPLIERS := "BookLand";
     Generate.product_created_at := "2024-01-01" |}.

End GenerateCases.

(** * Properties *)

Local Close Scope string_scope.

(* stdpp's solvers clear hypotheses that may already be gone. *)
#[local] Set Warnings "-clear-no-such-hyp".

(** Run a method: unfold it down to the state it is applied to. *)
Ltac run_method m := unfold m, mbind, M_bind, get_self.

(** Facts about cleaned tables, for [auto]. *)
Create HintDb cleaning.

(** ** Lists and masks *)

Lemma elem_of_mask {A} (m : A → bool) (df : list A) (r : A) :
  r ∈ List.filter m df ↔ r ∈ df ∧ m r = true.
Proof. rewrite !list_elem_of_In. apply filter_In. Qed.

Lemma mask_all {A} (m : A → bool) (df : list A) :
  Forall (λ r, m r = true) df → List.filter m df = df.
Proof.
  induction 1 as [|r df Hr _ IH]; simpl; [done|].
  by rewrite Hr, IH.
Qed.

Lemma mask_sublist {A} (m : A → bool) (df : list A) :
  List.filter m df `sublist_of` df.
Proof.
  induction df as [|r df IH]; simpl; [done|].
  destruct (m r); by constructor.
Qed.

Lemma fmap_fixed {A} (f : A → A) (df : list A) :
  Forall (λ r, f r = r) df → f <$> df = df.
Proof. induction 1 as [|r df Hr _ IH]; csimpl; [done|]. by rewrite Hr, IH. Qed.

(** ** drop_duplicates *)

Lemma drop_duplicates_seen_sublist {A} (key : A → Z) seen (df : list A) :
  drop_duplicates_seen key seen df `sublist_of` df.
Proof.
  revert seen. induction df as [|r df IH]; intros seen; simpl; [done|].
  case_decide; by constructor.
Qed.

Lemma drop_duplicates_seen_NoDup {A} (key : A → Z) seen (df : list A) :
  NoDup (key <$> drop_duplicates_seen key seen df) ∧
  ∀ r, r ∈ drop_duplicates_seen key seen df → key r ∉ seen.
Proof.
  revert seen. induction df as [|r df IH]; intros seen; simpl.
  - split; [constructor|]. intros r Hr. by apply elem_of_nil in Hr.
  - case_decide as Hin; [apply IH|].
    destruct (IH ({[key r]} ∪ seen)) as [IH1 IH2]. split.
    + simpl. constructor; [|done].
      intros (r' & Heq & Hr')%list_elem_of_fmap.
      apply IH2 in Hr'. set_solver.
    + intros r' [->|Hr']%elem_of_cons; [done|].
      apply IH2 in Hr'. set_solver.
Qed.

Lemma drop_duplicates_seen_fixed {A} (key : A → Z) seen (df : list A) :
  NoDup (key <$> df) → (∀ r, r ∈ df → key r ∉ seen) →
  drop_duplicates_seen key seen df = df.
Proof.
  revert seen. induction df as [|r df IH]; intros seen Hnd Hseen; simpl; [done|].
  simpl in Hnd. apply NoDup_cons in Hnd as [Hr Hnd].
  case_decide as Hin.
  - exfalso. eapply Hseen; [left|done].
  - f_equal. apply IH; [done|]. intros r' Hr'.
    assert (key r' ≠ key r).
    { intros Heq. apply Hr. rewrite <- Heq. apply list_elem_of_fmap. eauto. }
    assert (key r' ∉ seen) by (apply Hseen; by right).
    set_solver.
Qed.

Lemma drop_duplicates_NoDup {A} (key : A → Z) (df : list A) :
  NoDup (key <$> drop_duplicates key df).
Proof. apply drop_duplicates_seen_NoDup. Qed.

Lemma drop_duplicates_fixed {A} (key : A → Z) (df : list A) :
  NoDup (key <$> df) → drop_duplicates key df = df.
Proof. intros. apply drop_duplicates_seen_fixed; [done|]. set_solver. Qed.

Lemma drop_duplicates_sublist {A} (key : A → Z) (df : list A) :
  drop_duplicates key df `sublist_of` df.
Proof. apply drop_duplicates_seen_sublist. Qed.

Lemma NoDup_key_sublist {A} (key : A → Z) (df df' : list A) :
  df' `sublist_of` df → NoDup (key <$> df) → NoDup (key <$> df').
Proof.
  intros Hsub Hnd. eapply sublist_NoDup; [done|]. by apply fmap_sublist.
Qed.

Lemma NoDup_key_inj {A} (key : A → Z) (df : list A) (r r' : A) :
  NoDup (key <$> df) → r ∈ df → r' ∈ df → key r = key r' → r = r'.
Proof.
  induction df as [|x df IH]; simpl; intros Hnd Hr Hr' Heq.
  - by apply elem_of_nil in Hr.
  - apply NoDup_cons in Hnd as [Hx Hnd].
    apply elem_of_cons in Hr as [->|Hr]; apply elem_of_cons in Hr' as [->|Hr'].
    + done.
    + exfalso. apply Hx. rewrite Heq. apply list_elem_of_fmap. eauto.
    + exfalso. apply Hx. rewrite <- Heq. apply list_elem_of_fmap. eauto.
    + by apply IH.
Qed.

(** ** Comparisons *)

Lemma Qleb_le x y : Qleb x y = true ↔ (x <= y)%Q.
Proof. apply Qle_bool_iff. Qed.

Lemma Qgeb_le x y : Qgeb x y = true ↔ (y <= x)%Q.
Proof. apply Qle_bool_iff. Qed.

Lemma Qgtb_lt x y : Qgtb x y = true ↔ (y < x)%Q.
Proof.
  unfold Qgtb. rewrite negb_true_iff, <- not_true_iff_false, Qle_bool_iff.
  split; [apply Qnot_le_lt|apply Qlt_not_le].
Qed.

Lemma Qltb_lt x y : Qltb x y = true ↔ (x < y)%Q.
Proof. apply Qgtb_lt. Qed.

Lemma cell_cmp_true op x k :
  cell_cmp op x k = true ↔ ∃ v, x = Some v ∧ op v k = true.
Proof. destruct x; simpl; naive_solver. Qed.

(** ** The cleaning rules, table by table *)

Lemma clean_customers_unique df : NoDup (c_id <$> clean_customers df).
Proof.
  unfold clean_customers.
  eapply NoDup_key_sublist; [apply mask_sublist|].
  rewrite <- !list_fmap_compose.
  apply (drop_duplicates_NoDup c_id).
Qed.

Lemma clean_customers_ok df : Forall customer_ok (clean_customers df).
Proof.
  apply Forall_forall. intros c Hc. unfold clean_customers in Hc.
  apply elem_of_mask in Hc as [Hc Hage].
  apply andb_true_iff in Hage as [Hlo Hhi].
  apply cell_cmp_true in Hlo as (age & Hage & Hlo%Qgeb_le).
  apply cell_cmp_true in Hhi as (age' & Hage' & Hhi%Qleb_le).
  assert (age' = age) as -> by congruence.
  apply list_elem_of_fmap in Hc as (c1 & -> & Hc).
  apply list_elem_of_fmap in Hc as (c2 & -> & Hc).
  apply list_elem_of_fmap in Hc as (c3 & -> & _).
  unfold customer_ok; simpl in *.
  split; [destruct (c_name c3); simpl; eauto|].
  split; [destruct (c_region c3); simpl; eauto|]. eauto.
Qed.

Lemma clean_customers_fixed df :
  NoDup (c_id <$> df) → Forall customer_ok df → clean_customers df = df.
Proof.
  intros Hnd Hok. unfold clean_customers.
  rewrite drop_duplicates_fixed by done.
  rewrite (fmap_fixed (c_assign_name _) df); cycle 1.
  { eapply Forall_impl; [done|]. intros [] ([] & _); by simplify_eq/=. }
  rewrite (fmap_fixed (c_assign_age _) df); cycle 1.
  { eapply Forall_impl; [done|]. intros [] (_ & _ & ? & ? & _); by simplify_eq/=. }
  rewrite (fmap_fixed (c_assign_region _) df); cycle 1.
  { eapply Forall_impl; [done|]. intros [] (_ & [] & _); by simplify_eq/=. }
  apply mask_all. eapply Forall_impl; [done|].
  intros c (_ & _ & age & -> & Hlo & Hhi). simpl.
  apply andb_true_iff. by rewrite Qgeb_le, Qleb_le.
Qed.

Lemma clean_products_unique df : NoDup (p_id <$> clean_products df).
Proof.
  unfold clean_products.
  eapply NoDup_key_sublist; [apply mask_sublist|].
  rewrite <- !list_fmap_compose.
  apply (drop_duplicates_NoDup p_id).
Qed.

Lemma clean_products_ok df : Forall product_ok (clean_products df).
Proof.
  apply Forall_forall. intros p Hp. unfold clean_products in Hp.
  apply elem_of_mask in Hp as [Hp Hprice].
  apply andb_true_iff in Hprice as [Hlo Hhi].
  apply cell_cmp_true in Hlo as (price & Hprice & Hlo%Qgtb_lt).
  apply cell_cmp_true in Hhi as (price' & Hprice' & Hhi%Qleb_le).
  assert (price' = price) as -> by congruence.
  apply list_elem_of_fmap in Hp as (p1 & -> & Hp).
  apply list_elem_of_fmap in Hp as (p2 & -> & Hp).
  apply list_elem_of_fmap in Hp as (p3 & -> & _).
  unfold product_ok; simpl in *.
  split; [destruct (p_name p3); simpl; eauto|].
  split; [destruct (p_category p3); simpl; eauto|].
  split; [destruct (p_supplier p3); simpl; eauto|]. eauto.
Qed.

Lemma clean_products_fixed df :
  NoDup (p_id <$> df) → Forall product_ok df → clean_products df = df.
Proof.
  intros Hnd Hok. unfold clean_products.
  rewrite drop_duplicates_fixed by done.
  rewrite (fmap_fixed (p_assign_name _) df); cycle 1.
  { eapply Forall_impl; [done|]. intros [] ([] & _); by simplify_eq/=. }
  rewrite (fmap_fixed (p_assign_category _) df); cycle 1.
  { eapply Forall_impl; [done|]. intros [] (_ & [] & _); by simplify_eq/=. }
  rewrite (fmap_fixed (p_assign_supplier _) df); cycle 1.
  { eapply Forall_impl; [done|]. intros [] (_ & _ & [] & _); by simplify_eq/=. }
  apply mask_all. eapply Forall_impl; [done|].
  intros p (_ & _ & _ & price & -> & Hlo & Hhi). simpl.
  apply andb_true_iff. by rewrite Qgtb_lt, Qleb_le.
Qed.

Lemma isin_list x (l : list Z) : isin x (list_to_set l) = true ↔ x ∈ l.
Proof. unfold isin. by rewrite bool_decide_eq_true, elem_of_list_to_set. Qed.

Lemma clean_sales_unique customers products df :
  NoDup (s_id <$> clean_sales customers products df).
Proof.
  unfold clean_sales.
  do 2 (eapply NoDup_key_sublist; [apply mask_sublist|]).
  rewrite <- list_fmap_compose.
  eapply (NoDup_key_sublist s_id); [apply mask_sublist|].
  apply drop_duplicates_NoDup.
Qed.

Lemma clean_sales_row customers products df s :
  s ∈ clean_sales customers products df →
  s_customer_id s ∈ c_id <$> customers ∧ s_product_id s ∈ p_id <$> products ∧
  (∃ quantity, s_quantity s = Some quantity ∧ (0 < quantity)%Q) ∧
  (∃ total_amount, s_total_amount s = Some total_amount ∧ (0 < total_amount)%Q).
Proof.
  unfold clean_sales. intros Hs.
  apply elem_of_mask in Hs as [Hs (t & Ht & Ht0%Qgtb_lt)%cell_cmp_true].
  apply elem_of_mask in Hs as [Hs (q & Hq & Hq0%Qgtb_lt)%cell_cmp_true].
  apply list_elem_of_fmap in Hs as (s1 & -> & Hs).
  apply elem_of_mask in Hs as [_ [Hc%isin_list Hp%isin_list]%andb_true_iff].
  simpl in *. eauto 10.
Qed.

Lemma clean_sales_fixed customers products df :
  NoDup (s_id <$> df) → Forall sale_ok df →
  (∀ s, s ∈ df → s_customer_id s ∈ c_id <$> customers) →
  (∀ s, s ∈ df → s_product_id s ∈ p_id <$> products) →
  clean_sales customers products df = df.
Proof.
  intros Hnd Hok Hc Hp. unfold clean_sales.
  rewrite drop_duplicates_fixed by done.
  rewrite (mask_all _ df); cycle 1.
  { apply Forall_forall. intros s Hs. apply andb_true_iff.
    rewrite !isin_list. auto. }
  rewrite (fmap_fixed (s_assign_quantity _) df); cycle 1.
  { eapply Forall_impl; [done|]. intros [] ((? & ? & _) & _); by simplify_eq/=. }
  rewrite (mask_all _ df); cycle 1.
  { eapply Forall_impl; [done|]. intros s ((q & -> & Hq) & _). by apply Qgtb_lt. }
  apply mask_all. eapply Forall_impl; [done|].
  intros s (_ & (t & -> & Ht) & _). by apply Qgtb_lt.
Qed.

Lemma to_datetime_row_spec rt s s' :
  to_datetime_row rt s = Some s' →
  s_id s' = s_id s ∧ s_customer_id s' = s_customer_id s ∧
  s_product_id s' = s_product_id s ∧ s_quantity s' = s_quantity s ∧
  s_total_amount s' = s_total_amount s ∧ is_timestamp s' = true.
Proof.
  unfold to_datetime_row, is_timestamp. destruct (s_date s) eqn:Hd; simpl.
  - destruct (to_datetime rt s0); simpl; [|done]. by intros [= <-].
  - intros [= <-]. by rewrite Hd.
Qed.

Lemma to_datetime_fixed rt df :
  Forall (λ s, is_timestamp s = true) df → mapM (to_datetime_row rt) df = Some df.
Proof.
  intros H. apply mapM_Some. induction H as [|s df Hs _ IH]; constructor; [|done].
  unfold to_datetime_row, is_timestamp in *. by destruct (s_date s).
Qed.

Lemma concat_loop {A B} (f : B → A) (df : list A) (l : list B) :
  foldl (λ df x, df ++ [f x]) df l = df ++ (f <$> l).
Proof.
  revert df. induction l as [|x l IH]; intros df; simpl.
  - by rewrite app_nil_r.
  - rewrite IH. by rewrite <- app_assoc.
Qed.

Lemma clean_inventory_eq today products df :
  clean_inventory today products df =
  (repair_inventory <$> df) ++
  (repair_inventory ∘ new_record today <$>
     elements (list_to_set (p_id <$> products) ∖ list_to_set (i_product_id <$> df) : gset Z)).
Proof.
  unfold clean_inventory. rewrite concat_loop.
  rewrite <- list_fmap_compose, fmap_app. f_equal.
  by rewrite <- list_fmap_compose.
Qed.

Lemma Qltb_ge x y : Qltb x y = false ↔ (y <= x)%Q.
Proof. unfold Qltb. by rewrite negb_false_iff, Qle_bool_iff. Qed.

Lemma repair_inventory_ok i : inventory_ok (repair_inventory i).
Proof.
  unfold inventory_ok, repair_inventory; simpl. split.
  - destruct (i_current_stock i) as [v|]; simpl; [|done].
    intros stock [= <-]. destruct (Qltb v 0) eqn:Hv; [apply Qle_refl|].
    by apply Qltb_ge.
  - destruct (i_turnover_rate i); simpl; eauto.
Qed.

Lemma repair_inventory_fixed i : inventory_ok i → repair_inventory i = i.
Proof.
  destruct i as [? ? stock ? ? rate ?].
  unfold inventory_ok, repair_inventory, i_assign_turnover_rate,
    i_assign_current_stock.
  simpl. intros [Hstock [r ->]]. simpl. f_equal.
  destruct stock as [v|]; simpl; [|done].
  specialize (Hstock v eq_refl). apply Qltb_ge in Hstock. by rewrite Hstock.
Qed.

Lemma clean_inventory_ok today products df :
  Forall inventory_ok (clean_inventory today products df).
Proof.
  rewrite clean_inventory_eq. apply Forall_app. split; apply Forall_fmap, Forall_true.
  - apply repair_inventory_ok.
  - intros x. apply repair_inventory_ok.
Qed.

Lemma clean_inventory_product_ids today products df :
  i_product_id <$> clean_inventory today products df =
  (i_product_id <$> df) ++
  elements (list_to_set (p_id <$> products) ∖ list_to_set (i_product_id <$> df) : gset Z).
Proof.
  rewrite clean_inventory_eq, fmap_app, <- !list_fmap_compose. f_equal.
  apply list_fmap_id.
Qed.

Lemma clean_inventory_covers today products df p :
  p ∈ products → p_id p ∈ i_product_id <$> clean_inventory today products df.
Proof.
  intros Hp. rewrite clean_inventory_product_ids, elem_of_app, elem_of_elements.
  destruct (decide (p_id p ∈ i_product_id <$> df)) as [|Hn]; [by left|right].
  apply elem_of_difference. split.
  - apply elem_of_list_to_set, list_elem_of_fmap. eauto.
  - by rewrite elem_of_list_to_set.
Qed.

Lemma clean_inventory_fixed today products df :
  Forall inventory_ok df →
  (∀ p, p ∈ products → p_id p ∈ i_product_id <$> df) →
  clean_inventory today products df = df.
Proof.
  intros Hok Hcov. rewrite clean_inventory_eq.
  assert (list_to_set (p_id <$> products) ∖ list_to_set (i_product_id <$> df)
          = (∅ : gset Z)) as ->.
  { apply set_eq. intros x. rewrite elem_of_difference, !elem_of_list_to_set.
    split; [|by intros ?%not_elem_of_empty].
    intros [(p & -> & Hp)%list_elem_of_fmap Hx]. destruct Hx. by apply Hcov. }
  rewrite elements_empty. simpl. rewrite app_nil_r.
  apply fmap_fixed. eapply Forall_impl; [done|]. apply repair_inventory_fixed.
Qed.

#[local] Hint Resolve clean_customers_unique clean_customers_ok
  clean_products_unique clean_products_ok clean_sales_unique
  clean_inventory_ok clean_inventory_covers : cleaning.

(** ** clean_data as a whole *)

Lemma clean_data_loaded rt (today : string) self customers products sales inventory :
  holds self customers products sales inventory →
  clean_data rt today self =
    let customers' := clean_customers customers in
    let products' := clean_products products in
    let sales' := clean_sales customers' products' sales in
    match mapM (to_datetime_row rt) sales' with
    | Some sales'' =>
        (inr (),
         {| customers_df := Some customers'; products_df := Some products';
            sales_df := Some sales'';
            inventory_df := Some (clean_inventory today products' inventory);
            processed_data := processed_data self |})
    | None =>
        (inl (ParserError "date"%string),
         {| customers_df := Some customers'; products_df := Some products';
            sales_df := Some sales'; inventory_df := Some inventory;
            processed_data := processed_data self |})
    end.
Proof.
  intros (Hc & Hp & Hs & Hi). run_method clean_data.
  rewrite Hc, Hp, Hs, Hi. simpl. rewrite Hi.
  destruct (mapM _ _); simpl; by rewrite ?Hi.
Qed.

Lemma clean_data_not_loaded rt (today : string) self :
  customers_df self = None ∨ products_df self = None ∨
  sales_df self = None ∨ inventory_df self = None →
  clean_data rt today self = (inl (ValueError not_loaded), self).
Proof.
  run_method clean_data.
  destruct (customers_df self), (products_df self), (sales_df self),
    (inventory_df self); naive_solver.
Qed.

Lemma clean_data_inv rt (today : string) self self' :
  clean_data rt today self = (inr (), self') →
  ∃ customers products sales inventory sales',
    holds self customers products sales inventory ∧
    mapM (to_datetime_row rt)
      (clean_sales (clean_customers customers) (clean_products products) sales)
      = Some sales' ∧
    self' = {| customers_df := Some (clean_customers customers);
               products_df := Some (clean_products products);
               sales_df := Some sales';
               inventory_df :=
                 Some (clean_inventory today (clean_products products) inventory);
               processed_data := processed_data self |}.
Proof.
  intros Hrun.
  destruct (customers_df self) as [customers|] eqn:Hc;
    [|rewrite clean_data_not_loaded in Hrun by auto; done].
  destruct (products_df self) as [products|] eqn:Hp;
    [|rewrite clean_data_not_loaded in Hrun by auto; done].
  destruct (sales_df self) as [sales|] eqn:Hs;
    [|rewrite clean_data_not_loaded in Hrun by auto; done].
  destruct (inventory_df self) as [inventory|] eqn:Hi;
    [|rewrite clean_data_not_loaded in Hrun by auto; done].
  rewrite (clean_data_loaded _ _ _ customers products sales inventory) in Hrun
    by done.
  simpl in Hrun.
  destruct (mapM _ _) as [sales'|] eqn:Hdates; [|done].
  injection Hrun as <-. by exists customers, products, sales, inventory, sales'.
Qed.

Lemma clean_data_returns rt (today : string) self self' :
  clean_data rt today self = (inr (), self') →
  ∃ customers products sales inventory,
    holds self' customers products sales inventory ∧
    cleaned customers products sales inventory ∧
    processed_data self' = processed_data self.
Proof.
  intros (customers & products & sales & inventory & sales'' & _ & Hdates & ->)
    %clean_data_inv.
  do 4 eexists. split; [done|]. split; [|done].
  apply mapM_Some in Hdates.
  assert (Hrows : ∀ s', s' ∈ sales'' →
    ∃ s, s ∈ clean_sales (clean_customers customers) (clean_products products) sales
         ∧ to_datetime_row rt s = Some s').
  { intros s' Hs'. apply list_elem_of_lookup in Hs' as [n Hn].
    destruct (Forall2_lookup_r _ _ _ _ _ Hdates Hn) as (s & Hl & Hrow).
    exists s. split; [|done]. apply list_elem_of_lookup. eauto. }
  split; auto with cleaning.
  - assert (s_id <$> sales'' = s_id <$> clean_sales (clean_customers customers)
                                   (clean_products products) sales) as ->.
    { clear Hrows. induction Hdates as [|s s' ? ? Hrow _ IH]; csimpl; [done|].
      apply to_datetime_row_spec in Hrow as (-> & _). by rewrite IH. }
    apply clean_sales_unique.
  - apply Forall_forall. intros s' (s & Hin & Hrow)%Hrows.
    apply clean_sales_row in Hin as (_ & _ & Hq & Ht).
    apply to_datetime_row_spec in Hrow as (_ & _ & _ & Hq' & Ht' & Hts).
    unfold sale_ok. by rewrite Hq', Ht'.
  - intros s' (s & Hin & Hrow)%Hrows.
    apply clean_sales_row in Hin as (Hin & _).
    apply to_datetime_row_spec in Hrow as (_ & -> & _). done.
  - intros s' (s & Hin & Hrow)%Hrows.
    apply clean_sales_row in Hin as (_ & Hin & _).
    apply to_datetime_row_spec in Hrow as (_ & _ & -> & _). done.
Qed.

Lemma clean_data_cleaned rt self customers products sales inventory :
  holds self customers products sales inventory →
  cleaned customers products sales inventory →
  ∀ today' : string, clean_data rt today' self = (inr (), self).
Proof.
  intros Hh [] today'. rewrite (clean_data_loaded _ _ _ _ _ _ _ Hh). simpl.
  rewrite (clean_customers_fixed customers), (clean_products_fixed products)
    by done.
  rewrite clean_sales_fixed by done.
  rewrite to_datetime_fixed; cycle 1.
  { eapply Forall_impl; [done|]. by intros s (_ & _ & ?). }
  rewrite clean_inventory_fixed by done.
  destruct Hh as (? & ? & ? & ?). destruct self; simpl in *. by subst.
Qed.

(** ** Rows of cleaned tables *)

Section cleaned_rows.
Context {customers : list Customer} {products : list Product}
        {sales : list Sale} {inventory : list Inventory}.
Hypothesis Hcl : cleaned customers products sales inventory.

Lemma cleaned_customer c : c ∈ customers → customer_ok c.
Proof. apply Forall_forall, Hcl. Qed.

Lemma cleaned_product p : p ∈ products → product_ok p.
Proof. apply Forall_forall, Hcl. Qed.

Lemma cleaned_sale s : s ∈ sales → sale_ok s.
Proof. apply Forall_forall, Hcl. Qed.

Lemma cleaned_timestamps : forallb is_timestamp sales = true.
Proof.
  apply forallb_forall. intros s Hs%list_elem_of_In.
  by destruct (cleaned_sale s Hs) as (_ & _ & ?).
Qed.

End cleaned_rows.

(** ** Joins *)

Lemma mask_none {A} (m : A → bool) (df : list A) :
  Forall (λ r, m r = false) df → List.filter m df = [].
Proof. induction 1 as [|r df Hr _ IH]; simpl; [done|]. by rewrite Hr. Qed.

Lemma merge_cons {A B} (left_on : A → Z) (right_on : B → Z) l left right :
  merge left_on right_on (l :: left) right =
  ((λ r, (l, r)) <$> List.filter (λ r, bool_decide (right_on r = left_on l)) right)
    ++ merge left_on right_on left right.
Proof. done. Qed.

Lemma merge_unmatched {A B} (left_on : A → Z) (right_on : B → Z) l right :
  left_on l ∉ right_on <$> right →
  List.filter (λ r, bool_decide (right_on r = left_on l)) right = [].
Proof.
  intros Hl. apply mask_none, Forall_forall. intros r Hr.
  apply bool_decide_eq_false. intros Heq. apply Hl. rewrite <- Heq.
  by apply list_elem_of_fmap_2.
Qed.

(** Rows of the left frame without a match take no part in the join. *)
Lemma merge_matched_only {A B} (left_on : A → Z) (right_on : B → Z) left right :
  merge left_on right_on
    (List.filter (λ l, isin (left_on l) (list_to_set (right_on <$> right))) left)
    right
  = merge left_on right_on left right.
Proof.
  induction left as [|l left IH]; [done|]. simpl List.filter.
  destruct (isin _ _) eqn:Hl.
  - by rewrite !merge_cons, IH.
  - rewrite merge_cons, IH, merge_unmatched; [done|].
    intros Hin%isin_list. congruence.
Qed.

Lemma merge_left_key {A B} (left_on : A → Z) (right_on : B → Z) left right l r :
  (l, r) ∈ merge left_on right_on left right ↔
  l ∈ left ∧ r ∈ right ∧ right_on r = left_on l.
Proof.
  unfold merge. rewrite list_elem_of_bind. split.
  - intros (l' & Hin & Hl'). apply list_elem_of_fmap in Hin as (r' & [= -> ->] & Hr).
    apply elem_of_mask in Hr as [Hr Heq%bool_decide_eq_true]. done.
  - intros (Hl & Hr & Heq). exists l. split; [|done].
    apply list_elem_of_fmap. exists r. split; [done|].
    apply elem_of_mask. split; [done|]. by apply bool_decide_eq_true.
Qed.

(** When the keys of the right frame are unique and every left key has a
    match, the join keeps the left frame as it is. *)
Lemma merge_total {A B} (left_on : A → Z) (right_on : B → Z) left right :
  NoDup (right_on <$> right) →
  (∀ l, l ∈ left → left_on l ∈ right_on <$> right) →
  fst <$> merge left_on right_on left right = left.
Proof.
  intros Hnd Hall. induction left as [|l left IH]; [done|].
  rewrite merge_cons, fmap_app, IH by (intros; apply Hall; by right).
  assert (∃ r, List.filter (λ r, bool_decide (right_on r = left_on l)) right = [r])
    as [r ->]; [|done].
  specialize (Hall l (list_elem_of_here _ _)). clear IH.
  induction right as [|r right IH]; [by apply elem_of_nil in Hall|].
  csimpl in *. apply NoDup_cons in Hnd as [Hr Hnd]. case_bool_decide as Heq.
  - exists r. f_equal. apply merge_unmatched. by rewrite <- Heq.
  - apply IH; [done|]. apply elem_of_cons in Hall as [?|?]; [congruence|done].
Qed.

(** ** Stages called on an object without its tables *)

Lemma generate_metrics_not_loaded rt (now : Z) self :
  customers_df self = None ∨ products_df self = None ∨
  sales_df self = None ∨ inventory_df self = None →
  generate_metrics rt now self = (inl (ValueError not_cleaned), self).
Proof.
  run_method generate_metrics.
  destruct (customers_df self), (products_df self), (sales_df self),
    (inventory_df self); naive_solver.
Qed.

(** C9.  When one of the four tables is absent, [clean_data] raises the
    [ValueError] of its guard and leaves the object as it was, table by
    table; so does [generate_metrics], which then stores no bundle; and the
    two stages run in sequence stop at the first guard. *)
Theorem missing_table_aborts rt (today : string) (now : Z) self :
  customers_df self = None ∨ products_df self = None ∨
  sales_df self = None ∨ inventory_df self = None →
  clean_data rt today self = (inl (ValueError not_loaded), self) ∧
  generate_metrics rt now self = (inl (ValueError not_cleaned), self) ∧
  run_stages rt today now self = (inl (ValueError not_loaded), self).
Proof.
  intros Hmissing. split_and!.
  - by apply clean_data_not_loaded.
  - by apply generate_metrics_not_loaded.
  - run_method run_stages.
    by rewrite clean_data_not_loaded.
Qed.

Lemma missing_table_aborts_witness :
  clean_data Iso.runtime Scenario.today init = (inl (ValueError not_loaded), init) ∧
  generate_metrics Iso.runtime Scenario.now init
    = (inl (ValueError not_cleaned), init) ∧
  run_stages Iso.runtime Scenario.today Scenario.now init
    = (inl (ValueError not_loaded), init).
Proof.
  apply (missing_table_aborts Iso.runtime Scenario.today Scenario.now init).
  left. reflexivity.
Defined.

(** ** Referential closure *)

(** C1.  After [clean_data] has returned, every row of the sales table
    carries the id of a row of the customers table and the id of a row of
    the products table; the tables meant are the final ones, after the
    quantity fill, the two filters and the date conversion. *)
Theorem cleaned_sales_reference_cleaned_rows rt (today : string) self self' :
  clean_data rt today self = (inr (), self') →
  ∃ customers products sales inventory,
    holds self' customers products sales inventory ∧
    ∀ s, s ∈ sales →
      (∃ c, c ∈ customers ∧ c_id c = s_customer_id s) ∧
      (∃ p, p ∈ products ∧ p_id p = s_product_id s).
Proof.
  intros (customers & products & sales & inventory & Hh & Hcl & _)
    %clean_data_returns.
  exists customers, products, sales, inventory. split; [done|].
  intros s Hs. split.
  - apply (sales_customer _ _ _ _ Hcl) in Hs.
    apply list_elem_of_fmap in Hs as (c & ? & ?). eauto.
  - apply (sales_product _ _ _ _ Hcl) in Hs.
    apply list_elem_of_fmap in Hs as (p & ? & ?). eauto.
Qed.

Lemma cleaned_sales_reference_cleaned_rows_witness :
  ∃ customers products sales inventory,
    holds (clean_data Iso.runtime Scenario.today Scenario.pipeline).2
      customers products sales inventory ∧
    ∀ s, s ∈ sales →
      (∃ c, c ∈ customers ∧ c_id c = s_customer_id s) ∧
      (∃ p, p ∈ products ∧ p_id p = s_product_id s).
Proof.
  apply (cleaned_sales_reference_cleaned_rows Iso.runtime Scenario.today
           Scenario.pipeline).
  vm_compute. reflexivity.
Defined.

(** ** Cleaning twice *)

(** C5.  [clean_data] applied to the object it has produced returns and
    leaves that object as it is: the four tables are the same, row by row
    and cell by cell, whatever the day (and the date parser) of the second
    run. *)
Theorem clean_data_idempotent rt rt' (today today' : string) self self' :
  clean_data rt today self = (inr (), self') →
  clean_data rt' today' self' = (inr (), self').
Proof.
  intros (customers & products & sales & inventory & Hh & Hcl & _)
    %clean_data_returns.
  by eapply clean_data_cleaned.
Qed.

Lemma clean_data_idempotent_witness :
  clean_data Iso.runtime "2025-01-01"
    (clean_data Iso.runtime Scenario.today Scenario.pipeline).2
  = (inr (), (clean_data Iso.runtime Scenario.today Scenario.pipeline).2).
Proof.
  apply (clean_data_idempotent Iso.runtime Iso.runtime Scenario.today
           "2025-01-01" Scenario.pipeline).
  vm_compute. reflexivity.
Defined.

(** ** Inventory rows without a product *)

(** C10.  [clean_data] keeps every row of the inventory table it was
    given, in place and repaired (stock clamped at 0, missing turnover rate
    1.0), whether or not its product survived cleaning; the rows it adds
    come behind.  The low-stock list and the turnover per category are
    those of the rows whose product is in the cleaned products table: the
    other rows do not reach the join. *)
Theorem inventory_rows_survive rt (today : string) self self' :
  clean_data rt today self = (inr (), self') →
  ∃ inventory0 customers products sales inventory,
    inventory_df self = Some inventory0 ∧
    holds self' customers products sales inventory ∧
    (repair_inventory <$> inventory0) `prefix_of` inventory ∧
    Forall inventory_ok inventory ∧
    let referenced :=
      List.filter (λ i, isin (i_product_id i) (list_to_set (p_id <$> products)))
        inventory in
    low_stock_products_df inventory products
      = low_stock_products_df referenced products ∧
    turnover_analysis_df inventory products
      = turnover_analysis_df referenced products.
Proof.
  intros (customers & products & sales & inventory & sales' & Hh & _ & ->)
    %clean_data_inv.
  eexists inventory, _, _, _, _. split; [apply Hh|]. split; [done|].
  split; [|split].
  - rewrite clean_inventory_eq. by eexists.
  - apply clean_inventory_ok.
  - simpl. unfold low_stock_products_df, turnover_analysis_df,
      inventory_with_product.
    by rewrite merge_matched_only.
Qed.

Lemma inventory_rows_survive_witness :
  ∃ inventory0 customers products sales inventory,
    inventory_df Examples.orphan = Some inventory0 ∧
    holds (clean_data Iso.runtime Scenario.today Examples.orphan).2
      customers products sales inventory ∧
    (repair_inventory <$> inventory0) `prefix_of` inventory ∧
    Forall inventory_ok inventory ∧
    let referenced :=
      List.filter (λ i, isin (i_product_id i) (list_to_set (p_id <$> products)))
        inventory in
    low_stock_products_df inventory products
      = low_stock_products_df referenced products ∧
    turnover_analysis_df inventory products
      = turnover_analysis_df referenced products.
Proof.
  apply (inventory_rows_survive Iso.runtime Scenario.today Examples.orphan).
  vm_compute. reflexivity.
Defined.

(** ** Sums of rationals *)

Lemma Qsum_ext {A} (f g : A → Q) (l : list A) :
  (∀ x, x ∈ l → (f x == g x)%Q) → (Qsum (f <$> l) == Qsum (g <$> l))%Q.
Proof.
  induction l as [|x l IH]; intros Hfg; csimpl; [lra|].
  rewrite IH, (Hfg x) by (try intros; try apply Hfg; set_solver). lra.
Qed.

Lemma Qsum_plus {A} (f g : A → Q) (l : list A) :
  (Qsum ((λ x, f x + g x) <$> l) == Qsum (f <$> l) + Qsum (g <$> l))%Q.
Proof. induction l as [|x l IH]; csimpl; [lra|]. rewrite IH. lra. Qed.

Lemma Qsum_zero {A} (l : list A) : (Qsum ((λ _, 0) <$> l) == 0)%Q.
Proof. induction l as [|x l IH]; csimpl; [lra|]. rewrite IH. lra. Qed.

(** A key that occurs once in [ks] picks its term out of a sum over [ks]. *)
Lemma Qsum_pick `{EqDecision K} (ks : list K) (k0 : K) (x : Q) :
  NoDup ks → k0 ∈ ks →
  (Qsum ((λ k, if bool_decide (Some k0 = Some k) then x else 0) <$> ks) == x)%Q.
Proof.
  induction ks as [|k ks IH]; intros Hnd Hin; [by apply elem_of_nil in Hin|].
  apply NoDup_cons in Hnd as [Hk Hnd]. csimpl.
  case_bool_decide as Heq.
  - injection Heq as <-. rewrite (Qsum_ext _ (λ _, 0%Q)), Qsum_zero; [lra|].
    intros k Hkin. case_bool_decide as Heq'; [|lra]. congruence.
  - apply elem_of_cons in Hin as [->|Hin]; [done|]. rewrite IH by done. lra.
Qed.


(** ** groupby *)

Lemma sort_keys_perm `{GroupKey K} (ks : list K) : sort_keys ks ≡ₚ ks.
Proof. apply merge_sort_Permutation. Qed.

Lemma groupby_keys `{GroupKey K} {A} (key : A → option K) (df : list A) :
  fst <$> groupby key df = sort_keys (remove_dups (omap key df)).
Proof.
  unfold groupby. rewrite <- list_fmap_compose. apply list_fmap_id.
Qed.

Lemma groupby_keys_NoDup `{GroupKey K} {A} (key : A → option K) (df : list A) :
  NoDup (fst <$> groupby key df).
Proof.
  rewrite groupby_keys, sort_keys_perm. apply NoDup_remove_dups.
Qed.

Lemma elem_of_groupby_keys `{GroupKey K} {A} (key : A → option K) df k :
  k ∈ fst <$> groupby key df ↔ ∃ r, r ∈ df ∧ key r = Some k.
Proof.
  by rewrite groupby_keys, sort_keys_perm, elem_of_remove_dups, list_elem_of_omap.
Qed.

Lemma elem_of_groupby `{GroupKey K} {A} (key : A → option K) df k g :
  (k, g) ∈ groupby key df ↔
  (∃ r, r ∈ df ∧ key r = Some k) ∧
  g = List.filter (λ r, bool_decide (key r = Some k)) df.
Proof.
  rewrite <- elem_of_groupby_keys, groupby_keys. unfold groupby.
  rewrite list_elem_of_fmap. split.
  - by intros (k' & [= -> ->] & Hk).
  - intros [Hk ->]. eauto.
Qed.

(** The groups split the rows that have a key: a pointwise sum over the
    frame is the sum of the sums over the groups. *)
Lemma groupby_sum `{GroupKey K} {A} (key : A → option K) (v : A → Q) df :
  Forall (λ r, is_Some (key r)) df →
  (Qsum ((λ kg, Qsum (v <$> kg.2)) <$> groupby key df) == Qsum (v <$> df))%Q.
Proof.
  intros Hkeys. unfold groupby. rewrite <- list_fmap_compose.
  assert (Hnd : NoDup (sort_keys (remove_dups (omap key df))))
    by (rewrite sort_keys_perm; apply NoDup_remove_dups).
  assert (Hin : ∀ r, r ∈ df → ∃ k, key r = Some k ∧
                 k ∈ sort_keys (remove_dups (omap key df))).
  { intros r Hr. rewrite Forall_forall in Hkeys.
    destruct (Hkeys r Hr) as [k Hk]. exists k. split; [done|].
    rewrite sort_keys_perm, elem_of_remove_dups, list_elem_of_omap. eauto. }
  clear Hkeys. revert Hnd Hin. generalize (sort_keys (remove_dups (omap key df))).
  intros ks Hnd Hin. induction df as [|r df IH].
  - simpl. apply (Qsum_zero ks).
  - destruct (Hin r) as (k0 & Hk0 & Hk0in); [by left|].
    rewrite (Qsum_ext _ (λ k, (if bool_decide (Some k0 = Some k) then v r else 0)
                              + Qsum (v <$> List.filter
                                   (λ r, bool_decide (key r = Some k)) df))%Q).
    + rewrite Qsum_plus, Qsum_pick by done. csimpl.
      unfold compose in IH. simpl in IH. rewrite IH; [lra|].
      intros r' Hr'. apply Hin. by right.
    + intros k _. unfold compose. simpl. rewrite Hk0.
      case_bool_decide; csimpl; lra.
Qed.

(** ** Rounding *)



Lemma rint_nonneg x : (0 <= x)%Q → (0 <= rint x)%Z.
Proof.
  intros Hx. assert (0 <= Qfloor x)%Z.
  { change 0%Z with (Qfloor 0). by apply Qfloor_resp_le. }
  unfold rint. repeat case_match; lia.
Qed.

Lemma round2_nonneg x : (0 <= x)%Q → (0 <= round2 x)%Q.
Proof.
  intros Hx. unfold round2, Qdiv. change (/ 100)%Q with (1 # 100)%Q.
  assert (0 <= rint (x * 100))%Z as H by (apply rint_nonneg; lra).
  rewrite Zle_Qle in H. change (inject_Z 0) with 0%Q in H. lra.
Qed.

Lemma Qcount_S n : (Qcount (S n) == Qcount n + 1)%Q.
Proof.
  unfold Qcount. by rewrite Nat2Z.inj_succ, <- Z.add_1_r, inject_Z_plus.
Qed.


(** ** Revenue by region *)

Lemma sales_with_customer_total customers products sales inventory :
  cleaned customers products sales inventory →
  fst <$> merge s_customer_id c_id sales customers = sales.
Proof.
  intros Hcl. apply merge_total; [apply Hcl|]. apply Hcl.
Qed.

Lemma sales_with_customer_region customers products sales inventory :
  cleaned customers products sales inventory →
  Forall (λ r : Sale * Customer, is_Some (c_region r.2))
    (merge s_customer_id c_id sales customers).
Proof.
  intros Hcl. apply Forall_forall. intros [s c] (_ & Hc & _)%merge_left_key.
  by destruct (cleaned_customer Hcl c Hc) as (_ & ? & _).
Qed.





(** ** idxmax and mean *)

Lemma idxmax_present_spec {K} (col : list (K * Q)) k v :
  idxmax_present col = Some (k, v) →
  (k, v) ∈ col ∧ Forall (λ kv, kv.2 <= v)%Q col.
Proof.
  revert k v. induction col as [|[k0 v0] col IH]; intros k v; simpl; [done|].
  destruct (idxmax_present col) as [[k' v']|] eqn:Hrec.
  - destruct (IH k' v' eq_refl) as [Hin Hmax].
    destruct (Qltb v0 v') eqn:Hlt; intros [= <- <-].
    + apply Qltb_lt in Hlt. split; [by right|]. constructor; [simpl; lra|done].
    + apply Qltb_ge in Hlt. split; [by left|].
      constructor; [simpl; lra|]. eapply Forall_impl; [done|].
      simpl. intros; lra.
  - intros [= <- <-]. destruct col as [|[] ?]; [|simpl in Hrec; by repeat case_match].
    split; [by left|]. repeat constructor. simpl. lra.
Qed.

Lemma idxmax_present_None {K} (col : list (K * Q)) :
  idxmax_present col = None ↔ col = [].
Proof.
  destruct col as [|[k v] col]; simpl; [done|].
  split; [|done]. by repeat case_match.
Qed.

Lemma Qcount_pos n : (0 < n)%nat → (0 < Qcount n)%Q.
Proof.
  intros Hn. unfold Qcount. change 0%Q with (inject_Z 0).
  rewrite <- Zlt_Qlt. lia.
Qed.



Lemma Qsum_constant (x : Q) xs :
  Forall (λ v, v == x)%Q xs → (Qsum xs == Qcount (length xs) * x)%Q.
Proof.
  induction 1 as [|v xs Hv _ IH];
    [cbn [Qsum foldr length]; change (Qcount 0) with 0%Q; lra|].
  cbn [Qsum foldr length]. fold (Qsum xs). rewrite Qcount_S, IH, Hv. lra.
Qed.

Lemma Qsum_Qbool {A} (flag : A → bool) (df : list A) :
  (Qsum ((Qbool ∘ flag) <$> df) == Qcount (length (List.filter flag df)))%Q.
Proof.
  induction df as [|r df IH]; csimpl; [by change (Qcount 0) with 0%Q|].
  destruct (flag r); simpl.
  - rewrite Qcount_S, IH. lra.
  - rewrite IH. lra.
Qed.

Lemma Qmean_Some xs mean :
  Qmean xs = Some mean ↔
  (0 < length xs)%nat ∧ mean = (Qsum xs / Qcount (length xs))%Q.
Proof.
  destruct xs as [|x xs]; simpl; [split; [done|lia]|].
  split; [intros [= <-]; split; [lia|done] | by intros [_ ->]].
Qed.

(** The mean of the [is_churned] column is the share of lapsed customers. *)
Lemma is_churned_mean_share customer_metrics rate :
  is_churned_mean customer_metrics = Some rate →
  (0 < length customer_metrics)%nat ∧
  (rate == Qcount (length (List.filter cm_is_churned customer_metrics))
           / Qcount (length customer_metrics))%Q.
Proof.
  unfold is_churned_mean. intros [Hlen ->]%Qmean_Some.
  rewrite length_fmap in *. split; [done|]. by rewrite Qsum_Qbool.
Qed.

Lemma is_churned_mean_None customer_metrics :
  is_churned_mean customer_metrics = None ↔ customer_metrics = [].
Proof. by destruct customer_metrics. Qed.

(** ** The insight rules *)

Lemma generate_business_insights_inr rbr cp aga cm lsp insights :
  generate_business_insights rbr cp aga cm lsp = inr insights ↔
  ∃ regional categorical segment,
    regional_insights rbr = inr regional ∧
    category_insights cp = inr categorical ∧
    age_group_insights aga = inr segment ∧
    insights = regional ++ categorical ++ segment ++ inventory_rule lsp
               ++ churn_insights cm.
Proof.
  unfold generate_business_insights.
  destruct (regional_insights rbr), (category_insights cp),
    (age_group_insights aga); naive_solver.
Qed.

Lemma regional_insights_cases rbr l :
  regional_insights rbr = inr l → l = [] ∨ l = [regional_performance_leader].
Proof. unfold regional_insights. repeat case_match; naive_solver. Qed.

Lemma category_insights_cases cp l :
  category_insights cp = inr l → l = [category_dominance].
Proof. unfold category_insights. repeat case_match; naive_solver. Qed.

Lemma age_group_insights_cases aga l :
  age_group_insights aga = inr l → l = [] ∨ l = [high_value_customer_segment].
Proof. unfold age_group_insights. repeat case_match; naive_solver. Qed.

Lemma inventory_rule_cases lsp :
  inventory_rule lsp = [] ∨ inventory_rule lsp = [inventory_risk_alert].
Proof. unfold inventory_rule. case_bool_decide; auto. Qed.

Lemma churn_insights_cases cm :
  churn_insights cm = [] ∨ churn_insights cm = [customer_retention_concern].
Proof. unfold churn_insights. case_match; auto. Qed.

Lemma emits_app l1 l2 t : emits (l1 ++ l2) t ↔ emits l1 t ∨ emits l2 t.
Proof. unfold emits. setoid_rewrite elem_of_app. naive_solver. Qed.

Lemma emits_nil t : emits [] t ↔ False.
Proof. unfold emits. split; [|done]. by intros (i & ?%elem_of_nil & _). Qed.

Lemma emits_singleton i t : emits [i] t ↔ title i = t.
Proof.
  unfold emits. setoid_rewrite list_elem_of_singleton. naive_solver.
Qed.

(** Which rule an insight of a given title comes from. *)
Lemma emits_by_rule rbr cp aga cm lsp insights t :
  generate_business_insights rbr cp aga cm lsp = inr insights →
  emits insights t ↔
    (t = title regional_performance_leader
     ∧ regional_insights rbr = inr [regional_performance_leader]) ∨
    t = title category_dominance ∨
    (t = title high_value_customer_segment
     ∧ age_group_insights aga = inr [high_value_customer_segment]) ∨
    (t = title inventory_risk_alert
     ∧ inventory_rule lsp = [inventory_risk_alert]) ∨
    (t = title customer_retention_concern
     ∧ churn_insights cm = [customer_retention_concern]).
Proof.
  intros (regional & categorical & segment & Hr & Hc & Ha & ->)
    %generate_business_insights_inr.
  rewrite !emits_app.
  apply category_insights_cases in Hc as ->.
  destruct (regional_insights_cases _ _ Hr) as [-> | ->],
    (age_group_insights_cases _ _ Ha) as [-> | ->],
    (inventory_rule_cases lsp) as [Hi | Hi],
    (churn_insights_cases cm) as [Hch | Hch];
    rewrite Hr, Ha, Hi, Hch, ?emits_nil, ?emits_singleton;
    intuition (try discriminate; try congruence).
Qed.

Lemma idxmax_prod_map {K A} (value : A → Q) (df : list (K * A)) :
  idxmax (prod_map id (Some ∘ value) <$> df)
  = idxmax_present (prod_map id value <$> df).
Proof.
  unfold idxmax. f_equal. induction df as [|[k r] df IH]; csimpl; [done|].
  by rewrite IH.
Qed.

(** The regional rule on a frame with at least one region. *)
Lemma regional_insights_spec rbr :
  rbr ≠ [] →
  ∃ top_region top avg,
    idxmax (prod_map id (Some ∘ rr_total_revenue) <$> rbr)
      = Some (top_region, top) ∧
    (∃ row, (top_region, row) ∈ rbr ∧ rr_total_revenue row = top) ∧
    Forall (λ r, rr_total_revenue r.2 <= top)%Q rbr ∧
    Qmean ((rr_total_revenue ∘ snd) <$> rbr) = Some avg ∧
    regional_insights rbr =
      inr (if Qgtb top (avg * 1.2) then [regional_performance_leader] else []).
Proof.
  intros Hne. unfold regional_insights. rewrite idxmax_prod_map.
  destruct (idxmax_present _) as [[top_region top]|] eqn:Hmax; cycle 1.
  { apply idxmax_present_None, fmap_nil_inv in Hmax. done. }
  destruct (Qmean _) as [avg|] eqn:Havg; cycle 1.
  { destruct rbr; done. }
  exists top_region, top, avg. apply idxmax_present_spec in Hmax as [Hin Hall].
  split; [done|]. split; [|split; [|split; [done|]]].
  - apply list_elem_of_fmap in Hin as ([k row] & [= -> ->] & Hin). eauto.
  - apply Forall_forall. intros [k row] Hk. rewrite Forall_forall in Hall.
    apply (Hall (k, rr_total_revenue row)), list_elem_of_fmap.
    by exists (k, row).
  - simpl. by destruct (Qgtb top (avg * 1.2)).
Qed.

Lemma regional_insights_inr rbr l : regional_insights rbr = inr l → rbr ≠ [].
Proof. by intros H ->. Qed.

(** ** The regional and the churn rule *)

(** When the engine returns, the regional insight is in the list exactly
    when the largest revenue exceeds 1.2 times the mean revenue. *)
Lemma regional_rule_fires rbr cp aga cm lsp insights :
  generate_business_insights rbr cp aga cm lsp = inr insights →
  ∃ top_region top avg,
    (∃ row, (top_region, row) ∈ rbr ∧ rr_total_revenue row = top) ∧
    Forall (λ r, rr_total_revenue r.2 <= top)%Q rbr ∧
    Qmean ((rr_total_revenue ∘ snd) <$> rbr) = Some avg ∧
    (emits insights "Regional Performance Leader" ↔ (avg * 1.2 < top)%Q).
Proof.
  intros Hrun. pose proof Hrun as (regional & _ & _ & Hr & _)
    %generate_business_insights_inr.
  apply regional_insights_inr in Hr.
  destruct (regional_insights_spec rbr Hr)
    as (top_region & top & avg & _ & Hin & Hmax & Havg & Hrule).
  exists top_region, top, avg. split_and!; [done..|].
  rewrite (emits_by_rule _ _ _ _ _ _ _ Hrun), Hrule, <- Qgtb_lt.
  destruct (Qgtb top (avg * 1.2)); simpl;
    intuition (try discriminate; try congruence).
Qed.

(** A column of equal, non-negative values: no value exceeds 1.2 times the
    mean. *)
Lemma level_column_below_gate {K} (col : list (K * RegionRow)) k row avg x :
  (k, row) ∈ col →
  Qmean ((rr_total_revenue ∘ snd) <$> col) = Some avg →
  (0 <= x)%Q → Forall (λ r, rr_total_revenue r.2 == x)%Q col →
  ¬ (avg * 1.2 < rr_total_revenue row)%Q.
Proof.
  intros Hrow Havg Hx Hall.
  assert (rr_total_revenue row == x)%Q as Htop.
  { rewrite Forall_forall in Hall. apply (Hall _ Hrow). }
  apply Qmean_Some in Havg as [Hlen ->]. rewrite length_fmap in *.
  rewrite Qsum_constant with (x := x) by (by apply Forall_fmap).
  rewrite length_fmap, Htop.
  pose proof (Qcount_pos _ Hlen).
  assert (Qcount (length col) * x / Qcount (length col) == x)%Q as ->
    by (field; lra).
  lra.
Qed.





(** ** generate_metrics as a whole *)

Lemma generate_metrics_inv rt (now : Z) self self' :
  generate_metrics rt now self = (inr (), self') →
  ∃ customers products sales inventory bundle,
    holds self customers products sales inventory ∧
    customers_df self' = Some customers ∧
    products_df self' = Some products ∧
    inventory_df self' = Some inventory ∧
    processed_data self' = Some bundle ∧
    revenue_by_region bundle = revenue_by_region_df sales customers ∧
    top_products bundle = top_products_df rt sales products ∧
    category_performance bundle = category_performance_df rt sales products ∧
    customer_metrics_summary bundle
      = customer_metrics_summary_of (customer_metrics_df now sales customers) ∧
    low_stock_products (inventory_insights bundle)
      = low_stock_products_df inventory products ∧
    turnover_by_category (inventory_insights bundle)
      = turnover_analysis_df inventory products ∧
    generate_business_insights
      (revenue_by_region_df sales customers)
      (category_performance_df rt sales products)
      (age_group_analysis_df (customer_metrics_df now sales customers))
      (customer_metrics_df now sales customers)
      (low_stock_products_df inventory products)
    = inr (business_insights bundle).
Proof.
  run_method generate_metrics. intros Hrun.
  destruct (customers_df self) as [customers|] eqn:Hc; [|done].
  destruct (products_df self) as [products|] eqn:Hp; [|done].
  destruct (sales_df self) as [sales|] eqn:Hs; [|done].
  destruct (inventory_df self) as [inventory|] eqn:Hi; [|done].
  destruct (forallb is_timestamp sales); [|done].
  simpl in Hrun.
  destruct (generate_business_insights _ _ _ _ _) as [e|insights] eqn:Hins;
    [done|].
  injection Hrun as <-. eexists customers, products, sales, inventory, _.
  simpl. by rewrite Hins.
Qed.


(** ** What the insight engine does with a bundle *)

(** On a bundle with at least one region and one category (and an average
    spend in some age group, when there are age groups) [generate_business_insights]
    returns; the category insight is always in the list, and each of the
    other four is there exactly when its rule fires. *)
Lemma generate_business_insights_total rbr cp aga cm lsp :
  rbr ≠ [] → cp ≠ [] →
  (aga = [] ∨ ∃ g row v, (g, row) ∈ aga ∧ ag_avg_spent row = Some v) →
  ∃ insights,
    generate_business_insights rbr cp aga cm lsp = inr insights ∧
    emits insights "Category Dominance" ∧
    (emits insights "High-Value Customer Segment" ↔ aga ≠ []) ∧
    (emits insights "Inventory Risk Alert" ↔ (0 < length lsp)%nat).
Proof.
  intros Hrbr Hcp Haga.
  destruct (regional_insights_spec rbr Hrbr)
    as (top_region & top & avg & _ & _ & _ & _ & Hr).
  assert (category_insights cp = inr [category_dominance]) as Hc.
  { unfold category_insights. rewrite idxmax_prod_map.
    destruct (idxmax_present _) as [[]|] eqn:Hmax; [done|].
    by apply idxmax_present_None, fmap_nil_inv in Hmax. }
  assert (age_group_insights aga
          = inr (if decide (aga = []) then [] else [high_value_customer_segment]))
    as Ha.
  { unfold age_group_insights. destruct aga as [|a aga']; [done|].
    destruct Haga as [|(g & row & v & Hin & Hv)]; [done|].
    unfold idxmax.
    destruct (idxmax_present _) as [[]|] eqn:Hmax; [done|].
    apply idxmax_present_None in Hmax.
    assert ((g, v) ∈ omap (λ kv : AgeGroup * option Q, (λ v, (kv.1, v)) <$> kv.2)
              (prod_map id ag_avg_spent <$> a :: aga')) as Hgv.
    { apply list_elem_of_omap. exists (g, Some v). split; [|done].
      apply list_elem_of_fmap. exists (g, row). split; [|done].
      simpl. by rewrite Hv. }
    rewrite Hmax in Hgv. by apply elem_of_nil in Hgv. }
  eexists. split.
  { apply generate_business_insights_inr. by eexists _, _, _. }
  assert (Hrun : generate_business_insights rbr cp aga cm lsp = inr
    ((if Qgtb top (avg * 1.2) then [regional_performance_leader] else [])
     ++ [category_dominance]
     ++ (if decide (aga = []) then [] else [high_value_customer_segment])
     ++ inventory_rule lsp ++ churn_insights cm)).
  { apply generate_business_insights_inr. by eexists _, _, _. }
  rewrite !(emits_by_rule _ _ _ _ _ _ _ Hrun), Ha. split_and!.
  - by right; left.
  - case_decide; intuition (try discriminate; try congruence).
  - unfold inventory_rule. case_bool_decide;
      intuition (try discriminate; try congruence).
Qed.


(** ** Region revenue is never negative *)

Lemma col_sum_nonneg col :
  Forall (λ c : option Q, ∀ v, c = Some v → (0 <= v)%Q) col → (0 <= col_sum col)%Q.
Proof.
  unfold col_sum, dropna. induction 1 as [|c col Hc _ IH]; csimpl; [lra|].
  destruct c as [v|]; simpl; [|done]. specialize (Hc v eq_refl). lra.
Qed.

Lemma revenue_by_region_nonneg customers products sales inventory :
  cleaned customers products sales inventory →
  Forall (λ r, 0 <= rr_total_revenue r.2)%Q (revenue_by_region_df sales customers).
Proof.
  intros Hcl. unfold revenue_by_region_df, revenue_by_region_agg.
  rewrite <- list_fmap_compose. apply Forall_fmap, Forall_forall.
  intros [region g] [_ ->]%elem_of_groupby. simpl.
  apply round2_nonneg, col_sum_nonneg, Forall_fmap, Forall_forall.
  intros [s c] [(Hs & _)%merge_left_key _]%elem_of_mask v. simpl.
  destruct (cleaned_sale Hcl s Hs) as (_ & (t & -> & Ht) & _).
  intros [= <-]. lra.
Qed.

(** In a run of the two stages, regions of equal revenue never yield a
    "Regional Performance Leader" insight. *)
Corollary level_regions_no_leader rt (today : string) (now : Z) self self1 self2 :
  clean_data rt today self = (inr (), self1) →
  generate_metrics rt now self1 = (inr (), self2) →
  ∃ bundle,
    processed_data self2 = Some bundle ∧
    ∀ x, Forall (λ r, rr_total_revenue r.2 == x)%Q (revenue_by_region bundle) →
         ¬ emits (business_insights bundle) "Regional Performance Leader".
Proof.
  intros (customers & products & sales & inventory & Hh & Hcl & _)
    %clean_data_returns
    (customers' & products' & sales' & inventory' & bundle & Hh' & _ & _ & _
     & Hb & Hrbr & _ & _ & _ & _ & _ & Hins)%generate_metrics_inv.
  destruct Hh as (? & ? & ? & ?), Hh' as (? & ? & ? & ?). simplify_eq.
  exists bundle. split; [done|]. rewrite Hrbr. intros x Hall.
  pose proof (revenue_by_region_nonneg _ _ _ _ Hcl) as Hnn.
  destruct (regional_rule_fires _ _ _ _ _ _ Hins)
    as (top_region & top & avg & (row & Hrow & <-) & _ & Havg & ->).
  eapply level_column_below_gate; [done..| |done].
  rewrite Forall_forall in Hall, Hnn.
  specialize (Hall _ Hrow). specialize (Hnn _ Hrow). simpl in *. lra.
Qed.

(** ** Customer metrics *)

Lemma mask_ext_in {A} (m m' : A → bool) (df : list A) :
  (∀ r, r ∈ df → m r = m' r) → List.filter m df = List.filter m' df.
Proof.
  intros H. apply List.filter_ext_in. intros r Hr. apply H.
  by apply list_elem_of_In.
Qed.

Lemma mask_fmap {A B} (m : B → bool) (f : A → B) (df : list A) :
  List.filter m (f <$> df) = f <$> List.filter (m ∘ f) df.
Proof.
  induction df as [|r df IH]; csimpl; [done|]. unfold compose at 1.
  destruct (m (f r)); csimpl; by rewrite IH.
Qed.

Lemma mask_perm {A} (m : A → bool) (df df' : list A) :
  df ≡ₚ df' → List.filter m df ≡ₚ List.filter m df'.
Proof.
  induction 1 as [|r ? ? _ IH|r r' ?|? ? ? _ IH1 _ IH2]; simpl.
  - done.
  - destruct (m r); by rewrite IH.
  - destruct (m r), (m r'); by try constructor.
  - by rewrite IH1.
Qed.

Section customer_metrics.
Context (customers : list Customer) (products : list Product)
        (sales : list Sale) (inventory : list Inventory).
Context (Hcl : cleaned customers products sales inventory).

Let grouped := groupby (Some ∘ s_customer_id) sales.
Let merged := merge fst c_id grouped customers.

Lemma grouped_total : fst <$> merged = grouped.
Proof.
  apply merge_total; [apply Hcl|].
  intros [cid g] [(s & Hs & [= <-]) _]%elem_of_groupby. simpl.
  by apply (sales_customer _ _ _ _ Hcl).
Qed.

Lemma merged_row cid g c :
  ((cid, g), c) ∈ merged →
  c ∈ customers ∧ c_id c = cid ∧ cid ∈ s_customer_id <$> sales ∧
  g = List.filter (λ s, bool_decide (s_customer_id s = cid)) sales.
Proof.
  intros ([(s & Hs & [= <-]) ->]%elem_of_groupby & Hc & Hid)%merge_left_key.
  simpl in *. split_and!; [done|done|by apply list_elem_of_fmap_2|].
  apply mask_ext_in. intros r _. apply bool_decide_ext. simpl.
  split; [by intros [= ->] | by intros ->].
Qed.

Lemma matched_customers_ids :
  c_id <$> matched_customers sales customers = fst <$> grouped.
Proof.
  rewrite <- grouped_total. unfold matched_customers. fold grouped merged.
  rewrite <- !list_fmap_compose.
  apply list_fmap_ext. intros _ [[cid g] c] Hin%list_elem_of_lookup_2.
  by apply merged_row in Hin as (_ & ? & _).
Qed.

Lemma matched_customers_perm :
  matched_customers sales customers ≡ₚ purchasing sales customers.
Proof.
  apply NoDup_Permutation.
  - apply (NoDup_fmap_1 c_id). rewrite matched_customers_ids.
    apply groupby_keys_NoDup.
  - eapply sublist_NoDup; [|apply mask_sublist].
    eapply NoDup_fmap_1, Hcl.
  - intros c. unfold purchasing. rewrite elem_of_mask, bool_decide_eq_true.
    unfold matched_customers. fold grouped. fold merged.
    rewrite list_elem_of_fmap. split.
    + intros ([[cid g] c'] & -> & Hin). simpl.
      apply merged_row in Hin as (? & -> & ? & _). done.
    + intros [Hc Hs]. apply list_elem_of_fmap in Hs as (s & Hid & Hs).
      exists ((c_id c, List.filter
                 (λ r, bool_decide ((Some ∘ s_customer_id) r = Some (c_id c)))
                 sales), c).
      split; [done|]. apply merge_left_key. split_and!; [|done|done].
      apply elem_of_groupby. split; [|done]. exists s. split; [done|].
      simpl. by rewrite Hid.
Qed.

Lemma customer_metrics_length now :
  length (customer_metrics_df now sales customers)
  = length (purchasing sales customers).
Proof.
  rewrite <- matched_customers_perm. unfold customer_metrics_df,
    matched_customers. by rewrite !length_fmap.
Qed.

Lemma customer_metrics_churned now :
  length (List.filter cm_is_churned (customer_metrics_df now sales customers))
  = length (List.filter (lapsed now sales) (purchasing sales customers)).
Proof.
  rewrite <- (mask_perm _ _ _ matched_customers_perm).
  unfold customer_metrics_df, matched_customers. fold grouped. fold merged.
  rewrite !mask_fmap, !length_fmap. f_equal. apply mask_ext_in.
  intros [[cid g] c] Hin. apply merged_row in Hin as (_ & <- & _ & ->).
  done.
Qed.

Lemma customer_metrics_nonempty now :
  sales ≠ [] → customer_metrics_df now sales customers ≠ [].
Proof.
  intros Hne Hnil. apply (f_equal length) in Hnil.
  rewrite customer_metrics_length in Hnil.
  destruct sales as [|s sales'] eqn:Hs; [done|]. clear Hne.
  pose proof (sales_customer _ _ _ _ Hcl s (list_elem_of_here _ _)) as Hin.
  apply list_elem_of_fmap in Hin as (c & Hid & Hc).
  assert (c ∈ purchasing (s :: sales') customers) as Hp.
  { apply elem_of_mask. split; [done|]. apply bool_decide_eq_true.
    rewrite <- Hid. by left. }
  destruct (purchasing _ _); [by apply elem_of_nil in Hp|done].
Qed.
End customer_metrics.

Lemma revenue_by_region_has_sales sales customers :
  revenue_by_region_df sales customers ≠ [] → sales ≠ [].
Proof. by intros H ->. Qed.

(** C4, as the code has it.  In the summary a run stores,
    [total_customers] is the number of cleaned customers with at least one
    cleaned sale, [churned_customers] the number of those whose latest sale
    is more than 90 days old, and [churn_rate] the second over the first.
    Cleaned customers without a sale are not counted. *)
Theorem churn_rate_of_purchasing_customers rt (today : string) (now : Z)
    self self1 self2 :
  clean_data rt today self = (inr (), self1) →
  generate_metrics rt now self1 = (inr (), self2) →
  ∃ customers products sales inventory bundle,
    holds self1 customers products sales inventory ∧
    processed_data self2 = Some bundle ∧
    let summary := customer_metrics_summary bundle in
    let buyers := purchasing sales customers in
    let lost := List.filter (lapsed now sales) buyers in
    total_customers summary = length buyers ∧
    churned_customers summary = length lost ∧
    ∃ rate, churn_rate summary = Some rate ∧
            (rate == Qcount (length lost) / Qcount (length buyers))%Q.
Proof.
  intros (customers & products & sales & inventory & Hh & Hcl & _)
    %clean_data_returns
    (customers' & products' & sales' & inventory' & bundle & Hh' & _ & _ & _
     & Hb & _ & _ & _ & Hsum & _ & _ & Hins)%generate_metrics_inv.
  pose proof Hh as Hh0.
  destruct Hh as (? & ? & ? & ?), Hh' as (? & ? & ? & ?). simplify_eq.
  exists customers, products, sales, inventory, bundle.
  split; [done|]. split; [done|]. cbv zeta. rewrite Hsum. simpl.
  rewrite <- (customer_metrics_churned _ _ _ _ Hcl now),
    <- (customer_metrics_length _ _ _ _ Hcl now).
  split; [done|]. split; [done|].
  destruct (is_churned_mean (customer_metrics_df now sales customers))
    as [rate|] eqn:Hrate.
  - exists rate. split; [done|]. by apply is_churned_mean_share in Hrate as [_ ?].
  - exfalso. apply is_churned_mean_None in Hrate.
    apply generate_business_insights_inr in Hins as (? & ? & ? & Hr & _).
    apply regional_insights_inr, revenue_by_region_has_sales in Hr.
    by apply (customer_metrics_nonempty _ _ _ _ Hcl now) in Hr.
Qed.

Lemma churn_rate_of_purchasing_customers_witness :
  ∃ customers products sales inventory bundle,
    holds (clean_data Iso.runtime Scenario.today Examples.one_buyer).2
      customers products sales inventory ∧
    processed_data
      (generate_metrics Iso.runtime Scenario.now
         (clean_data Iso.runtime Scenario.today Examples.one_buyer).2).2
      = Some bundle ∧
    let summary := customer_metrics_summary bundle in
    let buyers := purchasing sales customers in
    let lost := List.filter (lapsed Scenario.now sales) buyers in
    total_customers summary = length buyers ∧
    churned_customers summary = length lost ∧
    ∃ rate, churn_rate summary = Some rate ∧
            (rate == Qcount (length lost) / Qcount (length buyers))%Q.
Proof.
  apply (churn_rate_of_purchasing_customers Iso.runtime Scenario.today
           Scenario.now Examples.one_buyer);
    vm_compute; reflexivity.
Defined.

(** C4, as stated, fails.  Customers 1 and 2 both survive cleaning; only
    customer 2 has a sale, made more than 90 days ago.  The summary counts
    one customer and a churn rate of 1, where the two cleaned customers
    would give a total of 2 and a rate of one half. *)
Lemma summary_leaves_out_customers_without_sales :
  clean_data Iso.runtime Scenario.today Examples.one_buyer
    = (inr (), Examples.one_buyer_cleaned) ∧
  c_id <$> Examples.one_buyer_customers = [1; 2]%Z ∧
  s_customer_id <$> Examples.one_buyer_sales = [2]%Z ∧
  lapsed Scenario.now Examples.one_buyer_sales <$> Examples.one_buyer_customers
    = [false; true] ∧
  ∃ self2 bundle,
    generate_metrics Iso.runtime Scenario.now Examples.one_buyer_cleaned
      = (inr (), self2) ∧
    processed_data self2 = Some bundle ∧
    total_customers (customer_metrics_summary bundle) = 1%nat ∧
    churn_rate (customer_metrics_summary bundle) = Some 1%Q ∧
    total_customers (customer_metrics_summary bundle)
      ≠ length Examples.one_buyer_customers ∧
    ¬ (1 == Qcount (length (List.filter (lapsed Scenario.now Examples.one_buyer_sales)
                              Examples.one_buyer_customers))
            / Qcount (length Examples.one_buyer_customers))%Q.
Proof.
  do 4 (split; [by vm_compute|]).
  eexists _, _. split; [vm_compute; reflexivity|].
  split; [reflexivity|]. split; [by vm_compute|]. split; [by vm_compute|].
  split; by vm_compute.
Qed.

(** ** Sorting *)

#[local] Instance by_desc_trans {A} (by_ : A → Q) : Transitive (by_desc by_).
Proof. unfold by_desc. intros r1 r2 r3 ? ?. lra. Qed.


Lemma insert_before_perm {A} (by_ : A → Q) r df :
  Iso.insert_before by_ r df ≡ₚ r :: df.
Proof.
  induction df as [|r' df IH]; simpl; [done|].
  destruct (Qltb _ _); [|done]. rewrite IH. apply perm_swap.
Qed.


Lemma insert_before_sorted {A} (by_ : A → Q) r df :
  Sorted (by_desc by_) df → Sorted (by_desc by_) (Iso.insert_before by_ r df).
Proof.
  induction 1 as [|r' df Hdf IH Hhd]; simpl; [by repeat constructor|].
  destruct (Qltb _ _) eqn:Hlt.
  - apply Qltb_lt in Hlt. constructor; [done|].
    destruct Hhd as [|r'' df]; simpl.
    + constructor. unfold by_desc. lra.
    + destruct (Qltb _ _); constructor; [done|]. unfold by_desc. lra.
  - apply Qltb_ge in Hlt. repeat constructor; done.
Qed.


Lemma sort_stable_spec : sort_values_spec Iso.runtime.
Proof.
  intros A by_ df. simpl. unfold Iso.sort_stable.
  induction df as [|r df [IHp IHs]]; simpl; [by repeat constructor|]. split.
  - by rewrite insert_before_perm, IHp.
  - by apply insert_before_sorted.
Qed.


(** ** Top products *)

Lemma top_products_agg_ids sales products :
  tp_product_id <$> top_products_agg sales products
  = (λ k : Z * string * string, k.1.1)
      <$> (fst <$> groupby product_key (sales_with_product sales products)).
Proof.
  unfold top_products_agg. rewrite <- !list_fmap_compose.
  apply list_fmap_ext. by intros _ [k g] _.
Qed.

(** With unique product ids, the product of a group is known by its id. *)
Lemma top_products_agg_unique sales products :
  NoDup (p_id <$> products) →
  NoDup (tp_product_id <$> top_products_agg sales products).
Proof.
  intros Hnd. rewrite top_products_agg_ids.
  apply NoDup_fmap_2_strong; [|apply groupby_keys_NoDup].
  intros k k' ([s p] & Hin & Hk)%elem_of_groupby_keys
    ([s' p'] & Hin' & Hk')%elem_of_groupby_keys Hid.
  apply merge_left_key in Hin as (_ & Hp & Hpid).
  apply merge_left_key in Hin' as (_ & Hp' & Hpid').
  unfold product_key in Hk, Hk'. simpl in *.
  destruct (p_name p) as [name|] eqn:Hname; [|done].
  destruct (p_category p) as [cat|] eqn:Hcat; [|done].
  destruct (p_name p') as [name'|] eqn:Hname'; [|done].
  destruct (p_category p') as [cat'|] eqn:Hcat'; [|done].
  simpl in *. simplify_eq/=.
  assert (p = p') as <-.
  { eapply (NoDup_key_inj p_id); [done..|]. congruence. }
  congruence.
Qed.




(** ** When the two stages return *)

(** [clean_data] returns as soon as the dates that are still text can be
    parsed. *)
Lemma clean_data_total rt (today : string) self customers products sales inventory :
  holds self customers products sales inventory →
  Forall (λ s, is_Some (to_datetime_row rt s)) sales →
  ∃ self', clean_data rt today self = (inr (), self').
Proof.
  intros Hh Hdates. rewrite (clean_data_loaded _ _ _ _ _ _ _ Hh). cbv zeta.
  destruct (mapM _ _) as [sales''|] eqn:Hm; [eauto|]. exfalso.
  apply mapM_None_1 in Hm. apply Exists_exists in Hm as (s & Hs & Hnone).
  unfold clean_sales in Hs.
  do 2 apply elem_of_mask in Hs as [Hs _].
  apply list_elem_of_fmap in Hs as (s0 & -> & Hs).
  apply elem_of_mask in Hs as [Hs _].
  eapply elem_of_sublist in Hs; [|apply drop_duplicates_sublist].
  rewrite Forall_forall in Hdates. destruct (Hdates s0 Hs) as [s1 Hs1].
  unfold to_datetime_row in *. simpl in *.
  destruct (s_date s0) as [d|ns]; [|done].
  destruct (to_datetime rt d); simpl in *; done.
Qed.

Lemma groupby_nonempty `{GroupKey K} {A} (key : A → option K) df r :
  r ∈ df → is_Some (key r) → groupby key df ≠ [].
Proof.
  intros Hr [k Hk] Hnil.
  assert (k ∈ fst <$> groupby key df) as Hin
    by (apply elem_of_groupby_keys; eauto).
  rewrite Hnil in Hin. by apply elem_of_nil in Hin.
Qed.

Lemma cut_age_Some age :
  (18 <= age)%Q → (age <= 100)%Q → is_Some (cut_age (Some age)).
Proof.
  intros Hlo Hhi. unfold cut_age. simpl.
  assert (Qgtb age 0 = true) as -> by (apply Qgtb_lt; lra).
  destruct (Qleb age 25) eqn:H25; simpl; [eauto|].
  assert (Qgtb age 25 = true) as ->
    by (unfold Qgtb, Qleb in *; by rewrite H25).
  destruct (Qleb age 35) eqn:H35; simpl; [eauto|].
  assert (Qgtb age 35 = true) as ->
    by (unfold Qgtb, Qleb in *; by rewrite H35).
  destruct (Qleb age 50) eqn:H50; simpl; [eauto|].
  assert (Qgtb age 50 = true) as ->
    by (unfold Qgtb, Qleb in *; by rewrite H50).
  destruct (Qleb age 65) eqn:H65; simpl; [eauto|].
  assert (Qgtb age 65 = true) as ->
    by (unfold Qgtb, Qleb in *; by rewrite H65).
  assert (Qleb age 100 = true) as -> by (by apply Qleb_le).
  simpl. eauto.
Qed.

Lemma sales_with_product_total customers products sales inventory :
  cleaned customers products sales inventory →
  fst <$> sales_with_product sales products = sales.
Proof. intros Hcl. apply merge_total; apply Hcl. Qed.

(** On cleaned tables with at least one sale, every frame the insight
    engine ranks is non-empty. *)
Lemma aggregates_nonempty rt (now : Z) customers products sales inventory :
  sort_values_spec rt →
  cleaned customers products sales inventory → sales ≠ [] →
  revenue_by_region_df sales customers ≠ [] ∧
  category_performance_df rt sales products ≠ [] ∧
  ∃ g row v,
    (g, row) ∈ age_group_analysis_df (customer_metrics_df now sales customers)
    ∧ ag_avg_spent row = Some v.
Proof.
  intros Hsort Hcl Hne. split_and!.
  - unfold revenue_by_region_df, revenue_by_region_agg.
    intros Hnil. do 2 apply fmap_nil_inv in Hnil. revert Hnil.
    pose proof (sales_with_customer_total _ _ _ _ Hcl) as Htot.
    pose proof (sales_with_customer_region _ _ _ _ Hcl) as Hreg.
    destruct (merge s_customer_id c_id sales customers) as [|r swc];
      [by rewrite <- Htot in Hne|].
    apply (groupby_nonempty _ _ r); [by left|].
    by apply Forall_cons in Hreg as [? _].
  - unfold category_performance_df.
    destruct (Hsort _ (cp_total_revenue ∘ snd)
                (category_performance_agg sales products))
      as [Hperm _].
    intros Hnil. rewrite Hnil in Hperm. symmetry in Hperm.
    apply Permutation_nil_r in Hperm. unfold category_performance_agg in Hperm.
    apply fmap_nil_inv in Hperm. revert Hperm.
    pose proof (sales_with_product_total _ _ _ _ Hcl) as Htot.
    destruct (sales_with_product sales products) as [|[s p] swp] eqn:Hswp;
      [by rewrite <- Htot in Hne|].
    apply (groupby_nonempty _ _ (s, p)); [by left|]. simpl.
    assert ((s, p) ∈ sales_with_product sales products) as Hin
      by (rewrite Hswp; by left).
    apply merge_left_key in Hin as (_ & Hp & _).
    by destruct (cleaned_product Hcl p Hp) as (_ & ? & _).
  - pose proof (customer_metrics_nonempty _ _ _ _ Hcl now Hne) as Hcm.
    destruct (customer_metrics_df now sales customers) as [|m cm] eqn:Hdf;
      [done|].
    assert (m ∈ customer_metrics_df now sales customers) as Hm
      by (rewrite Hdf; by left).
    assert (is_Some (cm_age_group m)) as [g Hg].
    { unfold customer_metrics_df in Hm.
      apply list_elem_of_fmap in Hm as ([[cid gr] c] & -> & Hin). simpl.
      apply merge_left_key in Hin as (_ & Hc & _).
      destruct (cleaned_customer Hcl c Hc) as (_ & _ & age & -> & ? & ?).
      by apply cut_age_Some. }
    rewrite <- Hdf in *.
    set (rows := List.filter (λ r, bool_decide (cm_age_group r = Some g))
                   (customer_metrics_df now sales customers)).
    assert (m ∈ rows) as Hrows
      by (apply elem_of_mask; split; [done|by apply bool_decide_eq_true]).
    destruct (Qmean (cm_total_spent <$> rows)) as [v|] eqn:Hmean; cycle 1.
    { destruct rows; [by apply elem_of_nil in Hrows|done]. }
    eexists g, _, (round2 v). split.
    + unfold age_group_analysis_df. apply list_elem_of_fmap.
      exists (g, rows). split; [done|]. apply elem_of_groupby. eauto.
    + simpl. by rewrite Hmean.
Qed.

(** On cleaned tables with at least one sale [generate_metrics] returns and
    stores a bundle. *)
Lemma generate_metrics_total rt (now : Z) self customers products sales inventory :
  sort_values_spec rt →
  holds self customers products sales inventory →
  cleaned customers products sales inventory → sales ≠ [] →
  ∃ self' bundle, generate_metrics rt now self = (inr (), self') ∧
                  processed_data self' = Some bundle.
Proof.
  intros Hsort (Hc & Hp & Hs & Hi) Hcl Hne.
  destruct (aggregates_nonempty rt now _ _ _ _ Hsort Hcl Hne)
    as (Hrbr & Hcp & Haga).
  destruct (generate_business_insights_total _ _ _
              (customer_metrics_df now sales customers)
              (low_stock_products_df inventory products) Hrbr Hcp
              (or_intror Haga)) as (insights & Hins & _).
  run_method generate_metrics.
  rewrite Hc, Hp, Hs, Hi.
  rewrite (cleaned_timestamps Hcl).
  simpl. rewrite Hins. simpl. eauto.
Qed.

(** ** The two stages in sequence *)

Lemma run_stages_inr rt (today : string) (now : Z) self self' :
  run_stages rt today now self = (inr (), self') ↔
  ∃ self1, clean_data rt today self = (inr (), self1) ∧
           generate_metrics rt now self1 = (inr (), self').
Proof.
  run_method run_stages.
  destruct (clean_data rt today self) as [[e|[]] self1]; split.
  - done.
  - by intros (? & [= ?] & _).
  - eauto.
  - by intros (? & [= <-] & ?).
Qed.

(** What a run stores: the frames of [generate_metrics], computed from the
    tables [clean_data] has left, which are cleaned tables. *)
Lemma run_stages_stores rt (today : string) (now : Z) self self' :
  run_stages rt today now self = (inr (), self') →
  ∃ customers products sales inventory bundle,
    cleaned customers products sales inventory ∧
    processed_data self' = Some bundle ∧
    revenue_by_region bundle = revenue_by_region_df sales customers ∧
    top_products bundle = top_products_df rt sales products ∧
    category_performance bundle = category_performance_df rt sales products ∧
    customer_metrics_summary bundle
      = customer_metrics_summary_of (customer_metrics_df now sales customers) ∧
    low_stock_products (inventory_insights bundle)
      = low_stock_products_df inventory products ∧
    turnover_by_category (inventory_insights bundle)
      = turnover_analysis_df inventory products ∧
    generate_business_insights
      (revenue_by_region_df sales customers)
      (category_performance_df rt sales products)
      (age_group_analysis_df (customer_metrics_df now sales customers))
      (customer_metrics_df now sales customers)
      (low_stock_products_df inventory products)
    = inr (business_insights bundle).
Proof.
  intros (self1 & Hclean & Hmetrics)%run_stages_inr.
  apply clean_data_returns in Hclean
    as (customers & products & sales & inventory & Hh & Hcl & _).
  apply generate_metrics_inv in Hmetrics
    as (customers' & products' & sales' & inventory' & bundle & Hh' & _ & _ & _
        & Hrest).
  destruct Hh as (? & ? & ? & ?), Hh' as (? & ? & ? & ?). simplify_eq.
  by exists customers, products, sales, inventory, bundle.
Qed.

(** When the dates parse and a sale survives cleaning, the run goes
    through and stores a bundle. *)
Lemma run_stages_total rt (today : string) (now : Z) self
    customers products sales inventory :
  sort_values_spec rt →
  holds self customers products sales inventory →
  Forall (λ s, is_Some (to_datetime_row rt s)) sales →
  clean_sales (clean_customers customers) (clean_products products) sales ≠ [] →
  ∃ self' bundle, run_stages rt today now self = (inr (), self') ∧
                  processed_data self' = Some bundle.
Proof.
  intros Hsort Hh Hdates Hne.
  destruct (clean_data_total rt today _ _ _ _ _ Hh Hdates) as [self1 Hclean].
  pose proof Hclean as (c0 & p0 & s0 & i0 & sales' & Hh0 & Hmap & ->)
    %clean_data_inv.
  destruct Hh as (? & ? & ? & ?), Hh0 as (? & ? & ? & ?). simplify_eq.
  pose proof Hclean as (c1 & p1 & s1 & i1 & Hh1 & Hcl & _)%clean_data_returns.
  pose proof Hh1 as (? & ? & ? & ?). simplify_eq/=.
  assert (s1 ≠ []) as Hs1.
  { intros ->. apply mapM_Some, Forall2_nil_inv_r in Hmap. done. }
  destruct (generate_metrics_total rt now _ _ _ _ _ Hsort Hh1 Hcl Hs1)
    as (self' & bundle & Hrun & Hb).
  exists self', bundle. split; [|done].
  apply run_stages_inr. eauto.
Qed.

(** ** The worked scenario, run *)

Example orphan_row_kept_but_not_counted :
  (i_product_id <$>
     default [] (inventory_df
       (clean_data Iso.runtime Scenario.today Examples.orphan).2) = [10; 11]%Z) ∧
  (ls_product_id <$>
     default [] (low_stock_products ∘ inventory_insights <$>
       processed_data
         (run_stages Iso.runtime Scenario.today Scenario.now Examples.orphan).2)
   = [11]%Z).
Proof. split; by vm_compute. Qed.

Example scenario_cleaned :
  clean_data Iso.runtime Scenario.today Scenario.pipeline =
  (inr (),
   {| customers_df :=
        Some [ {| c_id := 2; c_name := Some "Unknown Customer"%string;
                  c_age := Some 30%Q; c_region := Some "North"%string;
                  c_created_at := "2023-05-02" |} ];
      products_df :=
        Some [ {| p_id := 11; p_name := Some "Unknown Product"%string;
                  p_category := Some "Books"%string; p_price := Some 20%Q;
                  p_supplier := Some "Unknown Supplier"%string;
                  p_created_at := "2023-06-02" |} ];
      sales_df :=
        Some [ {| s_id := 100; s_customer_id := 2; s_product_id := 11;
                  s_date := Timestamp 1704844800000000000;
                  s_quantity := Some 2%Q; s_unit_price := Some 20%Q;
                  s_total_amount := Some 40%Q; s_year_month := None |} ];
      inventory_df :=
        Some [ {| i_id := 11; i_product_id := 11; i_current_stock := Some 0%Q;
                  i_reorder_level := Some 10%Q; i_max_stock := Some 100%Q;
                  i_turnover_rate := Some 1%Q;
                  i_last_updated := Scenario.today |} ];
      processed_data := None |}).
Proof. vm_compute. reflexivity. Qed.

Example scenario_revenue_by_region :
  revenue_by_region <$>
    processed_data
      (run_stages Iso.runtime Scenario.today Scenario.now Scenario.pipeline).2
  = Some [ ("North"%string,
            {| rr_total_revenue := 40.00; rr_total_sales := 1;
               rr_avg_order_value := Some 40.00%Q |}) ].
Proof. vm_compute. reflexivity. Qed.

Example scenario_insights :
  (λ b, title <$> business_insights b) <$>
    processed_data
      (run_stages Iso.runtime Scenario.today Scenario.now Scenario.pipeline).2
  = Some [ "Category Dominance"; "High-Value Customer Segment";
           "Inventory Risk Alert"; "Customer Retention Concern" ]%string.
Proof. vm_compute. reflexivity. Qed.

(** A region far above the others is reported; four lapsed customers in ten
    are a concern. *)
Example uneven_regions_have_a_leader :
  generate_business_insights
    [("East"%string, Examples.region_row 100);
     ("West"%string, Examples.region_row 10)]
    Examples.one_category []
    (Examples.metric 0 true :: Examples.three_in_ten) []
  = inr [regional_performance_leader; category_dominance;
         customer_retention_concern].
Proof. vm_compute. reflexivity. Qed.

(** * Further properties *)

(** ** First rows *)

Lemma first_of_cons {A} (key : A → Z) r0 (df : list A) r :
  first_of key (r0 :: df) r ↔
  r = r0 ∨ (key r0 ≠ key r ∧ first_of key df r).
Proof.
  split.
  - intros ([|i] & Hi & Hfirst); simpl in Hi.
    + left. congruence.
    + right. split; [apply (Hfirst 0%nat r0); [lia|done]|].
      exists i. split; [done|]. intros j r' Hj Hr'.
      apply (Hfirst (S j) r'); [lia|done].
  - intros [->|(Hne & i & Hi & Hfirst)].
    + exists 0%nat. split; [done|]. intros; lia.
    + exists (S i). split; [done|]. intros [|j] r' Hj Hr'; simpl in Hr'.
      * congruence.
      * apply (Hfirst j r'); [lia|done].
Qed.

Lemma first_of_elem_of {A} (key : A → Z) (df : list A) r :
  first_of key df r → r ∈ df.
Proof. intros (i & Hi & _). apply list_elem_of_lookup. eauto. Qed.

Lemma elem_of_drop_duplicates_seen {A} (key : A → Z) seen (df : list A) r :
  r ∈ drop_duplicates_seen key seen df ↔ (key r ∉ seen) ∧ first_of key df r.
Proof.
  revert seen. induction df as [|r0 df IH]; intros seen; simpl.
  - split; [by intros ?%elem_of_nil|]. intros (_ & i & Hi & _). by destruct i.
  - rewrite first_of_cons. destruct (decide (key r0 ∈ seen)) as [Hin|Hout].
    + rewrite IH. split.
      * intros (Hr & Hfirst). split; [done|]. right. split; [|done].
        intros Heq. by rewrite Heq in Hin.
      * intros (Hr & [->|(_ & Hfirst)]); [done|]. done.
    + rewrite elem_of_cons, IH. split.
      * intros [->|(Hr & Hfirst)]; [by auto|].
        split; [set_solver|]. right. split; [set_solver|done].
      * intros (Hr & [->|(Hne & Hfirst)]); [by left|].
        right. split; [set_solver|done].
Qed.

Lemma elem_of_drop_duplicates {A} (key : A → Z) (df : list A) r :
  r ∈ drop_duplicates key df ↔ first_of key df r.
Proof.
  unfold drop_duplicates. rewrite elem_of_drop_duplicates_seen. set_solver.
Qed.

Lemma first_of_unique {A} (key : A → Z) (df : list A) r r' :
  first_of key df r → first_of key df r' → key r = key r' → r = r'.
Proof.
  intros (i & Hi & Hfi) (j & Hj & Hfj) Heq.
  destruct (Nat.lt_trichotomy i j) as [Hlt|[->|Hlt]].
  - by destruct (Hfj i r Hlt Hi).
  - congruence.
  - by destruct (Hfi j r' Hlt Hj).
Qed.

(** The three fills of lines 57-59 on one row. *)
Lemma clean_customers_eq df :
  clean_customers df =
  List.filter (λ c, cell_cmp Qgeb (c_age c) 18 && cell_cmp Qleb (c_age c) 100)
    ((λ r, c_assign_region (fillna (Some "Unknown"%string))
             (c_assign_age (fillna (median (c_age <$> drop_duplicates c_id df)))
                (c_assign_name (fillna (Some "Unknown Customer"%string)) r)))
       <$> drop_duplicates c_id df).
Proof.
  unfold clean_customers. f_equal. rewrite <- !list_fmap_compose.
  apply list_fmap_ext. intros _ r _. done.
Qed.

Lemma clean_customers_rows df c :
  c ∈ clean_customers df ↔
  ∃ r, first_of c_id df r ∧
       c = c_assign_region (fillna (Some "Unknown"%string))
             (c_assign_age (fillna (median (c_age <$> drop_duplicates c_id df)))
                (c_assign_name (fillna (Some "Unknown Customer"%string)) r)) ∧
       cell_cmp Qgeb (c_age c) 18 && cell_cmp Qleb (c_age c) 100 = true.
Proof.
  rewrite clean_customers_eq, elem_of_mask, list_elem_of_fmap.
  setoid_rewrite elem_of_drop_duplicates. naive_solver.
Qed.

(** The same for products, lines 73-75. *)
Lemma clean_products_eq df :
  clean_products df =
  List.filter (λ p, cell_cmp Qgtb (p_price p) 0 && cell_cmp Qleb (p_price p) 10000)
    ((λ r, p_assign_supplier (fillna (Some "Unknown Supplier"%string))
             (p_assign_category (fillna (Some "Other"%string))
                (p_assign_name (fillna (Some "Unknown Product"%string)) r)))
       <$> drop_duplicates p_id df).
Proof.
  unfold clean_products. f_equal. rewrite <- !list_fmap_compose.
  apply list_fmap_ext. by intros _ r _.
Qed.

(** ** The median *)

Lemma median_sorted_rows col :
  merge_sort Qle (dropna col) ≡ₚ dropna col.
Proof. apply merge_sort_Permutation. Qed.

Lemma median_is_Some col : dropna col ≠ [] → is_Some (median col).
Proof.
  intros Hne. unfold median.
  pose proof (Permutation_length (median_sorted_rows col)) as Hlen.
  set (xs := merge_sort Qle (dropna col)) in *.
  assert (0 < length xs)%nat as Hpos.
  { rewrite Hlen. destruct (dropna col); [done|simpl; lia]. }
  assert (length xs / 2 < length xs)%nat by (apply Nat.div_lt; lia).
  destruct (Nat.even (length xs)).
  -     destruct (lookup_lt_is_Some_2 xs (length xs / 2 - 1)%nat) as [a ->]; [lia|].
    destruct (lookup_lt_is_Some_2 xs (length xs / 2)%nat) as [b ->]; [lia|].
    done.
  - by apply lookup_lt_is_Some_2.
Qed.

Lemma median_None col : dropna col = [] → median col = None.
Proof.
  intros Hnil. unfold median. by rewrite Hnil.
Qed.

Lemma median_between col lo hi m :
  Forall (λ v, lo <= v ∧ v <= hi)%Q (dropna col) →
  median col = Some m → (lo <= m ∧ m <= hi)%Q.
Proof.
  intros Hall. rewrite <- (median_sorted_rows col) in Hall.
  unfold median. set (xs := merge_sort Qle (dropna col)) in *.
  rewrite Forall_forall in Hall.
  destruct (Nat.even (length xs)).
  - destruct (xs !! _) as [a|] eqn:Ha; [|done].
    destruct (xs !! (length xs / 2)%nat) as [b|] eqn:Hb; [|done].
    intros [= <-].
    apply list_elem_of_lookup_2, Hall in Ha, Hb. simpl in Ha, Hb.
    destruct Ha, Hb. unfold Qdiv. change (/ 2)%Q with (1 # 2)%Q. split; lra.
  - intros Hm. by apply list_elem_of_lookup_2, Hall in Hm.
Qed.

(** ** What cleaning leaves in the tables *)

(** X1.  After [clean_data] no value is out of range: every customer's age
    is between 18 and 100, every product's price is above 0 and at most
    10000, every sale has a quantity and a total amount above 0, and no
    stock is negative. *)
Theorem cleaned_values_in_range rt (today : string) self self' :
  clean_data rt today self = (inr (), self') →
  ∃ customers products sales inventory,
    holds self' customers products sales inventory ∧
    (∀ c, c ∈ customers →
       ∃ age, c_age c = Some age ∧ (18 <= age)%Q ∧ (age <= 100)%Q) ∧
    (∀ p, p ∈ products →
       ∃ price, p_price p = Some price ∧ (0 < price)%Q ∧ (price <= 10000)%Q) ∧
    (∀ s, s ∈ sales →
       (∃ quantity, s_quantity s = Some quantity ∧ (0 < quantity)%Q) ∧
       (∃ total, s_total_amount s = Some total ∧ (0 < total)%Q)) ∧
    (∀ i stock, i ∈ inventory → i_current_stock i = Some stock → (0 <= stock)%Q).
Proof.
  intros (customers & products & sales & inventory & Hh & Hcl & _)
    %clean_data_returns.
  exists customers, products, sales, inventory. split; [done|].
  destruct Hcl as [_ Hc _ Hp _ Hs _ _ Hi _].
  rewrite Forall_forall in Hc. rewrite Forall_forall in Hp.
  rewrite Forall_forall in Hs. rewrite Forall_forall in Hi. repeat split.
  - intros c (_ & _ & Hage)%Hc. done.
  - intros p (_ & _ & _ & Hprice)%Hp. done.
  - by apply Hs.
  - by apply Hs.
  - intros i stock (Hstock & _)%Hi. apply Hstock.
Qed.

Lemma cleaned_values_in_range_witness :
  ∃ customers products sales inventory,
    holds (clean_data Iso.runtime Scenario.today Examples.orphan).2
      customers products sales inventory ∧
    (∀ c, c ∈ customers →
       ∃ age, c_age c = Some age ∧ (18 <= age)%Q ∧ (age <= 100)%Q) ∧
    (∀ p, p ∈ products →
       ∃ price, p_price p = Some price ∧ (0 < price)%Q ∧ (price <= 10000)%Q) ∧
    (∀ s, s ∈ sales →
       (∃ quantity, s_quantity s = Some quantity ∧ (0 < quantity)%Q) ∧
       (∃ total, s_total_amount s = Some total ∧ (0 < total)%Q)) ∧
    (∀ i stock, i ∈ inventory → i_current_stock i = Some stock → (0 <= stock)%Q).
Proof.
  apply (cleaned_values_in_range Iso.runtime Scenario.today Examples.orphan).
  vm_compute. reflexivity.
Defined.



(** ** Rows that come more than once *)

Lemma clean_products_rows df p :
  p ∈ clean_products df →
  ∃ r, first_of p_id df r ∧
       p = p_assign_supplier (fillna (Some "Unknown Supplier"%string))
             (p_assign_category (fillna (Some "Other"%string))
                (p_assign_name (fillna (Some "Unknown Product"%string)) r)) ∧
       cell_cmp Qgtb (p_price p) 0 && cell_cmp Qleb (p_price p) 10000 = true.
Proof.
  rewrite clean_products_eq, elem_of_mask, list_elem_of_fmap.
  setoid_rewrite elem_of_drop_duplicates. naive_solver.
Qed.

Lemma clean_sales_rows customers products df s :
  s ∈ clean_sales customers products df →
  ∃ r, first_of s_id df r ∧ s = s_assign_quantity (fillna (Some 1%Q)) r.
Proof.
  unfold clean_sales. rewrite !elem_of_mask, list_elem_of_fmap.
  intros (((r & -> & Hr) & _) & _). exists r. split; [|done].
  apply elem_of_mask in Hr as [Hr _]. by apply elem_of_drop_duplicates.
Qed.

Lemma to_datetime_rows rt (sales sales' : list Sale) :
  mapM (to_datetime_row rt) sales = Some sales' →
  ∀ s', s' ∈ sales' → ∃ s, s ∈ sales ∧ to_datetime_row rt s = Some s'.
Proof.
  intros Hdates%mapM_Some s' Hs'. apply list_elem_of_lookup in Hs' as [n Hn].
  destruct (Forall2_lookup_r _ _ _ _ _ Hdates Hn) as (s & Hl & Hrow).
  exists s. split; [|done]. apply list_elem_of_lookup. eauto.
Qed.

Lemma to_datetime_ids rt (sales sales' : list Sale) :
  mapM (to_datetime_row rt) sales = Some sales' →
  s_id <$> sales' = s_id <$> sales.
Proof.
  intros Hdates%mapM_Some.
  induction Hdates as [|s s' ? ? Hrow _ IH]; csimpl; [done|].
  apply to_datetime_row_spec in Hrow as (-> & _). by rewrite IH.
Qed.

(** X3.  [clean_data] keeps, of the rows of one id, the first.  No id
    comes twice in the cleaned customers, products or sales; and every
    cleaned row is the first row of its id in the table that was loaded,
    with its gaps filled (the date of a sale converted) and every other
    cell as it was. *)
Theorem cleaned_rows_are_first_rows rt (today : string) self self' :
  clean_data rt today self = (inr (), self') →
  ∃ customers0 products0 sales0 inventory0 customers products sales inventory,
    holds self customers0 products0 sales0 inventory0 ∧
    holds self' customers products sales inventory ∧
    NoDup (c_id <$> customers) ∧ NoDup (p_id <$> products) ∧
    NoDup (s_id <$> sales) ∧
    (∀ c, c ∈ customers →
       ∃ r, first_of c_id customers0 r ∧ c_id c = c_id r ∧
            c_name c = fillna (Some "Unknown Customer"%string) (c_name r) ∧
            c_region c = fillna (Some "Unknown"%string) (c_region r) ∧
            c_created_at c = c_created_at r ∧
            (is_Some (c_age r) → c_age c = c_age r)) ∧
    (∀ p, p ∈ products →
       ∃ r, first_of p_id products0 r ∧ p_id p = p_id r ∧
            p_name p = fillna (Some "Unknown Product"%string) (p_name r) ∧
            p_category p = fillna (Some "Other"%string) (p_category r) ∧
            p_supplier p = fillna (Some "Unknown Supplier"%string) (p_supplier r) ∧
            p_price p = p_price r ∧ p_created_at p = p_created_at r) ∧
    (∀ s, s ∈ sales →
       ∃ r, first_of s_id sales0 r ∧ s_id s = s_id r ∧
            s_customer_id s = s_customer_id r ∧
            s_product_id s = s_product_id r ∧
            s_quantity s = fillna (Some 1%Q) (s_quantity r) ∧
            s_total_amount s = s_total_amount r).
Proof.
  intros (customers0 & products0 & sales0 & inventory0 & sales & Hh & Hdates & ->)
    %clean_data_inv.
  do 8 eexists. split; [done|]. split; [done|].
  split; [apply clean_customers_unique|].
  split; [apply clean_products_unique|].
  split; [rewrite (to_datetime_ids _ _ _ Hdates); apply clean_sales_unique|].
  split; [|split].
  - intros c (r & Hr & -> & _)%clean_customers_rows. exists r.
    repeat split; try done. simpl. by intros [age ->].
  - intros p (r & Hr & -> & _)%clean_products_rows. by exists r.
  - intros s' (s & (r & Hr & ->)%clean_sales_rows & Hrow)
      %(to_datetime_rows _ _ _ Hdates).
    apply to_datetime_row_spec in Hrow as (-> & -> & -> & -> & -> & _).
    by exists r.
Qed.

Lemma cleaned_rows_are_first_rows_witness :
  ∃ customers0 products0 sales0 inventory0 customers products sales inventory,
    holds Cases.repeated customers0 products0 sales0 inventory0 ∧
    holds (clean_data Iso.runtime Scenario.today Cases.repeated).2
      customers products sales inventory ∧
    NoDup (c_id <$> customers) ∧ NoDup (p_id <$> products) ∧
    NoDup (s_id <$> sales) ∧
    (∀ c, c ∈ customers →
       ∃ r, first_of c_id customers0 r ∧ c_id c = c_id r ∧
            c_name c = fillna (Some "Unknown Customer"%string) (c_name r) ∧
            c_region c = fillna (Some "Unknown"%string) (c_region r) ∧
            c_created_at c = c_created_at r ∧
            (is_Some (c_age r) → c_age c = c_age r)) ∧
    (∀ p, p ∈ products →
       ∃ r, first_of p_id products0 r ∧ p_id p = p_id r ∧
            p_name p = fillna (Some "Unknown Product"%string) (p_name r) ∧
            p_category p = fillna (Some "Other"%string) (p_category r) ∧
            p_supplier p = fillna (Some "Unknown Supplier"%string) (p_supplier r) ∧
            p_price p = p_price r ∧ p_created_at p = p_created_at r) ∧
    (∀ s, s ∈ sales →
       ∃ r, first_of s_id sales0 r ∧ s_id s = s_id r ∧
            s_customer_id s = s_customer_id r ∧
            s_product_id s = s_product_id r ∧
            s_quantity s = fillna (Some 1%Q) (s_quantity r) ∧
            s_total_amount s = s_total_amount r).
Proof.
  apply (cleaned_rows_are_first_rows Iso.runtime Scenario.today Cases.repeated).
  vm_compute. reflexivity.
Defined.

(** X4.  The duplicates go before the outliers: a customer whose first row
    has an age below 18 or above 100 is dropped, and every sale of that
    customer with it, whatever the later rows of the same id say. *)
Theorem first_row_decides rt (today : string) self self' customers0 r age :
  clean_data rt today self = (inr (), self') →
  customers_df self = Some customers0 →
  first_of c_id customers0 r → c_age r = Some age →
  (age < 18 ∨ 100 < age)%Q →
  ∃ customers products sales inventory,
    holds self' customers products sales inventory ∧
    (c_id r ∉ c_id <$> customers) ∧ (c_id r ∉ s_customer_id <$> sales).
Proof.
  intros (customers0' & products0 & sales0 & inventory0 & sales & Hh & Hdates & ->)
    %clean_data_inv Hc0 Hr Hage Hout.
  destruct Hh as (Hc0' & _). rewrite Hc0 in Hc0'. injection Hc0' as <-.
  do 4 eexists. split; [done|].
  assert (c_id r ∉ c_id <$> clean_customers customers0) as Hgone.
  { intros (c & Hid & (r' & Hr' & -> & Hm)%clean_customers_rows)
      %list_elem_of_fmap. simpl in Hid.
    assert (r = r') as <- by eauto using first_of_unique.
    simpl in Hm. rewrite Hage in Hm. simpl in Hm.
    apply andb_true_iff in Hm as [?%Qgeb_le ?%Qleb_le]. lra. }
  split; [done|].
  intros (s' & Hid & (s & Hs & Hrow)%(to_datetime_rows _ _ _ Hdates))
    %list_elem_of_fmap.
  apply clean_sales_row in Hs as (Hin & _).
  apply to_datetime_row_spec in Hrow as (_ & Hcid & _). congruence.
Qed.

Lemma first_row_decides_witness :
  ∃ customers products sales inventory,
    holds (clean_data Iso.runtime Scenario.today Cases.repeated).2
      customers products sales inventory ∧
    (1 ∉ c_id <$> customers)%Z ∧ (1 ∉ s_customer_id <$> sales)%Z.
Proof.
  apply (first_row_decides Iso.runtime Scenario.today Cases.repeated
           (clean_data Iso.runtime Scenario.today Cases.repeated).2
           (default [] (customers_df Cases.repeated))
           (Examples.customer 1 17 "North") 17%Q).
  - vm_compute. reflexivity.
  - reflexivity.
  - exists 0%nat. split; [reflexivity|]. intros j r' Hj. lia.
  - reflexivity.
  - left. reflexivity.
Defined.

(** ** Ages that are missing *)

Lemma dropna_nil {A} (col : list (option A)) :
  Forall (λ c, c = None) col → dropna col = [].
Proof. induction 1 as [|? ? -> _ IH]; [done|]. by simpl. Qed.

(** X5.  When no customer has an age, the median that fills the gaps is
    itself missing: [clean_data] returns with the customers table and the
    sales table both empty. *)
Theorem no_age_at_all_drops_every_customer rt (today : string) self
    customers products sales inventory :
  holds self customers products sales inventory →
  Forall (λ c, c_age c = None) customers →
  ∃ self', clean_data rt today self = (inr (), self') ∧
           customers_df self' = Some [] ∧ sales_df self' = Some [].
Proof.
  intros Hh Hages.
  assert (clean_customers customers = []) as Hnone.
  { rewrite clean_customers_eq.
    rewrite median_None; cycle 1.
    { apply dropna_nil, Forall_fmap, Forall_forall. intros c Hc.
      apply elem_of_drop_duplicates, first_of_elem_of in Hc.
      rewrite Forall_forall in Hages. by apply Hages. }
    apply mask_none, Forall_fmap, Forall_forall. intros c Hc.
    apply elem_of_drop_duplicates, first_of_elem_of in Hc.
    rewrite Forall_forall in Hages. simpl. by rewrite (Hages c Hc). }
  assert (clean_sales [] (clean_products products) sales = []) as Hsales.
  { unfold clean_sales. rewrite (mask_none _ (drop_duplicates s_id sales)); [done|].
    apply Forall_forall. intros s _. unfold isin. simpl.
    rewrite bool_decide_eq_false_2; [done|]. set_solver. }
  rewrite (clean_data_loaded _ _ _ _ _ _ _ Hh). simpl.
  rewrite Hnone, Hsales. simpl. eauto.
Qed.

Lemma no_age_at_all_drops_every_customer_witness :
  ∃ self', clean_data Iso.runtime Scenario.today Cases.ageless = (inr (), self') ∧
           customers_df self' = Some [] ∧ sales_df self' = Some [].
Proof.
  apply (no_age_at_all_drops_every_customer Iso.runtime Scenario.today
           Cases.ageless
           (default [] (customers_df Cases.ageless))
           (default [] (products_df Cases.ageless))
           (default [] (sales_df Cases.ageless))
           (default [] (inventory_df Cases.ageless))).
  - repeat split.
  - repeat constructor.
Defined.

(** X6.  When the ages that are given all lie between 18 and 100 (and one
    is given at all, on a first row), the median does too: a customer
    without an age takes it and is kept, so that the age rule drops no
    customer. *)
Theorem median_fill_keeps_customers df :
  (∃ r, first_of c_id df r ∧ is_Some (c_age r)) →
  Forall (λ r, ∀ age, c_age r = Some age → 18 <= age ∧ age <= 100)%Q df →
  ∃ m, median (c_age <$> drop_duplicates c_id df) = Some m ∧
       (18 <= m ∧ m <= 100)%Q ∧
       c_id <$> clean_customers df = c_id <$> drop_duplicates c_id df ∧
       ∀ r, first_of c_id df r → c_age r = None →
            ∃ c, c ∈ clean_customers df ∧ c_id c = c_id r ∧ c_age c = Some m.
Proof.
  intros (r0 & Hr0 & age0 & Hage0) Hall.
  rewrite Forall_forall in Hall.
  destruct (median_is_Some (c_age <$> drop_duplicates c_id df)) as [m Hm].
  { intros Hnil.
    assert (age0 ∈ dropna (c_age <$> drop_duplicates c_id df)) as Hin.
    { apply list_elem_of_omap. exists (Some age0). split; [|done].
      apply list_elem_of_fmap. exists r0. split; [done|].
      by apply elem_of_drop_duplicates. }
    rewrite Hnil in Hin. by apply elem_of_nil in Hin. }
  assert (18 <= m ∧ m <= 100)%Q as Hrange.
  { eapply median_between; [|done].
    apply Forall_forall. intros v (cell & (r & -> & Hr)%list_elem_of_fmap & Hv)
      %list_elem_of_omap.
    apply (Hall r); [|done]. by apply elem_of_drop_duplicates, first_of_elem_of in Hr. }
  assert (clean_customers df =
    (λ r, c_assign_region (fillna (Some "Unknown"%string))
            (c_assign_age (fillna (Some m))
               (c_assign_name (fillna (Some "Unknown Customer"%string)) r)))
      <$> drop_duplicates c_id df) as Heq.
  { rewrite clean_customers_eq, Hm. apply mask_all, Forall_fmap, Forall_forall.
    intros r Hr. simpl. apply elem_of_drop_duplicates, first_of_elem_of in Hr.
    destruct (c_age r) as [age|] eqn:Hage; simpl.
    - destruct (Hall r Hr age Hage).
      apply andb_true_iff. by rewrite Qgeb_le, Qleb_le.
    - destruct Hrange. apply andb_true_iff. by rewrite Qgeb_le, Qleb_le. }
  exists m. split; [done|]. split; [done|]. split.
  - rewrite Heq, <- list_fmap_compose. by apply list_fmap_ext.
  - intros r Hr Hage. eexists. split.
    + rewrite Heq. apply list_elem_of_fmap_2. by apply elem_of_drop_duplicates.
    + simpl. by rewrite Hage.
Qed.

Lemma median_fill_keeps_customers_witness :
  ∃ m, median (c_age <$> drop_duplicates c_id Cases.gap) = Some m ∧
       (18 <= m ∧ m <= 100)%Q ∧
       c_id <$> clean_customers Cases.gap
       = c_id <$> drop_duplicates c_id Cases.gap ∧
       ∀ r, first_of c_id Cases.gap r → c_age r = None →
            ∃ c, c ∈ clean_customers Cases.gap ∧
                 c_id c = c_id r ∧ c_age c = Some m.
Proof.
  apply median_fill_keeps_customers.
  - exists (Examples.customer 1 30 "North"). split; [|by eexists].
    exists 0%nat. split; [reflexivity|]. intros j r' Hj. lia.
  - repeat first [apply Forall_nil_2 | apply Forall_cons_2];
      intros age Hage; simplify_eq/=; split; by vm_compute.
Defined.

(** ** Rows are dropped, never added *)

Lemma mask_key_sublist {A} (key : A → Z) (m : A → bool) (df : list A) :
  key <$> List.filter m df `sublist_of` key <$> df.
Proof. apply fmap_sublist, mask_sublist. Qed.

Lemma clean_customers_ids df :
  c_id <$> clean_customers df `sublist_of` c_id <$> df.
Proof.
  rewrite clean_customers_eq. etrans; [apply mask_key_sublist|].
  rewrite <- list_fmap_compose. apply fmap_sublist, drop_duplicates_sublist.
Qed.

Lemma clean_products_ids df :
  p_id <$> clean_products df `sublist_of` p_id <$> df.
Proof.
  rewrite clean_products_eq. etrans; [apply mask_key_sublist|].
  rewrite <- list_fmap_compose. apply fmap_sublist, drop_duplicates_sublist.
Qed.

Lemma clean_sales_ids customers products df :
  s_id <$> clean_sales customers products df `sublist_of` s_id <$> df.
Proof.
  unfold clean_sales. do 2 (etrans; [apply mask_key_sublist|]).
  rewrite <- list_fmap_compose. etrans; [apply mask_key_sublist|].
  apply fmap_sublist, drop_duplicates_sublist.
Qed.

(** X7.  [clean_data] adds no customer, product or sale: the ids of each
    cleaned table are ids of the table that was loaded, in the same order
    (a sublist).  Only the inventory table can grow. *)
Theorem cleaning_adds_no_row rt (today : string) self self' :
  clean_data rt today self = (inr (), self') →
  ∃ customers0 products0 sales0 inventory0 customers products sales inventory,
    holds self customers0 products0 sales0 inventory0 ∧
    holds self' customers products sales inventory ∧
    c_id <$> customers `sublist_of` c_id <$> customers0 ∧
    p_id <$> products `sublist_of` p_id <$> products0 ∧
    s_id <$> sales `sublist_of` s_id <$> sales0 ∧
    (length inventory0 ≤ length inventory)%nat.
Proof.
  intros (customers0 & products0 & sales0 & inventory0 & sales & Hh & Hdates & ->)
    %clean_data_inv.
  do 8 eexists. split; [done|]. split; [done|].
  split; [apply clean_customers_ids|]. split; [apply clean_products_ids|].
  split.
  - rewrite (to_datetime_ids _ _ _ Hdates). apply clean_sales_ids.
  - rewrite clean_inventory_eq, length_app, !length_fmap. lia.
Qed.

Lemma cleaning_adds_no_row_witness :
  ∃ customers0 products0 sales0 inventory0 customers products sales inventory,
    holds Cases.repeated customers0 products0 sales0 inventory0 ∧
    holds (clean_data Iso.runtime Scenario.today Cases.repeated).2
      customers products sales inventory ∧
    c_id <$> customers `sublist_of` c_id <$> customers0 ∧
    p_id <$> products `sublist_of` p_id <$> products0 ∧
    s_id <$> sales `sublist_of` s_id <$> sales0 ∧
    (length inventory0 ≤ length inventory)%nat.
Proof.
  apply (cleaning_adds_no_row Iso.runtime Scenario.today Cases.repeated).
  vm_compute. reflexivity.
Defined.

(** ** Products without an inventory row *)

(** X8.  [clean_data] appends to the inventory table one record for every
    cleaned product that has no row in it, and nothing else: the table it
    leaves is the table that was loaded, row by row repaired, followed by
    these records, each with stock 0, reorder level 10, maximum 100,
    turnover rate 1 and the day of the run. *)
Theorem missing_inventory_is_filled_in rt (today : string) self self' :
  clean_data rt today self = (inr (), self') →
  ∃ inventory0 products inventory added,
    inventory_df self = Some inventory0 ∧
    products_df self' = Some products ∧
    inventory_df self' = Some inventory ∧
    inventory = (repair_inventory <$> inventory0) ++ (new_record today <$> added) ∧
    NoDup added ∧
    ∀ k, k ∈ added ↔ k ∈ p_id <$> products ∧ k ∉ i_product_id <$> inventory0.
Proof.
  intros (customers0 & products0 & sales0 & inventory0 & sales & Hh & Hdates & ->)
    %clean_data_inv.
  destruct Hh as (_ & _ & _ & Hi).
  eexists inventory0, _, _, _. split; [done|]. split; [done|]. split; [done|].
  split; [|split].
  - by rewrite clean_inventory_eq.
  - apply NoDup_elements.
  - intros k. rewrite elem_of_elements. set_solver.
Qed.

Lemma missing_inventory_is_filled_in_witness :
  ∃ inventory0 products inventory added,
    inventory_df Examples.orphan = Some inventory0 ∧
    products_df (clean_data Iso.runtime Scenario.today Examples.orphan).2
      = Some products ∧
    inventory_df (clean_data Iso.runtime Scenario.today Examples.orphan).2
      = Some inventory ∧
    inventory = (repair_inventory <$> inventory0)
                ++ (new_record Scenario.today <$> added) ∧
    NoDup added ∧
    ∀ k, k ∈ added ↔ k ∈ p_id <$> products ∧ k ∉ i_product_id <$> inventory0.
Proof.
  apply (missing_inventory_is_filled_in Iso.runtime Scenario.today Examples.orphan).
  vm_compute. reflexivity.
Defined.

(** X9.  A cleaned product that had no inventory row is always reported at
    risk: its new record has stock 0 against a reorder level of 10, so
    [low_stock_products] holds a row for it. *)
Theorem product_without_inventory_is_at_risk rt (today : string) self self' :
  clean_data rt today self = (inr (), self') →
  ∃ inventory0 customers products sales inventory,
    inventory_df self = Some inventory0 ∧
    holds self' customers products sales inventory ∧
    ∀ p, p ∈ products → p_id p ∉ i_product_id <$> inventory0 →
      ∃ row, row ∈ low_stock_products_df inventory products ∧
             ls_product_id row = p_id p ∧ ls_name row = p_name p ∧
             ls_current_stock row = Some 0%Q ∧
             ls_reorder_level row = Some 10%Q.
Proof.
  intros (customers0 & products0 & sales0 & inventory0 & sales & Hh & Hdates & ->)
    %clean_data_inv.
  destruct Hh as (_ & _ & _ & Hi).
  eexists inventory0, _, _, _, _. split; [done|]. split; [done|].
  intros p Hp Hmissing.
  exists {| ls_product_id := p_id p; ls_name := p_name p;
            ls_category := p_category p; ls_current_stock := Some 0%Q;
            ls_reorder_level := Some 10%Q; ls_turnover_rate := Some 1%Q |}.
  split; [|done]. unfold low_stock_products_df.
  apply list_elem_of_fmap. exists (new_record today (p_id p), p).
  split; [done|]. apply elem_of_mask. split; [|done].
  apply merge_left_key. split; [|done].
  rewrite clean_inventory_eq. apply elem_of_app. right.
  apply list_elem_of_fmap. exists (p_id p). split; [done|].
  apply elem_of_elements, elem_of_difference. split.
  - apply elem_of_list_to_set, list_elem_of_fmap_2, Hp.
  - by rewrite elem_of_list_to_set.
Qed.

Lemma product_without_inventory_is_at_risk_witness :
  ∃ inventory0 customers products sales inventory,
    inventory_df Examples.orphan = Some inventory0 ∧
    holds (clean_data Iso.runtime Scenario.today Examples.orphan).2
      customers products sales inventory ∧
    ∀ p, p ∈ products → p_id p ∉ i_product_id <$> inventory0 →
      ∃ row, row ∈ low_stock_products_df inventory products ∧
             ls_product_id row = p_id p ∧ ls_name row = p_name p ∧
             ls_current_stock row = Some 0%Q ∧
             ls_reorder_level row = Some 10%Q.
Proof.
  apply (product_without_inventory_is_at_risk Iso.runtime Scenario.today
           Examples.orphan).
  vm_compute. reflexivity.
Defined.

(** ** Dates the parser refuses *)

Lemma mapM_is_Some_Forall {A B} (f : A → option B) (l : list A) :
  is_Some (mapM f l) ↔ Forall (λ x, is_Some (f x)) l.
Proof. apply mapM_is_Some. Qed.

(** X10.  [clean_data] returns exactly when the date of every sale that
    survives the rules of lines 85-102 parses: the dates are converted
    last, so a date the parser refuses does no harm on a sale that is
    dropped as a duplicate, for its customer or product, or for its
    quantity or amount. *)
Theorem clean_data_returns_iff rt (today : string) self
    customers products sales inventory :
  holds self customers products sales inventory →
  (∃ self', clean_data rt today self = (inr (), self')) ↔
  Forall (λ s, is_Some (to_datetime_row rt s))
    (clean_sales (clean_customers customers) (clean_products products) sales).
Proof.
  intros Hh. rewrite (clean_data_loaded _ _ _ _ _ _ _ Hh). simpl.
  rewrite <- mapM_is_Some_Forall.
  destruct (mapM _ _) as [sales'|]; split.
  - by eexists.
  - eauto.
  - intros [? [=]].
  - by intros [? [=]].
Qed.

Lemma clean_data_returns_iff_witness :
  (∃ self', clean_data Iso.runtime Scenario.today Cases.undated_orphan
            = (inr (), self')) ↔
  Forall (λ s, is_Some (to_datetime_row Iso.runtime s))
    (clean_sales
       (clean_customers (default [] (customers_df Cases.undated_orphan)))
       (clean_products (default [] (products_df Cases.undated_orphan)))
       (default [] (sales_df Cases.undated_orphan))).
Proof.
  apply (clean_data_returns_iff Iso.runtime Scenario.today Cases.undated_orphan
           _ _ _ (default [] (inventory_df Cases.undated_orphan))).
  repeat split.
Defined.

(** X11.  When the date of a surviving sale does not parse, [clean_data]
    raises at line 105 with its work half done: the customers and products
    tables are the cleaned ones and the sales table is filtered, its dates
    still text, while the inventory table and the stored metrics are as
    they were. *)
Theorem unparsed_date_leaves_cleaning_half_done rt (today : string) self
    customers products sales inventory :
  holds self customers products sales inventory →
  Exists (λ s, to_datetime_row rt s = None)
    (clean_sales (clean_customers customers) (clean_products products) sales) →
  clean_data rt today self =
    (inl (ParserError "date"%string),
     {| customers_df := Some (clean_customers customers);
        products_df := Some (clean_products products);
        sales_df :=
          Some (clean_sales (clean_customers customers) (clean_products products)
                  sales);
        inventory_df := Some inventory;
        processed_data := processed_data self |}).
Proof.
  intros Hh Hbad. rewrite (clean_data_loaded _ _ _ _ _ _ _ Hh). simpl.
  destruct (mapM _ _) as [sales'|] eqn:Hdates; [|done].
  assert (is_Some (mapM (to_datetime_row rt)
    (clean_sales (clean_customers customers) (clean_products products) sales)))
    as Hall by (by rewrite Hdates).
  apply mapM_is_Some_Forall in Hall. rewrite Forall_forall in Hall.
  apply Exists_exists in Hbad as (s & Hs & Hnone).
  destruct (Hall s Hs) as [? ?]. congruence.
Qed.

Lemma unparsed_date_leaves_cleaning_half_done_witness :
  clean_data Iso.runtime Scenario.today Cases.undated =
    (inl (ParserError "date"%string),
     {| customers_df := Some [Examples.customer 1 30 "North"];
        products_df := Some [Examples.product 11 "Atlas" "Books" 20];
        sales_df := Some [Examples.sale 100 1 11 "yesterday" 1 20];
        inventory_df := Some [];
        processed_data := None |}).
Proof.
  apply (unparsed_date_leaves_cleaning_half_done Iso.runtime Scenario.today
           Cases.undated [Examples.customer 1 30 "North"]
           [Examples.product 11 "Atlas" "Books" 20]
           [Examples.sale 100 1 11 "yesterday" 1 20;
            Examples.sale 101 7 11 "tomorrow" 1 20] []).
  - repeat split.
  - apply Exists_cons_hd. reflexivity.
Defined.

(** ** Counting rows group by group *)

Lemma Qsum_ones {A} (l : list A) : (Qsum ((λ _, 1) <$> l) == Qcount (length l))%Q.
Proof.
  induction l as [|x l IH]; csimpl; [done|]. rewrite IH, Qcount_S. lra.
Qed.

Lemma Qcount_plus n m : (Qcount (n + m) == Qcount n + Qcount m)%Q.
Proof. unfold Qcount. by rewrite Nat2Z.inj_add, inject_Z_plus. Qed.

Lemma Qcount_inj n m : (Qcount n == Qcount m)%Q → n = m.
Proof. unfold Qcount. intros Heq. by apply Nat2Z.inj, inject_Z_injective. Qed.

Lemma Qsum_counts {A} (f : A → nat) (l : list A) :
  (Qsum ((Qcount ∘ f) <$> l) == Qcount (sum_list_with f l))%Q.
Proof.
  induction l as [|x l IH]; csimpl; [done|]. by rewrite IH, Qcount_plus.
Qed.

(** Every row that has a key is in exactly one group. *)
Lemma groupby_count `{GroupKey K} {A} (key : A → option K) (df : list A) :
  Forall (λ r, is_Some (key r)) df →
  sum_list_with (λ kg, length kg.2) (groupby key df) = length df.
Proof.
  intros Hkeys. apply Qcount_inj.
  rewrite <- Qsum_counts, <- Qsum_ones, <- (groupby_sum key (λ _, 1%Q)) by done.
  apply Qsum_ext. intros kg _. simpl. by rewrite Qsum_ones.
Qed.


Lemma sum_list_with_fmap {A B} (f : B → nat) (g : A → B) (l : list A) :
  sum_list_with f (g <$> l) = sum_list_with (f ∘ g) l.
Proof. induction l as [|x l IH]; csimpl; [done|]. by rewrite IH. Qed.

Lemma sum_list_with_ext_in {A} (f g : A → nat) (l : list A) :
  (∀ x, x ∈ l → f x = g x) → sum_list_with f l = sum_list_with g l.
Proof.
  induction l as [|x l IH]; intros Hfg; csimpl; [done|].
  rewrite Hfg by left. rewrite IH; [done|]. intros y Hy. apply Hfg. by right.
Qed.

(** ** Keys come in increasing order *)

#[local] Instance Z_leb_total : Total (λ a b : Z, Is_true (key_leb a b)).
Proof.
  intros a b. simpl. destruct (Z.leb_spec a b); [by left|].
  right. apply Is_true_true, Z.leb_le. lia.
Qed.

Lemma Sorted_weaken {A} (R R' : relation A) (l : list A) :
  (∀ a b, R a b → R' a b) → Sorted R l → Sorted R' l.
Proof.
  intros HR. induction 1 as [|x l _ IH Hhd]; constructor; [done|].
  destruct Hhd; constructor. by apply HR.
Qed.



(** ** What generate_metrics stores *)

Lemma generate_metrics_stores rt (now : Z) self self' :
  generate_metrics rt now self = (inr (), self') →
  ∃ customers products sales inventory insights,
    holds self customers products sales inventory ∧
    forallb is_timestamp sales = true ∧
    generate_business_insights
      (revenue_by_region_df sales customers)
      (category_performance_df rt sales products)
      (age_group_analysis_df (customer_metrics_df now sales customers))
      (customer_metrics_df now sales customers)
      (low_stock_products_df inventory products)
    = inr insights ∧
    self' =
      {| customers_df := Some customers; products_df := Some products;
         sales_df := Some (with_year_month rt sales);
         inventory_df := Some inventory;
         processed_data :=
           Some {| revenue_by_region := revenue_by_region_df sales customers;
                   top_products := top_products_df rt sales products;
                   category_performance :=
                     category_performance_df rt sales products;
                   customer_metrics_summary :=
                     customer_metrics_summary_of
                       (customer_metrics_df now sales customers);
                   age_group_analysis :=
                     age_group_analysis_df
                       (customer_metrics_df now sales customers);
                   inventory_insights :=
                     {| low_stock_products :=
                          low_stock_products_df inventory products;
                        total_products_at_risk :=
                          length (low_stock_products_df inventory products);
                        turnover_by_category :=
                          turnover_analysis_df inventory products |};
                   monthly_trends :=
                     monthly_trends_df (with_year_month rt sales);
                   business_insights := insights |} |}.
Proof.
  run_method generate_metrics. intros Hrun.
  destruct (customers_df self) as [customers|] eqn:Hc; [|done].
  destruct (products_df self) as [products|] eqn:Hp; [|done].
  destruct (sales_df self) as [sales|] eqn:Hs; [|done].
  destruct (inventory_df self) as [inventory|] eqn:Hi; [|done].
  destruct (forallb is_timestamp sales) eqn:Hts; [|done].
  simpl in Hrun.
  destruct (generate_business_insights _ _ _ _ _) as [e|insights] eqn:Hins;
    [done|].
  injection Hrun as <-. exists customers, products, sales, inventory, insights.
  simpl. by rewrite Hc, Hp, Hi.
Qed.

(** ** Category performance *)





(** ** Monthly trends *)





(** ** Top products, counted *)

Lemma sales_with_product_key customers products sales inventory :
  cleaned customers products sales inventory →
  Forall (λ r : Sale * Product, is_Some (product_key r))
    (sales_with_product sales products).
Proof.
  intros Hcl. apply Forall_forall. intros [s p] (_ & Hp & _)%merge_left_key.
  destruct (cleaned_product Hcl p Hp) as ([name Hn] & [cat Hc] & _).
  unfold product_key. simpl. rewrite Hn, Hc. by eexists.
Qed.

Lemma top_products_agg_sold customers products sales inventory :
  cleaned customers products sales inventory →
  tp_product_id <$> top_products_agg sales products
  ≡ₚ remove_dups (s_product_id <$> sales).
Proof.
  intros Hcl. apply NoDup_Permutation.
  - apply top_products_agg_unique, Hcl.
  - apply NoDup_remove_dups.
  - intros x. rewrite elem_of_remove_dups, top_products_agg_ids.
    rewrite list_elem_of_fmap. setoid_rewrite elem_of_groupby_keys. split.
    + intros (k & -> & [s p] & Hin & Hk).
      apply merge_left_key in Hin as (Hs & _ & _).
      unfold product_key in Hk. simpl in Hk.
      destruct (p_name p); [|done]. destruct (p_category p); [|done].
      simpl in Hk. injection Hk as <-. simpl. by apply list_elem_of_fmap_2.
    + intros (s & -> & Hs)%list_elem_of_fmap.
      rewrite <- (sales_with_product_total _ _ _ _ Hcl) in Hs.
      apply list_elem_of_fmap in Hs as ([s' p] & -> & Hin).
      pose proof (sales_with_product_key _ _ _ _ Hcl) as Hkeys.
      rewrite Forall_forall in Hkeys. destruct (Hkeys _ Hin) as [k Hk].
      exists k. split; [|eauto].
      unfold product_key in Hk. simpl in Hk.
      destruct (p_name p); [|done]. destruct (p_category p); [|done].
      simpl in Hk. by injection Hk as <-.
Qed.

(** X14.  [top_products], on cleaned tables, has one row for each product
    that was sold, up to 20 of them.  When no more than 20 products were
    sold, it lists them all and its [number_of_sales] column counts every
    sale once. *)
Theorem top_products_lists_products_sold rt (today : string) (now : Z)
    self self1 self2 :
  sort_values_spec rt →
  clean_data rt today self = (inr (), self1) →
  generate_metrics rt now self1 = (inr (), self2) →
  ∃ sales bundle,
    sales_df self1 = Some sales ∧ processed_data self2 = Some bundle ∧
    let top := top_products bundle in
    let sold := remove_dups (s_product_id <$> sales) in
    length top = (20 `min` length sold)%nat ∧
    (∀ t, t ∈ top → tp_product_id t ∈ sold) ∧
    ((length sold ≤ 20)%nat →
       tp_product_id <$> top ≡ₚ sold ∧
       sum_list_with tp_number_of_sales top = length sales).
Proof.
  intros Hsort (customers & products & sales & inventory & Hh & Hcl & _)
    %clean_data_returns
    (customers' & products' & sales' & inventory' & insights & Hh' & _ & _ & ->)
    %generate_metrics_stores.
  destruct Hh as (Hc & Hp & Hs & Hi), Hh' as (Hc' & Hp' & Hs' & Hi').
  simplify_eq. exists sales. eexists. split; [done|]. split; [done|].
  cbn [top_products]. cbv zeta. unfold top_products_df.
  destruct (Hsort _ tp_total_revenue (top_products_agg sales products))
    as [Hperm _].
  pose proof (top_products_agg_sold _ _ _ _ Hcl) as Hsold.
  assert (length (sort_values_desc rt tp_total_revenue
                    (top_products_agg sales products))
          = length (remove_dups (s_product_id <$> sales))) as Hlen.
  { by rewrite Hperm, <- Hsold, length_fmap. }
  split; [by rewrite length_take, Hlen|]. split.
  - intros t (i & Ht%list_elem_of_lookup_2 & _)%elem_of_take.
    rewrite Hperm in Ht.
    rewrite <- Hsold. by apply list_elem_of_fmap_2.
  - intros Hfew. rewrite take_ge by lia. rewrite Hperm. split; [done|].
    unfold top_products_agg. rewrite sum_list_with_fmap.
    rewrite (sum_list_with_ext_in _ (λ kg, length kg.2)) by (by intros []).
    rewrite groupby_count by (eapply sales_with_product_key, Hcl).
    rewrite <- (sales_with_product_total _ _ _ _ Hcl) at 2.
    by rewrite length_fmap.
Qed.

Lemma top_products_lists_products_sold_witness :
  ∃ sales bundle,
    sales_df (clean_data Iso.runtime Scenario.today Examples.tie).2 = Some sales ∧
    processed_data
      (run_stages Iso.runtime Scenario.today Scenario.now Examples.tie).2
      = Some bundle ∧
    let top := top_products bundle in
    let sold := remove_dups (s_product_id <$> sales) in
    length top = (20 `min` length sold)%nat ∧
    (∀ t, t ∈ top → tp_product_id t ∈ sold) ∧
    ((length sold ≤ 20)%nat →
       tp_product_id <$> top ≡ₚ sold ∧
       sum_list_with tp_number_of_sales top = length sales).
Proof.
  apply (top_products_lists_products_sold Iso.runtime Scenario.today
           Scenario.now Examples.tie).
  - apply sort_stable_spec.
  - vm_compute. reflexivity.
  - vm_compute. reflexivity.
Defined.

(** ** The customer summary *)

Lemma mask_split_length {A} (m : A → bool) (df : list A) :
  (length (List.filter (negb ∘ m) df) + length (List.filter m df))%nat
  = length df.
Proof.
  induction df as [|r df IH]; [done|]. simpl. destruct (m r); simpl; lia.
Qed.

Lemma mask_length_le {A} (m : A → bool) (df : list A) :
  (length (List.filter m df) ≤ length df)%nat.
Proof. induction df as [|r df IH]; [done|]. simpl. destruct (m r); simpl; lia. Qed.

Lemma customer_metrics_of_regions now sales customers :
  revenue_by_region_df sales customers ≠ [] →
  customer_metrics_df now sales customers ≠ [].
Proof.
  intros Hne Hnil. apply Hne. unfold revenue_by_region_df, revenue_by_region_agg.
  apply fmap_nil_inv in Hnil.
  destruct (merge s_customer_id c_id sales customers) as [|[s c] rest] eqn:Hm;
    [done|].
  assert ((s, c) ∈ merge s_customer_id c_id sales customers) as Hin
    by (rewrite Hm; left).
  apply merge_left_key in Hin as (Hs & Hc & Hid).
  assert (((s_customer_id s,
            List.filter (λ r, bool_decide ((Some ∘ s_customer_id) r
                                           = Some (s_customer_id s))) sales), c)
          ∈ merge fst c_id (groupby (Some ∘ s_customer_id) sales) customers)
    as Hrow.
  { apply merge_left_key. split; [|done]. apply elem_of_groupby. eauto. }
  rewrite Hnil in Hrow. by apply elem_of_nil in Hrow.
Qed.

(** X15.  The customer summary is consistent: active and churned customers
    add up to the total, and the churn rate is the share of churned
    customers, a number between 0 and 1. *)
Theorem customer_summary_is_consistent rt (now : Z) self self' :
  generate_metrics rt now self = (inr (), self') →
  ∃ bundle,
    processed_data self' = Some bundle ∧
    let summary := customer_metrics_summary bundle in
    (active_customers summary + churned_customers summary)%nat
      = total_customers summary ∧
    (0 < total_customers summary)%nat ∧
    ∃ rate, churn_rate summary = Some rate ∧
            (rate == Qcount (churned_customers summary)
                     / Qcount (total_customers summary))%Q ∧
            (0 <= rate)%Q ∧ (rate <= 1)%Q.
Proof.
  intros (customers & products & sales & inventory & insights & Hh & _ & Hins & ->)
    %generate_metrics_stores.
  eexists. split; [done|]. cbn [customer_metrics_summary]. cbv zeta.
  set (cm := customer_metrics_df now sales customers).
  assert (cm ≠ []) as Hne.
  { apply customer_metrics_of_regions.
    apply generate_business_insights_inr in Hins as (? & ? & ? & Hreg & _).
    by apply regional_insights_inr in Hreg. }
  unfold customer_metrics_summary_of.
  cbn [active_customers churned_customers total_customers churn_rate].
  split; [apply mask_split_length|].
  assert (0 < length cm)%nat as Hpos by (destruct cm; [done|simpl; lia]).
  split; [done|].
  destruct (is_churned_mean cm) as [rate|] eqn:Hrate;
    [|by apply is_churned_mean_None in Hrate].
  exists rate. split; [done|].
  apply is_churned_mean_share in Hrate as [_ Hrate]. split; [done|].
  pose proof (mask_length_le cm_is_churned cm) as Hle.
  pose proof (Qcount_pos _ Hpos) as Hq.
  assert (0 <= Qcount (length (List.filter cm_is_churned cm)))%Q as Hq0.
  { unfold Qcount. change 0%Q with (inject_Z 0). rewrite <- Zle_Qle. lia. }
  assert (Qcount (length (List.filter cm_is_churned cm)) <= Qcount (length cm))%Q
    as Hq1.
  { unfold Qcount. rewrite <- Zle_Qle. lia. }
  rewrite Hrate. split.
  - apply Qle_shift_div_l; [done|]. lra.
  - apply Qle_shift_div_r; [done|]. lra.
Qed.

Lemma customer_summary_is_consistent_witness :
  ∃ bundle,
    processed_data
      (generate_metrics Iso.runtime Scenario.now Examples.one_buyer_cleaned).2
      = Some bundle ∧
    let summary := customer_metrics_summary bundle in
    (active_customers summary + churned_customers summary)%nat
      = total_customers summary ∧
    (0 < total_customers summary)%nat ∧
    ∃ rate, churn_rate summary = Some rate ∧
            (rate == Qcount (churned_customers summary)
                     / Qcount (total_customers summary))%Q ∧
            (0 <= rate)%Q ∧ (rate <= 1)%Q.
Proof.
  apply (customer_summary_is_consistent Iso.runtime Scenario.now
           Examples.one_buyer_cleaned).
  vm_compute. reflexivity.
Defined.

(** ** The insights, as a list *)

(** X16.  The insights come in the order of the rules, each at most once,
    and "Category Dominance" is always among them: between one and five
    insights. *)
Theorem insights_follow_the_rules rbr cp aga cm lsp insights :
  generate_business_insights rbr cp aga cm lsp = inr insights →
  insights `sublist_of` rule_order ∧
  category_dominance ∈ insights ∧
  (1 ≤ length insights ≤ 5)%nat ∧
  NoDup (title <$> insights).
Proof.
  intros (regional & categorical & segment & Hr & Hc & Ha & ->)
    %generate_business_insights_inr.
  apply regional_insights_cases in Hr.
  apply category_insights_cases in Hc as ->.
  apply age_group_insights_cases in Ha.
  destruct Hr as [-> | ->], Ha as [-> | ->],
    (inventory_rule_cases lsp) as [-> | ->],
    (churn_insights_cases cm) as [-> | ->]; simpl;
    (split; [unfold rule_order;
             repeat first [apply sublist_nil | apply sublist_skip
                          | apply sublist_cons]|]);
    (split; [set_solver|]); (split; [lia|]);
    repeat (apply NoDup_cons_2; [set_solver|]); apply NoDup_nil_2.
Qed.

Lemma insights_follow_the_rules_witness :
  [regional_performance_leader; category_dominance; customer_retention_concern]
    `sublist_of` rule_order ∧
  category_dominance
    ∈ [regional_performance_leader; category_dominance;
       customer_retention_concern] ∧
  (1 ≤ length [regional_performance_leader; category_dominance;
               customer_retention_concern] ≤ 5)%nat ∧
  NoDup (title <$> [regional_performance_leader; category_dominance;
                    customer_retention_concern]).
Proof.
  apply (insights_follow_the_rules
           [("East"%string, Examples.region_row 100);
            ("West"%string, Examples.region_row 10)]
           Examples.one_category []
           (Examples.metric 0 true :: Examples.three_in_ten) []).
  vm_compute. reflexivity.
Defined.

(** ** What generate_metrics leaves alone *)

(** X17.  Whether it returns or raises, [generate_metrics] leaves the
    customers, products and inventory tables as they are; the sales table
    is as it was or has gained its [year_month] column, every other cell
    unchanged; and the stored metrics are replaced only when the method
    returns. *)
Theorem generate_metrics_touches_only_sales rt (now : Z) self r self' :
  generate_metrics rt now self = (r, self') →
  customers_df self' = customers_df self ∧
  products_df self' = products_df self ∧
  inventory_df self' = inventory_df self ∧
  (sales_df self' = sales_df self ∨
   sales_df self' = with_year_month rt <$> sales_df self) ∧
  (∀ e, r = inl e → processed_data self' = processed_data self).
Proof.
  run_method generate_metrics. intros Hrun.
  destruct (customers_df self) as [customers|] eqn:Hc;
    [|by unfold raise in Hrun; simplify_eq; auto 10].
  destruct (products_df self) as [products|] eqn:Hp;
    [|by unfold raise in Hrun; simplify_eq; auto 10].
  destruct (sales_df self) as [sales|] eqn:Hs;
    [|by unfold raise in Hrun; simplify_eq; auto 10].
  destruct (inventory_df self) as [inventory|] eqn:Hi;
    [|by unfold raise in Hrun; simplify_eq; auto 10].
  destruct (forallb is_timestamp sales);
    [|by unfold raise in Hrun; simplify_eq; auto 10].
  simpl in Hrun.
  destruct (generate_business_insights _ _ _ _ _) as [e|insights];
    unfold raise, set_processed_data in Hrun; simplify_eq; simpl;
    rewrite ?Hc, ?Hp, ?Hi; repeat split; auto; done.
Qed.

Lemma generate_metrics_touches_only_sales_witness :
  let self := (clean_data Iso.runtime Scenario.today Examples.no_sales).2 in
  let run := generate_metrics Iso.runtime Scenario.now self in
  customers_df run.2 = customers_df self ∧
  products_df run.2 = products_df self ∧
  inventory_df run.2 = inventory_df self ∧
  (sales_df run.2 = sales_df self ∨
   sales_df run.2 = with_year_month Iso.runtime <$> sales_df self) ∧
  (∀ e, run.1 = inl e → processed_data run.2 = processed_data self).
Proof.
  apply (generate_metrics_touches_only_sales Iso.runtime Scenario.now).
  vm_compute. reflexivity.
Defined.

(** ** The inventory insights *)

(** X18.  The inventory part of the bundle is consistent with the insight
    list: [total_products_at_risk] is the number of rows of
    [low_stock_products], each of which has a stock at or below its
    reorder level, and the "Inventory Risk Alert" is among the insights
    exactly when that number is not 0. *)
Theorem risk_alert_iff_products_at_risk rt (now : Z) self self' :
  generate_metrics rt now self = (inr (), self') →
  ∃ bundle,
    processed_data self' = Some bundle ∧
    let risks := inventory_insights bundle in
    total_products_at_risk risks = length (low_stock_products risks) ∧
    (∀ row, row ∈ low_stock_products risks →
       ∃ stock level, ls_current_stock row = Some stock ∧
                      ls_reorder_level row = Some level ∧ (stock <= level)%Q) ∧
    (emits (business_insights bundle) "Inventory Risk Alert"
     ↔ (0 < total_products_at_risk risks)%nat).
Proof.
  intros (customers & products & sales & inventory & insights & Hh & _ & Hins & ->)
    %generate_metrics_stores.
  eexists. split; [done|].
  cbn [inventory_insights business_insights total_products_at_risk
       low_stock_products]. cbv zeta.
  split; [done|]. split.
  - intros row ([i p] & -> & [_ Hm]%elem_of_mask)%list_elem_of_fmap.
    simpl in *. destruct (i_current_stock i) as [stock|]; [|done].
    destruct (i_reorder_level i) as [level|]; [|done].
    exists stock, level. by rewrite <- Qleb_le.
  - rewrite (emits_by_rule _ _ _ _ _ _ _ Hins). unfold inventory_rule.
    case_bool_decide; split; try lia;
      intuition (try discriminate; try congruence).
Qed.

Lemma risk_alert_iff_products_at_risk_witness :
  ∃ bundle,
    processed_data
      (generate_metrics Iso.runtime Scenario.now Examples.one_buyer_cleaned).2
      = Some bundle ∧
    let risks := inventory_insights bundle in
    total_products_at_risk risks = length (low_stock_products risks) ∧
    (∀ row, row ∈ low_stock_products risks →
       ∃ stock level, ls_current_stock row = Some stock ∧
                      ls_reorder_level row = Some level ∧ (stock <= level)%Q) ∧
    (emits (business_insights bundle) "Inventory Risk Alert"
     ↔ (0 < total_products_at_risk risks)%nat).
Proof.
  apply (risk_alert_iff_products_at_risk Iso.runtime Scenario.now
           Examples.one_buyer_cleaned).
  vm_compute. reflexivity.
Defined.

(** ** load_data *)

(** X19.  [load_data] returns exactly when the four files are read.  When
    one is not, the exception is that of the first file that fails, and
    the object keeps the tables read before it: a table whose file comes
    later, and the stored metrics, are as they were. *)
Theorem load_data_stops_at_first_failure dir self r self' :
  load_data dir self = (r, self') →
  processed_data self' = processed_data self ∧
  match customers_csv dir, products_csv dir, sales_csv dir, inventory_csv dir with
  | inr customers, inr products, inr sales, inr inventory =>
      r = inr () ∧ holds self' customers products sales inventory
  | inr customers, inr products, inr sales, inl e =>
      r = inl e ∧ customers_df self' = Some customers ∧
      products_df self' = Some products ∧ sales_df self' = Some sales ∧
      inventory_df self' = inventory_df self
  | inr customers, inr products, inl e, _ =>
      r = inl e ∧ customers_df self' = Some customers ∧
      products_df self' = Some products ∧ sales_df self' = sales_df self ∧
      inventory_df self' = inventory_df self
  | inr customers, inl e, _, _ =>
      r = inl e ∧ customers_df self' = Some customers ∧
      products_df self' = products_df self ∧ sales_df self' = sales_df self ∧
      inventory_df self' = inventory_df self
  | inl e, _, _, _ => r = inl e ∧ self' = self
  end.
Proof.
  unfold load_data. intros Hrun.
  destruct (customers_csv dir), (products_csv dir), (sales_csv dir),
    (inventory_csv dir); simplify_eq; done.
Qed.

Lemma load_data_stops_at_first_failure_witness :
  let run := load_data Cases.no_sales_file Examples.no_sales in
  processed_data run.2 = processed_data Examples.no_sales ∧
  run.1 = inl (FileNotFoundError "../data/sales.csv") ∧
  customers_df run.2 = Some [Examples.customer 1 30 "North"] ∧
  products_df run.2
    = Some [Examples.product 11 "Atlas" "Books" 20;
            Examples.product 12 "Bible" "Books" 20] ∧
  sales_df run.2 = sales_df Examples.no_sales ∧
  inventory_df run.2 = inventory_df Examples.no_sales.
Proof.
  apply (load_data_stops_at_first_failure Cases.no_sales_file Examples.no_sales).
  reflexivity.
Defined.

Lemma load_data_inr dir self self' :
  load_data dir self = (inr (), self') ↔
  ∃ customers products sales inventory,
    customers_csv dir = inr customers ∧ products_csv dir = inr products ∧
    sales_csv dir = inr sales ∧ inventory_csv dir = inr inventory ∧
    self' = {| customers_df := Some customers; products_df := Some products;
               sales_df := Some sales; inventory_df := Some inventory;
               processed_data := processed_data self |}.
Proof.
  unfold load_data.
  destruct (customers_csv dir), (products_csv dir), (sales_csv dir),
    (inventory_csv dir); simpl; split;
    try (intros (? & ? & ? & ? & ? & ? & ? & ? & ?)); try intros [=];
    simplify_eq; try done.
  by do 4 eexists.
Qed.

Lemma load_data_inl dir self e self' :
  load_data dir self = (inl e, self') →
  inventory_df self' = inventory_df self ∧
  processed_data self' = processed_data self.
Proof.
  unfold load_data. intros Hrun.
  destruct (customers_csv dir), (products_csv dir), (sales_csv dir),
    (inventory_csv dir); simplify_eq; done.
Qed.

(** X20.  On a fresh object the guard of [clean_data] fires exactly when
    [load_data] has raised: a load that returned leaves nothing for the
    guard to find, and a load that failed has not stored the inventory
    table, whichever file it failed on. *)
Theorem guard_fires_iff_load_failed dir rt (today : string) r self :
  load_data dir init = (r, self) →
  (∃ e, r = inl e) ↔
  clean_data rt today self = (inl (ValueError not_loaded), self).
Proof.
  intros Hload. split.
  - intros [e ->]. apply load_data_inl in Hload as [Hi _].
    apply clean_data_not_loaded. auto.
  - intros Hguard. destruct r as [e|[]]; [eauto|].
    apply load_data_inr in Hload
      as (customers & products & sales & inventory & _ & _ & _ & _ & ->).
    rewrite (clean_data_loaded _ _ _ customers products sales inventory)
      in Hguard by done.
    simpl in Hguard. destruct (mapM _ _); done.
Qed.

Lemma guard_fires_iff_load_failed_witness :
  (∃ e, (load_data Cases.no_sales_file init).1 = inl e) ↔
  clean_data Iso.runtime Scenario.today (load_data Cases.no_sales_file init).2
  = (inl (ValueError not_loaded), (load_data Cases.no_sales_file init).2).
Proof.
  apply (guard_fires_iff_load_failed Cases.no_sales_file).
  reflexivity.
Defined.

(** ** export_data *)

Lemma clean_data_keeps_metrics rt (today : string) self r self' :
  clean_data rt today self = (r, self') →
  processed_data self' = processed_data self.
Proof.
  intros Hrun.
  destruct (customers_df self) as [customers|] eqn:Hc;
    [|rewrite clean_data_not_loaded in Hrun by auto; by simplify_eq].
  destruct (products_df self) as [products|] eqn:Hp;
    [|rewrite clean_data_not_loaded in Hrun by auto; by simplify_eq].
  destruct (sales_df self) as [sales|] eqn:Hs;
    [|rewrite clean_data_not_loaded in Hrun by auto; by simplify_eq].
  destruct (inventory_df self) as [inventory|] eqn:Hi;
    [|rewrite clean_data_not_loaded in Hrun by auto; by simplify_eq].
  rewrite (clean_data_loaded _ _ _ customers products sales inventory) in Hrun
    by done.
  simpl in Hrun. destruct (mapM _ _); by simplify_eq.
Qed.

Lemma generate_metrics_inl_keeps_metrics rt (now : Z) self e self' :
  generate_metrics rt now self = (inl e, self') →
  processed_data self' = processed_data self.
Proof.
  run_method generate_metrics. unfold raise. intros Hrun.
  destruct (customers_df self), (products_df self), (sales_df self) as [sales|],
    (inventory_df self); try by simplify_eq.
  destruct (forallb is_timestamp sales); [|by simplify_eq].
  simpl in Hrun. destruct (generate_business_insights _ _ _ _ _);
    unfold set_processed_data in Hrun; by simplify_eq.
Qed.

Lemma export_data_metrics self self' :
  processed_data self' = processed_data self →
  export_data self' = export_data self.
Proof. unfold export_data. by intros ->. Qed.

(** X21.  [export_data] writes a finished run or nothing new: what it
    writes depends on the stored metrics alone, which [clean_data] never
    changes and [generate_metrics] changes only when it returns.  After a
    stage has raised, the files are those of the run before. *)
Theorem export_data_after_a_failed_stage rt (today : string) (now : Z)
    self e self' :
  clean_data rt today self = (inl e, self') ∨
  generate_metrics rt now self = (inl e, self') ∨
  run_stages rt today now self = (inl e, self') →
  export_data self' = export_data self.
Proof.
  intros [Hrun|[Hrun|Hrun]]; apply export_data_metrics.
  - by eapply clean_data_keeps_metrics.
  - by eapply generate_metrics_inl_keeps_metrics.
  - revert Hrun. run_method run_stages.
    destruct (clean_data rt today self) as [[e1|[]] self1] eqn:Hclean.
    + intros [= <- <-]. by eapply clean_data_keeps_metrics.
    + intros Hgen. apply generate_metrics_inl_keeps_metrics in Hgen.
      apply clean_data_keeps_metrics in Hclean. congruence.
Qed.

Lemma export_data_after_a_failed_stage_witness :
  export_data
    (run_stages Iso.runtime Scenario.today Scenario.now Examples.no_sales).2
  = export_data Examples.no_sales.
Proof.
  apply (export_data_after_a_failed_stage Iso.runtime Scenario.today
           Scenario.now Examples.no_sales empty_argmax).
  right. right. vm_compute. reflexivity.
Defined.

Lemma endpoints_data_inj d d' : endpoints_data d' = endpoints_data d → d' = d.
Proof.
  destruct d, d'. unfold endpoints_data. simpl.
  by intros [= -> -> -> -> -> -> -> ->].
Qed.

(** X22.  What [export_data] leaves on disk.  Without stored metrics it
    writes metrics.json, holding the empty dict, and then raises
    [KeyError]: no endpoint file is written.  With a bundle it returns,
    having written nine files of distinct names, metrics.json first; the
    eight endpoint files hold between them all of the bundle. *)
Theorem export_data_files self r files :
  export_data self = (r, files) →
  files !! 0%nat = Some ("metrics.json"%string, Metrics (processed_data self)) ∧
  NoDup (fst <$> files) ∧
  match processed_data self with
  | None => r = inl (KeyError "revenue_by_region") ∧ length files = 1%nat
  | Some d =>
      r = inr () ∧ length files = 9%nat ∧
      ∀ d', endpoints_data d' = drop 1 files → d' = d
  end.
Proof.
  unfold export_data. intros Hrun.
  destruct (processed_data self) as [d|]; simplify_eq; simpl.
  - split; [done|]. split.
    + repeat (apply NoDup_cons_2; [set_solver|]). apply NoDup_nil_2.
    + split; [done|]. split; [done|]. apply endpoints_data_inj.
  - split; [done|]. split; [|done].
    apply NoDup_singleton.
Qed.

Lemma export_data_files_witness :
  (export_data init).2 !! 0%nat = Some ("metrics.json"%string, Metrics None) ∧
  NoDup (fst <$> (export_data init).2) ∧
  (export_data init).1 = inl (KeyError "revenue_by_region") ∧
  length (export_data init).2 = 1%nat.
Proof.
  apply (export_data_files init). reflexivity.
Defined.

(** ** run_pipeline *)

Lemma to_datetime_length rt (sales sales' : list Sale) :
  mapM (to_datetime_row rt) sales = Some sales' → length sales' = length sales.
Proof. intros Hm%mapM_Some. symmetry. by eapply Forall2_length. Qed.

Lemma run_pipeline_inr dir rt (today : string) (now : Z) self summary self' files :
  run_pipeline dir rt today now self = (inr summary, self', files) ↔
  ∃ self0 self1 d,
    load_data dir self = (inr (), self0) ∧
    clean_data rt today self0 = (inr (), self1) ∧
    generate_metrics rt now self1 = (inr (), self') ∧
    processed_data self' = Some d ∧
    summary = summary_of d ∧
    files = ("metrics.json"%string, Metrics (Some d)) :: endpoints_data d.
Proof.
  unfold run_pipeline, export_data. split.
  - destruct (load_data dir self) as [[e0|[]] self0]; [done|].
    destruct (clean_data rt today self0) as [[e1|[]] self1] eqn:Hclean; [done|].
    destruct (generate_metrics rt now self1) as [[e2|[]] self2] eqn:Hgen;
      [done|].
    destruct (processed_data self2) as [d|] eqn:Hd; [|done].
    intros [= <- <- <-]. by exists self0, self1, d.
  - intros (self0 & self1 & d & -> & -> & -> & -> & -> & ->). done.
Qed.

Lemma run_pipeline_inl dir rt (today : string) (now : Z) self e self' files :
  run_pipeline dir rt today now self = (inl e, self', files) → files = [].
Proof.
  unfold run_pipeline, export_data.
  destruct (load_data dir self) as [[e0|[]] self0]; [by intros [=]|].
  destruct (clean_data rt today self0) as [[e1|[]] self1]; [by intros [=]|].
  destruct (generate_metrics rt now self1) as [[e2|[]] self2] eqn:Hgen;
    [by intros [=]|].
  apply generate_metrics_inv in Hgen
    as (? & ? & ? & ? & bundle & _ & _ & _ & _ & Hd & _).
  rewrite Hd. by intros [=].
Qed.

(** X23.  [run_pipeline] exports all or nothing: when it raises, whichever
    of [load_data], [clean_data] and [generate_metrics] raised, no file
    has been written ([export_data] finds its keys once [generate_metrics]
    has returned); when it returns, the nine files are written from the
    bundle the object then holds, and the summary is read off the same
    bundle. *)
Theorem run_pipeline_all_or_nothing dir rt (today : string) (now : Z)
    self r self' files :
  run_pipeline dir rt today now self = (r, self', files) →
  match r with
  | inl e => files = []
  | inr summary =>
      ∃ d, processed_data self' = Some d ∧ summary = summary_of d ∧
           files = ("metrics.json"%string, Metrics (Some d)) :: endpoints_data d
  end.
Proof.
  intros Hrun. destruct r as [e|summary].
  - by eapply run_pipeline_inl.
  - apply run_pipeline_inr in Hrun as (? & ? & d & _ & _ & _ & ? & ? & ?).
    eauto.
Qed.

Lemma run_pipeline_all_or_nothing_witness :
  (run_pipeline Cases.no_sales_file Iso.runtime Scenario.today Scenario.now
     init).2 = [].
Proof.
  apply (run_pipeline_all_or_nothing Cases.no_sales_file Iso.runtime
           Scenario.today Scenario.now init
           (inl (FileNotFoundError "../data/sales.csv"))
           (run_pipeline Cases.no_sales_file Iso.runtime Scenario.today
              Scenario.now init).1.2).
  vm_compute. reflexivity.
Defined.

(** X24.  [run_pipeline] returns exactly when the four files are read, the
    date of every sale that survives cleaning parses, and at least one
    sale survives. *)
Theorem run_pipeline_returns_iff dir rt (today : string) (now : Z) self :
  sort_values_spec rt →
  (∃ summary self' files,
     run_pipeline dir rt today now self = (inr summary, self', files)) ↔
  ∃ customers products sales inventory,
    customers_csv dir = inr customers ∧ products_csv dir = inr products ∧
    sales_csv dir = inr sales ∧ inventory_csv dir = inr inventory ∧
    let kept :=
      clean_sales (clean_customers customers) (clean_products products) sales in
    Forall (λ s, is_Some (to_datetime_row rt s)) kept ∧ kept ≠ [].
Proof.
  intros Hsort. split.
  - intros (summary & self' & files & Hrun).
    apply run_pipeline_inr in Hrun
      as (self0 & self1 & d & Hload & Hclean & Hgen & _).
    apply load_data_inr in Hload
      as (customers & products & sales & inventory & Hc & Hp & Hs & Hi & ->).
    exists customers, products, sales, inventory. do 4 (split; [done|]).
    cbv zeta.
    rewrite (clean_data_loaded _ _ _ customers products sales inventory)
      in Hclean by done.
    simpl in Hclean. rewrite <- mapM_is_Some_Forall.
    destruct (mapM _ _) as [sales'|] eqn:Hdates; [|done].
    split; [done|]. simplify_eq.
    apply generate_metrics_inv in Hgen
      as (? & ? & sales1 & ? & bundle & Hh & _ & _ & _ & _ & _ & _ & _ & _ & _
          & _ & Hins).
    destruct Hh as (_ & _ & Hs1 & _). simpl in Hs1. simplify_eq.
    apply generate_business_insights_inr in Hins as (? & ? & ? & Hreg & _).
    apply regional_insights_inr, revenue_by_region_has_sales in Hreg.
    intros Hnil. apply to_datetime_length in Hdates. rewrite Hnil in Hdates.
    by destruct sales1.
  - intros (customers & products & sales & inventory & Hc & Hp & Hs & Hi
            & Hdates & Hne).
    set (self0 :=
      {| customers_df := Some customers; products_df := Some products;
         sales_df := Some sales; inventory_df := Some inventory;
         processed_data := processed_data self |}).
    assert (load_data dir self = (inr (), self0)) as Hload.
    { apply load_data_inr. by exists customers, products, sales, inventory. }
    apply mapM_is_Some_Forall in Hdates as [sales' Hdates].
    assert (holds self0 customers products sales inventory) as Hh0 by done.
    pose proof (clean_data_loaded rt today _ _ _ _ _ Hh0) as Hclean.
    simpl in Hclean. rewrite Hdates in Hclean.
    pose proof Hclean as (c1 & p1 & s1 & i1 & Hh1 & Hcl & _)%clean_data_returns.
    assert (s1 ≠ []) as Hne1.
    { destruct Hh1 as (_ & _ & Hs1 & _). simpl in Hs1. simplify_eq.
      apply to_datetime_length in Hdates. intros ->.
      destruct (clean_sales _ _ _); done. }
    destruct (generate_metrics_total rt now _ _ _ _ _ Hsort Hh1 Hcl Hne1)
      as (self2 & bundle & Hgen & Hd).
    exists (summary_of bundle), self2. eexists.
    apply run_pipeline_inr. by eexists _, _, bundle.
Qed.

Lemma run_pipeline_returns_iff_witness :
  (∃ summary self' files,
     run_pipeline Cases.tie_dir Iso.runtime Scenario.today Scenario.now init
     = (inr summary, self', files)) ↔
  ∃ customers products sales inventory,
    customers_csv Cases.tie_dir = inr customers ∧
    products_csv Cases.tie_dir = inr products ∧
    sales_csv Cases.tie_dir = inr sales ∧
    inventory_csv Cases.tie_dir = inr inventory ∧
    let kept :=
      clean_sales (clean_customers customers) (clean_products products) sales in
    Forall (λ s, is_Some (to_datetime_row Iso.runtime s)) kept ∧ kept ≠ [].
Proof.
  apply (run_pipeline_returns_iff Cases.tie_dir Iso.runtime Scenario.today
           Scenario.now init).
  apply sort_stable_spec.
Defined.





(** ** Age bands *)

Lemma Qle_bool_false x y : Qle_bool x y = false → (y < x)%Q.
Proof.
  intros H. apply Qnot_le_lt. intros Hle%Qle_bool_iff. congruence.
Qed.

Lemma cut_age_in_band age g :
  cut_age (Some age) = Some g
  ↔ (band_lower g < age)%Q ∧ (age <= band_upper g)%Q.
Proof.
  unfold cut_age, Qgtb, Qleb. simpl.
  destruct (Qle_bool age 0) eqn:H0;
    [apply Qle_bool_iff in H0|apply Qle_bool_false in H0];
  (destruct (Qle_bool age 25) eqn:H25;
    [apply Qle_bool_iff in H25|apply Qle_bool_false in H25]);
  (destruct (Qle_bool age 35) eqn:H35;
    [apply Qle_bool_iff in H35|apply Qle_bool_false in H35]);
  (destruct (Qle_bool age 50) eqn:H50;
    [apply Qle_bool_iff in H50|apply Qle_bool_false in H50]);
  (destruct (Qle_bool age 65) eqn:H65;
    [apply Qle_bool_iff in H65|apply Qle_bool_false in H65]);
  (destruct (Qle_bool age 100) eqn:H100;
    [apply Qle_bool_iff in H100|apply Qle_bool_false in H100]);
  simpl; try (exfalso; lra);
  destruct g; simpl;
    (split;
       [intros [=]; split; lra
       |intros [? ?]; first [reflexivity | exfalso; lra]]).
Qed.

(** X26.  The bands of [pd.cut]: an age falls in a band exactly when it is
    above the band's lower bound and at most its upper bound, so that an
    age on a boundary (25, 35, 50, 65) belongs to the band below; an age
    that is not above 0, or is above 100, has no band. *)
Theorem cut_age_bands age :
  (∀ g, cut_age (Some age) = Some g
        ↔ (band_lower g < age)%Q ∧ (age <= band_upper g)%Q) ∧
  (cut_age (Some age) = None ↔ (age <= 0)%Q ∨ (100 < age)%Q).
Proof.
  split; [intros g; apply cut_age_in_band|]. split.
  - intros Hnone.
    destruct (Qlt_le_dec 0 age) as [H0|H0]; [|by left].
    destruct (Qlt_le_dec 100 age) as [H100|H100]; [by right|]. exfalso.
    assert (∃ g, (band_lower g < age)%Q ∧ (age <= band_upper g)%Q) as [g Hg].
    { destruct (Qlt_le_dec 25 age); [|by exists G18_25].
      destruct (Qlt_le_dec 35 age); [|by exists G26_35].
      destruct (Qlt_le_dec 50 age); [|by exists G36_50].
      destruct (Qlt_le_dec 65 age); [|by exists G51_65].
      by exists G65plus. }
    apply cut_age_in_band in Hg. congruence.
  - intros Hout. destruct (cut_age (Some age)) as [g|] eqn:Hg; [|done].
    apply cut_age_in_band in Hg as [Hlo Hhi].
    destruct g; simpl in *; destruct Hout; lra.
Qed.

(** ** Rounding keeps the order *)

Lemma rint_mono x y : (x <= y)%Q → (rint x <= rint y)%Z.
Proof.
  intros Hxy.
  pose proof (Qfloor_resp_le _ _ Hxy) as Hfg.
  pose proof (Qfloor_le x) as Hxlo. pose proof (Qlt_floor x) as Hxhi.
  pose proof (Qfloor_le y) as Hylo. pose proof (Qlt_floor y) as Hyhi.
  rewrite inject_Z_plus in Hxhi, Hyhi.
  change (inject_Z 1) with 1%Q in Hxhi, Hyhi.
  destruct (decide (Qfloor x = Qfloor y)) as [Heq|Hne].
  - unfold rint. rewrite <- Heq in *.
    destruct (x - inject_Z (Qfloor x) ?= 1 # 2)%Q eqn:Hx;
      destruct (y - inject_Z (Qfloor x) ?= 1 # 2)%Q eqn:Hy;
      first [apply Qeq_alt in Hx | apply Qlt_alt in Hx | apply Qgt_alt in Hx];
      first [apply Qeq_alt in Hy | apply Qlt_alt in Hy | apply Qgt_alt in Hy];
      try (exfalso; lra); destruct (Z.even (Qfloor x)); lia.
  - assert (Qfloor x + 1 <= Qfloor y)%Z as Hlt by lia.
    assert (rint x <= Qfloor x + 1)%Z by (unfold rint; repeat case_match; lia).
    assert (Qfloor y <= rint y)%Z by (unfold rint; repeat case_match; lia).
    lia.
Qed.

Lemma round2_mono x y : (x <= y)%Q → (round2 x <= round2 y)%Q.
Proof.
  intros Hxy. unfold round2, Qdiv. change (/ 100)%Q with (1 # 100)%Q.
  assert (rint (x * 100) <= rint (y * 100))%Z as H by (apply rint_mono; lra).
  rewrite Zle_Qle in H. lra.
Qed.

(** ** Smallest, mean and largest of a column *)

Lemma Qmin_list_foldl (xs : list Q) (m0 : Q) :
  let m := foldl (λ m y, if Qltb y m then y else m) m0 xs in
  (m <= m0)%Q ∧ Forall (λ v, m <= v)%Q xs.
Proof.
  revert m0. induction xs as [|x xs IH]; intros m0; simpl.
  - split; [lra|done].
  - destruct (IH (if Qltb x m0 then x else m0)) as [Hle Hall].
    destruct (Qltb x m0) eqn:Hlt;
      [apply Qltb_lt in Hlt|apply Qltb_ge in Hlt];
      (split; [lra|apply Forall_cons; split; [lra|done]]).
Qed.

Lemma Qmax_list_foldl (xs : list Q) (m0 : Q) :
  let m := foldl (λ m y, if Qltb m y then y else m) m0 xs in
  (m0 <= m)%Q ∧ Forall (λ v, v <= m)%Q xs.
Proof.
  revert m0. induction xs as [|x xs IH]; intros m0; simpl.
  - split; [lra|done].
  - destruct (IH (if Qltb m0 x then x else m0)) as [Hle Hall].
    destruct (Qltb m0 x) eqn:Hlt;
      [apply Qltb_lt in Hlt|apply Qltb_ge in Hlt];
      (split; [lra|apply Forall_cons; split; [lra|done]]).
Qed.

Lemma Qmin_list_le xs m : Qmin_list xs = Some m → Forall (λ v, m <= v)%Q xs.
Proof.
  destruct xs as [|x xs]; [done|]. intros [= <-].
  destruct (Qmin_list_foldl xs x) as [Hle Hall].
  apply Forall_cons. split; [done|done].
Qed.

Lemma Qmax_list_le xs m : Qmax_list xs = Some m → Forall (λ v, v <= m)%Q xs.
Proof.
  destruct xs as [|x xs]; [done|]. intros [= <-].
  destruct (Qmax_list_foldl xs x) as [Hle Hall].
  apply Forall_cons. split; [done|done].
Qed.

Lemma Qsum_between (xs : list Q) lo hi :
  Forall (λ v, lo <= v)%Q xs → Forall (λ v, v <= hi)%Q xs →
  (Qcount (length xs) * lo <= Qsum xs ∧ Qsum xs <= Qcount (length xs) * hi)%Q.
Proof.
  induction xs as [|x xs IH]; intros Hlo Hhi.
  - simpl. change (Qcount 0) with 0%Q. split; lra.
  - apply Forall_cons in Hlo as [? Hlo], Hhi as [? Hhi].
    destruct (IH Hlo Hhi). cbn [length Qsum foldr].
    fold (Qsum xs). rewrite Qcount_S. split; lra.
Qed.

Lemma Qmean_between (xs : list Q) lo hi avg :
  Forall (λ v, lo <= v)%Q xs → Forall (λ v, v <= hi)%Q xs →
  Qmean xs = Some avg → (lo <= avg ∧ avg <= hi)%Q.
Proof.
  intros Hlo Hhi (Hpos & ->)%Qmean_Some.
  destruct (Qsum_between xs lo hi Hlo Hhi) as [H1 H2].
  pose proof (Qcount_pos _ Hpos) as Hn. split.
  - apply Qle_shift_div_l; [done|]. lra.
  - apply Qle_shift_div_r; [done|]. lra.
Qed.

Lemma column_figures (xs : list Q) :
  (0 < length xs)%nat →
  ∃ lo avg hi, Qmin_list xs = Some lo ∧ Qmean xs = Some avg ∧
               Qmax_list xs = Some hi.
Proof. destruct xs; [simpl; lia|]. intros _. by eexists _, _, _. Qed.

(** ** Turnover by category *)

Lemma dropna_all {A B} (cell : A → option B) (df : list A) :
  Forall (λ r, is_Some (cell r)) df → length (dropna (cell <$> df)) = length df.
Proof.
  induction 1 as [|r df [v Hv] _ IH]; [done|]. csimpl. rewrite Hv. simpl.
  by rewrite IH.
Qed.

(** X27.  In [turnover_by_category], on cleaned tables, every category has
    its three figures, and they are in order: the smallest turnover rate
    is at most the average, which is at most the largest. *)
Theorem turnover_figures_are_ordered rt (today : string) (now : Z)
    self self1 self2 :
  clean_data rt today self = (inr (), self1) →
  generate_metrics rt now self1 = (inr (), self2) →
  ∃ bundle,
    processed_data self2 = Some bundle ∧
    NoDup (fst <$> turnover_by_category (inventory_insights bundle)) ∧
    ∀ category row,
      (category, row) ∈ turnover_by_category (inventory_insights bundle) →
      ∃ lo avg hi,
        min_turnover row = Some lo ∧ avg_turnover row = Some avg ∧
        max_turnover row = Some hi ∧ (lo <= avg)%Q ∧ (avg <= hi)%Q.
Proof.
  intros (customers & products & sales & inventory & Hh & Hcl & _)
    %clean_data_returns
    (customers' & products' & sales' & inventory' & insights & Hh' & _ & _ & ->)
    %generate_metrics_stores.
  destruct Hh as (Hc & Hp & Hs & Hi), Hh' as (Hc' & Hp' & Hs' & Hi').
  simplify_eq. eexists. split; [done|].
  cbn [inventory_insights turnover_by_category]. split.
  { unfold turnover_analysis_df. rewrite <- list_fmap_compose.
    erewrite list_fmap_ext; [apply groupby_keys_NoDup|].
    by intros _ [category g] _. }
  intros category row ([category' g] & [= -> ->] & Hg)%list_elem_of_fmap.
  apply elem_of_groupby in Hg as [(r0 & Hr0 & Hkey) ->].
  set (g := List.filter _ _).
  assert (r0 ∈ g) as Hin
    by (apply elem_of_mask; split; [done|by apply bool_decide_eq_true]).
  assert (Forall (λ r : Inventory * Product, is_Some (i_turnover_rate r.1)) g)
    as Hrates.
  { apply Forall_forall. intros [i p] [Hr _]%elem_of_mask.
    apply merge_left_key in Hr as (Hrow & _ & _).
    destruct Hcl as [_ _ _ _ _ _ _ _ Hinv _].
    rewrite Forall_forall in Hinv. by destruct (Hinv i Hrow). }
  set (rates := dropna ((i_turnover_rate ∘ fst) <$> g)).
  assert (0 < length rates)%nat as Hpos.
  { unfold rates. rewrite (dropna_all (i_turnover_rate ∘ fst)) by done.
    destruct g; [by apply elem_of_nil in Hin|simpl; lia]. }
  destruct (column_figures rates Hpos)
    as (lo & avg & hi & Hlo & Havg & Hhi).
  exists (round2 lo), (round2 avg), (round2 hi). simpl.
  fold rates. rewrite Hlo, Hhi, Havg. do 3 (split; [done|]).
  apply Qmin_list_le in Hlo. apply Qmax_list_le in Hhi.
  destruct (Qmean_between _ _ _ _ Hlo Hhi Havg).
  split; by apply round2_mono.
Qed.

Lemma turnover_figures_are_ordered_witness :
  ∃ bundle,
    processed_data
      (run_stages Iso.runtime Scenario.today Scenario.now Examples.tie).2
      = Some bundle ∧
    NoDup (fst <$> turnover_by_category (inventory_insights bundle)) ∧
    ∀ category row,
      (category, row) ∈ turnover_by_category (inventory_insights bundle) →
      ∃ lo avg hi,
        min_turnover row = Some lo ∧ avg_turnover row = Some avg ∧
        max_turnover row = Some hi ∧ (lo <= avg)%Q ∧ (avg <= hi)%Q.
Proof.
  apply (turnover_figures_are_ordered Iso.runtime Scenario.today Scenario.now
           Examples.tie (clean_data Iso.runtime Scenario.today Examples.tie).2).
  - vm_compute. reflexivity.
  - vm_compute. reflexivity.
Defined.

(** ** Age groups *)

#[local] Instance AgeGroup_leb_total :
  Total (λ a b : AgeGroup, Is_true (key_leb a b)).
Proof.
  intros a b. simpl.
  destruct (Z.leb_spec (AgeGroup_code a) (AgeGroup_code b)); [by left|].
  right. apply Is_true_true, Z.leb_le. lia.
Qed.

Lemma age_group_analysis_keys customer_metrics :
  fst <$> age_group_analysis_df customer_metrics
  = fst <$> groupby cm_age_group customer_metrics.
Proof.
  unfold age_group_analysis_df. rewrite <- list_fmap_compose.
  apply list_fmap_ext. by intros _ [g rows] _.
Qed.

Lemma customer_metrics_age_groups now customers products sales inventory :
  cleaned customers products sales inventory →
  cm_age_group <$> customer_metrics_df now sales customers
  = (cut_age ∘ c_age) <$> matched_customers sales customers.
Proof.
  intros Hcl. unfold customer_metrics_df, matched_customers.
  rewrite <- !list_fmap_compose. apply list_fmap_ext.
  by intros _ [[cid g] c] _.
Qed.

(** X28.  [age_group_analysis], on cleaned tables, has a row for exactly
    the bands in which the age of a customer with a sale falls, the bands
    in increasing order and none twice: between one and five rows. *)
Theorem age_groups_are_those_of_buyers rt (today : string) (now : Z)
    self self1 self2 :
  clean_data rt today self = (inr (), self1) →
  generate_metrics rt now self1 = (inr (), self2) →
  ∃ customers sales bundle,
    customers_df self1 = Some customers ∧ sales_df self1 = Some sales ∧
    processed_data self2 = Some bundle ∧
    let bands := fst <$> age_group_analysis bundle in
    Sorted (λ a b, AgeGroup_code a <= AgeGroup_code b)%Z bands ∧
    NoDup bands ∧ (1 ≤ length bands ≤ 5)%nat ∧
    ∀ g, g ∈ bands ↔
         ∃ c age, c ∈ purchasing sales customers ∧ c_age c = Some age ∧
                  (band_lower g < age)%Q ∧ (age <= band_upper g)%Q.
Proof.
  intros (customers & products & sales & inventory & Hh & Hcl & _)
    %clean_data_returns
    (customers' & products' & sales' & inventory' & insights & Hh' & _ & Hins
     & ->)%generate_metrics_stores.
  destruct Hh as (Hc & Hp & Hs & Hi), Hh' as (Hc' & Hp' & Hs' & Hi').
  simplify_eq. exists customers, sales. eexists.
  do 3 (split; [done|]). cbn [age_group_analysis]. cbv zeta.
  rewrite age_group_analysis_keys.
  assert (∀ g, g ∈ fst <$> groupby cm_age_group
                     (customer_metrics_df now sales customers) ↔
               ∃ c age, c ∈ purchasing sales customers ∧ c_age c = Some age ∧
                        (band_lower g < age)%Q ∧ (age <= band_upper g)%Q)
    as Hbands.
  { intros g. rewrite elem_of_groupby_keys.
    transitivity (Some g ∈ cm_age_group
                    <$> customer_metrics_df now sales customers).
    { rewrite list_elem_of_fmap. naive_solver. }
    rewrite (customer_metrics_age_groups _ _ _ _ _ Hcl).
    rewrite (matched_customers_perm _ _ _ _ Hcl), list_elem_of_fmap.
    split.
    - intros (c & Hg & Hin). simpl in Hg.
      destruct (c_age c) as [age|] eqn:Hage; [|done].
      exists c, age. split; [done|]. split; [done|].
      by apply cut_age_in_band.
    - intros (c & age & Hin & Hage & Hband). exists c. split; [|done].
      simpl. rewrite Hage. symmetry. by apply cut_age_in_band. }
  split; [|split; [apply groupby_keys_NoDup|split; [|done]]].
  - rewrite groupby_keys. unfold sort_keys.
    eapply Sorted_weaken; [|apply (Sorted_merge_sort _)].
    intros a b Hab. simpl in Hab. by apply Is_true_true, Z.leb_le in Hab.
  - split.
    + assert (customer_metrics_df now sales customers ≠ []) as Hne.
      { apply customer_metrics_of_regions.
        apply generate_business_insights_inr in Hins as (? & ? & ? & Hreg & _).
        by apply regional_insights_inr in Hreg. }
      destruct (customer_metrics_df now sales customers) as [|m ms] eqn:Hcm;
        [done|].
      assert (is_Some (cm_age_group m)) as [g Hg].
      { assert (cm_age_group m ∈ cm_age_group <$> m :: ms) as Hin by left.
        rewrite <- Hcm, (customer_metrics_age_groups _ _ _ _ _ Hcl) in Hin.
        apply list_elem_of_fmap in Hin as (c & -> & Hin).
        rewrite (matched_customers_perm _ _ _ _ Hcl) in Hin.
        apply elem_of_mask in Hin as [Hin _].
        destruct (cleaned_customer Hcl c Hin) as (_ & _ & age & Hage & ? & ?).
        simpl. rewrite Hage. by apply cut_age_Some. }
      assert (g ∈ fst <$> groupby cm_age_group (m :: ms)) as Hin.
      { apply elem_of_groupby_keys. exists m. split; [left|done]. }
      destruct (fst <$> groupby cm_age_group (m :: ms)); [|simpl; lia].
      by apply elem_of_nil in Hin.
    + apply (submseteq_length _ [G18_25; G26_35; G36_50; G51_65; G65plus]).
      apply NoDup_submseteq; [apply groupby_keys_NoDup|].
      intros [] _; set_solver.
Qed.

Lemma age_groups_are_those_of_buyers_witness :
  ∃ customers sales bundle,
    customers_df (clean_data Iso.runtime Scenario.today Examples.tie).2
      = Some customers ∧
    sales_df (clean_data Iso.runtime Scenario.today Examples.tie).2
      = Some sales ∧
    processed_data
      (run_stages Iso.runtime Scenario.today Scenario.now Examples.tie).2
      = Some bundle ∧
    let bands := fst <$> age_group_analysis bundle in
    Sorted (λ a b, AgeGroup_code a <= AgeGroup_code b)%Z bands ∧
    NoDup bands ∧ (1 ≤ length bands ≤ 5)%nat ∧
    ∀ g, g ∈ bands ↔
         ∃ c age, c ∈ purchasing sales customers ∧ c_age c = Some age ∧
                  (band_lower g < age)%Q ∧ (age <= band_upper g)%Q.
Proof.
  apply (age_groups_are_those_of_buyers Iso.runtime Scenario.today Scenario.now
           Examples.tie).
  - vm_compute. reflexivity.
  - vm_compute. reflexivity.
Defined.

(** ** What the generator writes passes the cleaning rules *)

Lemma seq_ids_NoDup {A} (key : A → Z) (f : nat → A) start len :
  (∀ i, key (f i) = Z.of_nat i) → NoDup (key <$> (f <$> seq start len)).
Proof.
  intros Hkey. rewrite <- list_fmap_compose.
  apply NoDup_fmap_2_strong; [|apply NoDup_seq].
  intros i j _ _. simpl. rewrite !Hkey. lia.
Qed.

(** X29.  [generate_customers] writes no row that [clean_data] would touch:
    the ids are distinct, name and region are given, and the age, clamped
    at line 41, is between 18 and 80.  Whatever the random sources return,
    cleaning the generated customers leaves them as they are. *)
Theorem generated_customers_are_clean draw :
  length (Generate.generate_customers draw) = Generate.NUM_CUSTOMERS ∧
  (∀ c, c ∈ Generate.generate_customers draw →
        ∃ age : Z, c_age c = Some (inject_Z age) ∧ (18 ≤ age ≤ 80)%Z) ∧
  clean_customers (Generate.generate_customers draw)
  = Generate.generate_customers draw.
Proof.
  assert (∀ c, c ∈ Generate.generate_customers draw →
               ∃ age : Z, c_age c = Some (inject_Z age) ∧ (18 ≤ age ≤ 80)%Z)
    as Hages.
  { intros c (i & -> & _)%list_elem_of_fmap. eexists. split; [done|]. lia. }
  split; [|split; [done|]].
  - unfold Generate.generate_customers. by rewrite length_fmap, length_seq.
  - apply clean_customers_fixed.
    + by apply seq_ids_NoDup.
    + apply Forall_forall. intros c (i & -> & _)%list_elem_of_fmap.
      split; [by eexists|]. split; [by eexists|].
      eexists. split; [done|]. split.
      * change 18%Q with (inject_Z 18). rewrite <- Zle_Qle. lia.
      * change 100%Q with (inject_Z 100). rewrite <- Zle_Qle. lia.
Qed.

Lemma price_ranges_of_category category :
  category ∈ Generate.CATEGORIES →
  ∃ low high,
    Generate.price_ranges !! category = Some (low, high) ∧
    (0 < low)%Q ∧ (low <= high)%Q ∧ (high <= 10000)%Q ∧
    (round2 low == low)%Q ∧ (round2 high == high)%Q.
Proof.
  unfold Generate.CATEGORIES. rewrite !elem_of_cons, elem_of_nil.
  intros [->|[->|[->|[->|[->|[->|[->|[]]]]]]]];
    eexists _, _; (split; [by vm_compute|]); by vm_compute.
Qed.

Lemma generate_product_ok i d :
  Generate.product_draw_ok d →
  ∃ p low high price,
    Generate.generate_product i d = Some p ∧
    p_id p = Z.of_nat i ∧ p_category p = Some (Generate.choice_CATEGORIES d) ∧
    Generate.price_ranges !! Generate.choice_CATEGORIES d = Some (low, high) ∧
    p_price p = Some price ∧ (low <= price)%Q ∧ (price <= high)%Q ∧
    product_ok p.
Proof.
  intros [Hcat Huni].
  destruct (price_ranges_of_category _ Hcat)
    as (low & high & Hrange & Hpos & Hle & Hmax & Hlow & Hhigh).
  destruct (Huni low high Hle) as [Hlo Hhi].
  apply round2_mono in Hlo, Hhi. rewrite Hlow in Hlo. rewrite Hhigh in Hhi.
  unfold Generate.generate_product. rewrite Hrange. simpl.
  eexists _, low, high, _. split; [done|]. simpl.
  do 4 (split; [done|]). split; [done|]. split; [done|].
  split; [by eexists|]. split; [by eexists|]. split; [by eexists|].
  eexists. split; [done|]. simpl. split; lra.
Qed.

(** X30.  [generate_products], with random sources that keep to their
    contract ([choice] returns an element of its list, [uniform] a number
    between its bounds), meets no [KeyError] at line 64 and writes no row
    that [clean_data] would touch: 200 products of distinct ids, each with
    a price within the range of its category, and cleaning them leaves
    them as they are. *)
Theorem generated_products_are_clean draw :
  (∀ i, Generate.product_draw_ok (draw i)) →
  ∃ products,
    Generate.generate_products draw = Some products ∧
    length products = Generate.NUM_PRODUCTS ∧
    (∀ p, p ∈ products →
       ∃ category low high price,
         p_category p = Some category ∧
         Generate.price_ranges !! category = Some (low, high) ∧
         p_price p = Some price ∧ (low <= price)%Q ∧ (price <= high)%Q) ∧
    clean_products products = products.
Proof.
  intros Hdraw. unfold Generate.generate_products.
  destruct (mapM (λ i, Generate.generate_product i (draw i))
              (seq 1 Generate.NUM_PRODUCTS)) as [products|] eqn:Hgen; cycle 1.
  { apply mapM_None_1, Exists_exists in Hgen as (i & _ & Hnone).
    destruct (generate_product_ok i (draw i) (Hdraw i))
      as (p & ? & ? & ? & Hp & _). congruence. }
  exists products. split; [done|]. apply mapM_Some in Hgen.
  assert (∀ p, p ∈ products →
            ∃ i, Generate.generate_product i (draw i) = Some p) as Hrows.
  { intros p [n Hn]%list_elem_of_lookup.
    destruct (Forall2_lookup_r _ _ _ _ _ Hgen Hn) as (i & _ & Hi). eauto. }
  split; [|split].
  - rewrite <- (Forall2_length _ _ _ Hgen). apply length_seq.
  - intros p [i Hi]%Hrows.
    destruct (generate_product_ok i (draw i) (Hdraw i))
      as (p' & low & high & price & Hp & _ & Hcat & Hrange & Hprice & ? & ? & _).
    simplify_eq. by eexists _, low, high, price.
  - apply clean_products_fixed.
    + assert (p_id <$> products
              = Z.of_nat <$> seq 1 Generate.NUM_PRODUCTS) as ->.
      { clear Hrows. induction Hgen as [|i p ? ? Hi _ IH]; csimpl; [done|].
        destruct (generate_product_ok i (draw i) (Hdraw i))
          as (p' & ? & ? & ? & Hp & Hid & _).
        simplify_eq. by rewrite Hid, IH. }
      apply NoDup_fmap_2; [apply _|apply NoDup_seq].
    + apply Forall_forall. intros p [i Hi]%Hrows.
      destruct (generate_product_ok i (draw i) (Hdraw i))
        as (p' & ? & ? & ? & Hp & _ & _ & _ & _ & _ & _ & Hok).
      by simplify_eq.
Qed.

Lemma generated_products_are_clean_witness :
  ∃ products,
    Generate.generate_products GenerateCases.cheapest = Some products ∧
    length products = Generate.NUM_PRODUCTS ∧
    (∀ p, p ∈ products →
       ∃ category low high price,
         p_category p = Some category ∧
         Generate.price_ranges !! category = Some (low, high) ∧
         p_price p = Some price ∧ (low <= price)%Q ∧ (price <= high)%Q) ∧
    clean_products products = products.
Proof.
  apply generated_products_are_clean.
  intros i. split.
  - unfold Generate.CATEGORIES. simpl. set_solver.
  - intros low high Hle. simpl. split; [apply Qle_refl|done].
Defined.
